(** * Language detection of context-ai: the character scanner, the
      heuristic filter and the three-stage arbitration engine

    Source files embedded here:
    - [languageFilter.ts] (scanCharacters, quickLanguageDetection,
      languageFilter, getCharStats);
    - [src/utils/hybridLanguageDetector.ts] (checkFastTextAvailability,
      initFastText, detectWithFastText, detectWithCharScan,
      calculateLocalConfidence, detectWithLLM, hybridLanguageDetect,
      hybridLanguageDetectSync);
    - [src/services/qwenApi.ts] (detectTextLanguage,
      detectTextLanguageWithAI) and [tts.ts] (detectLanguage), with the
      word tests the two files share.

    Conventions.
    - A JavaScript string is the list of its UTF-16 code units; the
      regular expressions of the source carry no [u] flag, so a character
      class tests one code unit at a time and [text.length] is the number
      of code units.
    - JavaScript numbers that are counts are integers of [Z]; confidences
      and ratios are exact rationals of [Q] (the decimal literals of the
      source denote the rationals they spell). The source computes them
      in IEEE doubles: a confidence obtained by arithmetic there can
      differ from the rational here by a rounding error (one kana in
      three code units gives 0.8600000000000001 there and 43/50 here).
      The theorems about such a confidence compare it with the literals
      of the source, at distances no rounding error of a text bridges;
      where a lemma evaluates one on an example, the value is the
      rational, of which the double of the source is the rounding.
    - The asynchronous functions are run one call at a time, each awaited
      to completion: a computation is a function from the module state
      (the four [let] variables of hybridLanguageDetector.ts, plus call
      counters of the external providers) to an outcome and a new state.
      A rejected promise and a thrown exception are the same outcome
      [Thrown]. *)

From Stdlib Require Import ZArith QArith Qminmax Lqa List String Ascii Bool Lia.
Import ListNotations.

Local Open Scope Z_scope.

(** ** JavaScript strings as lists of UTF-16 code units *)

Module JsString.

Definition jsstring := list Z.

(** [x] lies in the inclusive range [lo-hi] of a character class. *)
Definition in_range (lo hi x : Z) : bool := (lo <=? x) && (x <=? hi).

(** [x] is one of the listed code units of a character class. *)
Definition one_of (cs : list Z) (x : Z) : bool := existsb (Z.eqb x) cs.

(** The class [\s] of a regular expression, which is also the set of
    characters [String.prototype.trim] strips: WhiteSpace and
    LineTerminator of ECMAScript. *)
Definition isWhitespace (c : Z) : bool :=
  in_range 0x09 0x0D c
  || one_of [0x20; 0xA0; 0x1680; 0x2028; 0x2029; 0x202F; 0x205F; 0x3000; 0xFEFF] c
  || in_range 0x2000 0x200A c.

Fixpoint trimStart (s : jsstring) : jsstring :=
  match s with
  | [] => []
  | c :: s' => if isWhitespace c then trimStart s' else s
  end.

(** [text.trim()] *)
Definition trim (s : jsstring) : jsstring :=
  rev (trimStart (rev (trimStart s))).

(** [s.match(/[class]/g)] followed by [.length] (0 when the match is
    [null]): the number of code units in the class. *)
Definition count_matches (p : Z -> bool) (s : jsstring) : Z :=
  Z.of_nat (List.length (filter p s)).

(** [/[class]/.test(s)] *)
Definition test_class (p : Z -> bool) (s : jsstring) : bool := existsb p s.

(** [s.split(/\s+/)]: the pieces between maximal runs of whitespace; a run
    at the start or at the end leaves an empty piece there, and the empty
    string splits into one empty piece. [cur] is the piece being read,
    reversed; [in_ws] says that the previous code unit was whitespace. *)
Fixpoint split_ws_from (cur : jsstring) (in_ws : bool) (s : jsstring)
  : list jsstring :=
  match s with
  | [] => [rev cur]
  | c :: s' =>
      if isWhitespace c then
        if in_ws then split_ws_from [] true s'
        else rev cur :: split_ws_from [] true s'
      else split_ws_from (c :: cur) false s'
  end.

Definition split_ws (s : jsstring) : list jsstring := split_ws_from [] false s.

End JsString.

Import JsString.

(** ** languageFilter.ts *)

Module LanguageFilter.

(** [LanguageFilterResult] without its [null]; [null] is [None]. The same
    six codes are [SupportedLanguage] of hybridLanguageDetector.ts. *)
Inductive SupportedLanguage := en | de | fr | ja | es | zh.

Definition SupportedLanguage_eqb (a b : SupportedLanguage) : bool :=
  match a, b with
  | en, en | de, de | fr, fr | ja, ja | es, es | zh, zh => true
  | _, _ => false
  end.

Record CharStats := mkCharStats {
  chinese : Z;
  japanese : Z;
  german : Z;
  french : Z;
  spanish : Z;
  accented : Z;
  total : Z
}.

(** LANGUAGE_PATTERNS *)
Definition pat_chinese (c : Z) : bool := in_range 0x4E00 0x9FA5 c.

Definition pat_japanese (c : Z) : bool :=
  in_range 0x3040 0x309F c || in_range 0x30A0 0x30FF c.

Definition pat_german (c : Z) : bool :=
  one_of [0xE4; 0xF6; 0xFC; 0xDF; 0xC4; 0xD6; 0xDC] c.

Definition pat_french (c : Z) : bool :=
  one_of [0xE0; 0xE2; 0xE9; 0xE8; 0xEA; 0xEB; 0xEE; 0xEF; 0xF4; 0xF9; 0xFB;
          0xFC; 0xFF; 0xE7; 0x153; 0xE6;
          0xC0; 0xC2; 0xC9; 0xC8; 0xCA; 0xCB; 0xCE; 0xCF; 0xD4; 0xD9; 0xDB;
          0xDC; 0x178; 0xC7; 0x152; 0xC6] c.

Definition pat_spanish (c : Z) : bool := one_of [0xF1; 0xBF; 0xA1; 0xD1] c.

Definition pat_spanishAccented (c : Z) : bool :=
  one_of [0xE1; 0xE9; 0xED; 0xF3; 0xFA; 0xFC;
          0xC1; 0xC9; 0xCD; 0xD3; 0xDA; 0xDC] c.

Definition pat_allAccented (c : Z) : bool :=
  in_range 0xE0 0xF6 c || in_range 0xF8 0xFF c
  || in_range 0xC0 0xD6 c || in_range 0xD8 0xDE c || (c =? 0x178).

(** The two tests of rule 3: n with tilde (either case), and the inverted
    question and exclamation marks. *)
Definition pat_enye (c : Z) : bool := one_of [0xF1; 0xD1] c.
Definition pat_inverted (c : Z) : bool := one_of [0xBF; 0xA1] c.

(** The character class of the anchored regular expression of rule 7:
    ASCII letters, digits, whitespace, and the eleven punctuation marks
    full stop, comma, exclamation mark, question mark, semicolon, colon,
    apostrophe, quotation mark, the two parentheses and hyphen. *)
Definition pat_basic (c : Z) : bool :=
  in_range 0x61 0x7A c || in_range 0x41 0x5A c || in_range 0x30 0x39 c
  || isWhitespace c
  || one_of [0x2E; 0x2C; 0x21; 0x3F; 0x3B; 0x3A; 0x27; 0x22; 0x28; 0x29; 0x2D] c.

(** [/^[class]+$/.test(text)] *)
Definition all_basic (text : jsstring) : bool :=
  negb (Nat.eqb (List.length text) 0) && forallb pat_basic text.

Definition scanCharacters (text : jsstring) : CharStats :=
  {| chinese := count_matches pat_chinese text;
     japanese := count_matches pat_japanese text;
     german := count_matches pat_german text;
     french := count_matches pat_french text;
     spanish := count_matches pat_spanish text;
     accented := count_matches pat_allAccented text;
     total := Z.of_nat (List.length text) |}.

(** Strict comparison of rationals, as a boolean: [a > b] of the source
    is [Qgtb a b]. *)
Definition Qltb (a b : Q) : bool := negb (Qle_bool b a).
Definition Qgtb (a b : Q) : bool := Qltb b a.

(** [a / b] for two counts. The source divides only by [stats.total]
    (or [stats.accented]) under a test that makes it positive. *)
Definition ratio (a b : Z) : Q := (inject_Z a / inject_Z b)%Q.

Definition quickLanguageDetection (stats : CharStats) (text : jsstring)
  : option SupportedLanguage :=
  if 0 <? chinese stats then Some zh
  else if 0 <? japanese stats then Some ja
  else if (0 <? spanish stats) && test_class pat_enye text then Some es
  else if (0 <? spanish stats) && test_class pat_inverted text then Some es
  else if (0 <? german stats) && (french stats =? 0) && (spanish stats =? 0)
          && ((2 <=? german stats)
              || ((0 <? total stats)
                  && Qgtb (ratio (german stats) (total stats)) 0.05))
       then Some de
  else if (0 <? french stats) && (german stats =? 0) && (spanish stats =? 0)
          && ((2 <=? french stats)
              || ((0 <? total stats)
                  && Qgtb (ratio (french stats) (total stats)) 0.05))
       then Some fr
  else if (spanish stats =? 0) && (0 <? accented stats)
          && (let n := count_matches pat_spanishAccented text in
              (2 <=? n) && Qgtb (ratio n (accented stats)) 0.7)
       then Some es
  else if (german stats =? 0) && (french stats =? 0) && (spanish stats =? 0)
          && (accented stats =? 0) && all_basic text
       then Some en
  else None.

Definition languageFilter (text : jsstring) : option SupportedLanguage :=
  if Nat.eqb (List.length (trim text)) 0 then None
  else if (List.length (trim text) <? 2)%nat then Some en
  else quickLanguageDetection (scanCharacters text) text.

Definition getCharStats (text : jsstring) : CharStats := scanCharacters text.

End LanguageFilter.

Import LanguageFilter.

(** ** hybridLanguageDetector.ts *)

Module Hybrid.

Local Open Scope Q_scope.

Inductive Method := fasttext | charscan | llm | fallback.

(** The optional [reasoning] text of a result. Each template string of
    the source is one constructor, carrying the values the template
    interpolates (their rendering as text is not modelled). *)
Inductive Reasoning :=
  | ReasonFastText (confidence : Q)
  | ReasonKana (count : Z)
  | ReasonChinese (count : Z)
  | ReasonFilter (lang : SupportedLanguage) (confidence : Q)
  | ReasonLLM
  | ReasonLLMFailed
  | ReasonEmptyText
  | ReasonAllFailed
  | ReasonScanFailed.

Record DetectionResult := mkResult {
  language : SupportedLanguage;
  confidence : Q;
  method : Method;
  reasoning : Reasoning
}.

(** The array literal of line 161 *)
Definition SUPPORTED : list SupportedLanguage := [en; de; fr; ja; es; zh].

(** [s.toLowerCase()] on a tag. Tags are modelled as strings of bytes and
    only the ASCII capitals are folded; no other character of Unicode
    lower-cases to a letter of the keys of LANGUAGE_CODE_MAP. *)
Definition lower_ascii (a : ascii) : ascii :=
  let n := nat_of_ascii a in
  if ((65 <=? n) && (n <=? 90))%nat then ascii_of_nat (n + 32) else a.

Fixpoint toLowerCase (s : string) : string :=
  match s with
  | EmptyString => EmptyString
  | String a s' => String (lower_ascii a) (toLowerCase s')
  end.

(** LANGUAGE_CODE_MAP, in the order of the object literal *)
Definition LANGUAGE_CODE_MAP : list (string * SupportedLanguage) :=
  [("en", en); ("de", de); ("fr", fr); ("ja", ja); ("es", es); ("zh", zh);
   ("zh-cn", zh); ("zh-tw", zh)]%string.

(** [LANGUAGE_CODE_MAP[key]], with [undefined] as [None]. A key found only
    on [Object.prototype] yields a value that is not a language code; the
    [includes] test of line 161 rejects it, which is [None] here too. *)
Fixpoint lookup_code (m : list (string * SupportedLanguage)) (key : string)
  : option SupportedLanguage :=
  match m with
  | [] => None
  | (k, v) :: m' => if String.eqb k key then Some v else lookup_code m' key
  end.

(** *** The external providers

    What the code receives from outside: the dynamic import of
    [fasttext.wasm.js], the package's [getLIDModel], the model's [load]
    and [identify], and [detectTextLanguageWithAI] of services/qwenApi.ts.
    A behaviour of the providers fixes the outcome of every call from the
    number of earlier calls of the same kind and from the arguments. *)

(** A loaded model object; the number is the call of [getLIDModel] that
    produced it. An object is truthy. *)
Definition Model := nat.

(** [import("fasttext.wasm.js")], built with [new Function]: the call may
    throw at once (a content-security policy that forbids [new Function]),
    the promise may reject, or it resolves to a value that is truthy or
    not. *)
Inductive ImportOutcome :=
  | ImportThrows
  | ImportRejects
  | ImportResolves (truthy : bool).

(** [result.alpha2]: absent ([undefined] or [null]), a string, or another
    value (on which [toLowerCase] is not a function). *)
Inductive Alpha2 :=
  | Alpha2Absent
  | Alpha2String (tag : string)
  | Alpha2Other.

(** [await model.identify(text)]: a rejection, a nullish value (reading
    [score] of it throws), or an object whose [score] is a number
    ([None]: absent or [NaN]). *)
Inductive IdentifyOutcome :=
  | IdentifyRejects
  | IdentifyNullish
  | IdentifyResult (score : option Q) (alpha2 : Alpha2).

(** The result type of [detectTextLanguageWithAI]: five codes, without
    [zh]. *)
Inductive ApiLanguage := api_en | api_de | api_fr | api_ja | api_es.

Definition api_language (l : ApiLanguage) : SupportedLanguage :=
  match l with
  | api_en => en | api_de => de | api_fr => fr | api_ja => ja | api_es => es
  end.

Record Providers := mkProviders {
  (** the [n]-th dynamic import *)
  import_outcome : nat -> ImportOutcome;
  (** the [n]-th [await getLIDModel()]: [false] when it throws or rejects,
      or when the module has no such function *)
  getLIDModel_outcome : nat -> bool;
  (** the [n]-th [await lidModel.load()]: [false] when it throws or
      rejects *)
  load_outcome : nat -> Model -> bool;
  (** the [n]-th [await model.identify(text)] *)
  identify_outcome : nat -> Model -> jsstring -> IdentifyOutcome;
  (** the [n]-th [await detectTextLanguageWithAI(text)]: [None] when it
      rejects *)
  llm_outcome : nat -> jsstring -> option ApiLanguage
}.

(** *** The module state *)

Record World := mkWorld {
  fastTextModel : option Model;
  fastTextLoading : bool;
  (** the promise stored by initFastText, as the value it settles to *)
  fastTextLoadPromise : option (option Model);
  (** [null], [true] or [false] *)
  fastTextAvailable : option bool;
  (** calls made so far to each provider *)
  n_import : nat;
  n_getLIDModel : nat;
  n_load : nat;
  n_identify : nat;
  n_llm : nat
}.

(** The state when the module has just been loaded. *)
Definition initial_world : World :=
  {| fastTextModel := None; fastTextLoading := false;
     fastTextLoadPromise := None; fastTextAvailable := None;
     n_import := 0; n_getLIDModel := 0; n_load := 0; n_identify := 0;
     n_llm := 0 |}.

Definition set_fastTextModel (v : option Model) (w : World) : World :=
  {| fastTextModel := v; fastTextLoading := fastTextLoading w;
     fastTextLoadPromise := fastTextLoadPromise w;
     fastTextAvailable := fastTextAvailable w;
     n_import := n_import w; n_getLIDModel := n_getLIDModel w;
     n_load := n_load w; n_identify := n_identify w; n_llm := n_llm w |}.

Definition set_fastTextLoading (v : bool) (w : World) : World :=
  {| fastTextModel := fastTextModel w; fastTextLoading := v;
     fastTextLoadPromise := fastTextLoadPromise w;
     fastTextAvailable := fastTextAvailable w;
     n_import := n_import w; n_getLIDModel := n_getLIDModel w;
     n_load := n_load w; n_identify := n_identify w; n_llm := n_llm w |}.

Definition set_fastTextLoadPromise (v : option (option Model)) (w : World)
  : World :=
  {| fastTextModel := fastTextModel w; fastTextLoading := fastTextLoading w;
     fastTextLoadPromise := v;
     fastTextAvailable := fastTextAvailable w;
     n_import := n_import w; n_getLIDModel := n_getLIDModel w;
     n_load := n_load w; n_identify := n_identify w; n_llm := n_llm w |}.

Definition set_fastTextAvailable (v : option bool) (w : World) : World :=
  {| fastTextModel := fastTextModel w; fastTextLoading := fastTextLoading w;
     fastTextLoadPromise := fastTextLoadPromise w;
     fastTextAvailable := v;
     n_import := n_import w; n_getLIDModel := n_getLIDModel w;
     n_load := n_load w; n_identify := n_identify w; n_llm := n_llm w |}.

(** *** Computations: state passing with exceptions *)

Inductive Outcome (A : Type) :=
  | Returned (a : A)
  | Thrown.
Arguments Returned {A} a.
Arguments Thrown {A}.

Definition M (A : Type) : Type := World -> Outcome A * World.

Definition ret {A} (a : A) : M A := fun w => (Returned a, w).

Definition throw {A} : M A := fun w => (Thrown, w).

Definition bind {A B} (c : M A) (k : A -> M B) : M B :=
  fun w =>
    match c w with
    | (Returned a, w') => k a w'
    | (Thrown, w') => (Thrown, w')
    end.

(** [try { c } catch { h }] *)
Definition try_catch {A} (c : M A) (h : M A) : M A :=
  fun w =>
    match c w with
    | (Returned a, w') => (Returned a, w')
    | (Thrown, w') => h w'
    end.

Definition gets {A} (f : World -> A) : M A := fun w => (Returned (f w), w).

Definition modify (f : World -> World) : M unit :=
  fun w => (Returned tt, f w).

Notation "x <- c1 ;; c2" := (bind c1 (fun x => c2))
  (at level 61, c1 at next level, right associativity).
Notation "c1 ;; c2" := (bind c1 (fun _ => c2))
  (at level 61, right associativity).

(** Counting one more call to a provider *)
Definition count_import (w : World) : World :=
  {| fastTextModel := fastTextModel w; fastTextLoading := fastTextLoading w;
     fastTextLoadPromise := fastTextLoadPromise w;
     fastTextAvailable := fastTextAvailable w;
     n_import := S (n_import w); n_getLIDModel := n_getLIDModel w;
     n_load := n_load w; n_identify := n_identify w; n_llm := n_llm w |}.

Definition count_getLIDModel (w : World) : World :=
  {| fastTextModel := fastTextModel w; fastTextLoading := fastTextLoading w;
     fastTextLoadPromise := fastTextLoadPromise w;
     fastTextAvailable := fastTextAvailable w;
     n_import := n_import w; n_getLIDModel := S (n_getLIDModel w);
     n_load := n_load w; n_identify := n_identify w; n_llm := n_llm w |}.

Definition count_load (w : World) : World :=
  {| fastTextModel := fastTextModel w; fastTextLoading := fastTextLoading w;
     fastTextLoadPromise := fastTextLoadPromise w;
     fastTextAvailable := fastTextAvailable w;
     n_import := n_import w; n_getLIDModel := n_getLIDModel w;
     n_load := S (n_load w); n_identify := n_identify w; n_llm := n_llm w |}.

Definition count_identify (w : World) : World :=
  {| fastTextModel := fastTextModel w; fastTextLoading := fastTextLoading w;
     fastTextLoadPromise := fastTextLoadPromise w;
     fastTextAvailable := fastTextAvailable w;
     n_import := n_import w; n_getLIDModel := n_getLIDModel w;
     n_load := n_load w; n_identify := S (n_identify w); n_llm := n_llm w |}.

Definition count_llm (w : World) : World :=
  {| fastTextModel := fastTextModel w; fastTextLoading := fastTextLoading w;
     fastTextLoadPromise := fastTextLoadPromise w;
     fastTextAvailable := fastTextAvailable w;
     n_import := n_import w; n_getLIDModel := n_getLIDModel w;
     n_load := n_load w; n_identify := n_identify w; n_llm := S (n_llm w) |}.

(** *** Stage H and the confidence estimate: pure functions *)

(** Rule 1 of detectWithCharScan (lines 194-206): kana. The confidence
    is the exact rational; the double of the source is this value
    rounded. *)
Definition scanKana (stats : CharStats) : option DetectionResult :=
  if (0 <? japanese stats)%Z then
    let japaneseRatio := ratio (japanese stats) (total stats) in
    if Qgtb japaneseRatio 0.05 || (1 <=? japanese stats)%Z then
      Some {| language := ja;
              confidence := Qmin 0.98 (0.8 + japaneseRatio * 0.18);
              method := charscan;
              reasoning := ReasonKana (japanese stats) |}
    else None
  else None.

(** Rule 2 (lines 211-223): CJK ideographs without kana. The confidence
    is the exact rational, as in [scanKana]. *)
Definition scanChinese (stats : CharStats) : option DetectionResult :=
  if (0 <? chinese stats)%Z && (japanese stats =? 0)%Z then
    let chineseRatio := ratio (chinese stats) (total stats) in
    if Qgtb chineseRatio 0.05 || (1 <=? chinese stats)%Z then
      Some {| language := zh;
              confidence := Qmin 0.98 (0.8 + chineseRatio * 0.18);
              method := charscan;
              reasoning := ReasonChinese (chinese stats) |}
    else None
  else None.

(** The confidence that rule 3 gives to an answer of the filter
    (lines 229-246): the two literals 0.8 and 0.75, or the exact rational
    of which the source computes the rounded double. *)
Definition filterConfidence (filterResult : SupportedLanguage)
    (stats : CharStats) : Q :=
  if SupportedLanguage_eqb filterResult de && (0 <? german stats)%Z then
    Qmin 0.95 (0.75 + ratio (german stats) (total stats) * 0.2)
  else if SupportedLanguage_eqb filterResult fr && (0 <? french stats)%Z then
    Qmin 0.95 (0.75 + ratio (french stats) (total stats) * 0.2)
  else if SupportedLanguage_eqb filterResult es && (0 <? spanish stats)%Z then
    Qmin 0.95 (0.75 + ratio (spanish stats) (total stats) * 0.2)
  else if SupportedLanguage_eqb filterResult en then
    if (german stats =? 0)%Z && (french stats =? 0)%Z
       && (spanish stats =? 0)%Z && (accented stats =? 0)%Z
    then 0.8 else 0.75
  else 0.75.

(** Rule 3 (lines 226-257): the filter of languageFilter.ts *)
Definition scanFilter (text : jsstring) (stats : CharStats)
  : option DetectionResult :=
  match languageFilter text with
  | Some filterResult =>
      let confidence := filterConfidence filterResult stats in
      if Qgtb confidence 0.75 then
        Some {| language := filterResult;
                confidence := confidence;
                method := charscan;
                reasoning := ReasonFilter filterResult confidence |}
      else None
  | None => None
  end.

Definition detectWithCharScan (text : jsstring) : option DetectionResult :=
  let stats := getCharStats text in
  match scanKana stats with
  | Some r => Some r
  | None =>
      match scanChinese stats with
      | Some r => Some r
      | None => scanFilter text stats
      end
  end.

(** [o && o.confidence > t] *)
Definition above (o : option DetectionResult) (t : Q) : bool :=
  match o with
  | Some r => Qgtb (confidence r) t
  | None => false
  end.

Definition calculateLocalConfidence (text : jsstring)
    (charScanResult : option DetectionResult) : Q :=
  let stats := getCharStats text in
  let words :=
    filter (fun w => (0 <? List.length w)%nat) (split_ws (trim text)) in
  let wordCount := List.length words in
  if above charScanResult 0.8 then 0.85
  else if (0 <? japanese stats)%Z || (0 <? chinese stats)%Z then 0.85
  else if (0 <? german stats)%Z || (0 <? french stats)%Z
          || (0 <? spanish stats)%Z then
    let specialCharCount := (german stats + french stats + spanish stats)%Z in
    let specialCharRatio := ratio specialCharCount (total stats) in
    if Qgtb specialCharRatio 0.1 || (2 <=? specialCharCount)%Z then 0.8
    else 0.6
  else if (5 <=? wordCount)%nat then 0.65
  else if (3 <=? wordCount)%nat then 0.55
  else if (wordCount <=? 2)%nat then 0.3
  else 0.5.

Definition hybridLanguageDetectSync (text : jsstring) : DetectionResult :=
  match detectWithCharScan text with
  | Some charScanResult => charScanResult
  | None =>
      {| language := en; confidence := 0.5; method := fallback;
         reasoning := ReasonScanFailed |}
  end.

(** [!text || text.trim().length === 0] *)
Definition isBlank (text : jsstring) : bool :=
  Nat.eqb (List.length text) 0 || Nat.eqb (List.length (trim text)) 0.

(** *** Stages S and R and the arbitration engine *)

Section Engine.

Variable P : Providers.

(** [await (new Function('return import(...)'))()]: the value says whether
    the module is truthy. *)
Definition importFastText : M bool :=
  fun w =>
    match import_outcome P (n_import w) with
    | ImportResolves truthy => (Returned truthy, count_import w)
    | ImportThrows | ImportRejects => (Thrown, count_import w)
    end.

(** [const { getLIDModel } = fastTextModule; await getLIDModel()]; a module
    that is not truthy has no [getLIDModel] to call. *)
Definition getLIDModel (fastTextModule : bool) : M Model :=
  if fastTextModule then
    fun w =>
      if getLIDModel_outcome P (n_getLIDModel w)
      then (Returned (n_getLIDModel w), count_getLIDModel w)
      else (Thrown, count_getLIDModel w)
  else throw.

(** [await lidModel.load()] *)
Definition load (lidModel : Model) : M unit :=
  fun w =>
    if load_outcome P (n_load w) lidModel
    then (Returned tt, count_load w)
    else (Thrown, count_load w).

(** [await model.identify(text)], up to the reading of [result.score] *)
Definition identify (model : Model) (text : jsstring)
  : M (option Q * Alpha2) :=
  fun w =>
    match identify_outcome P (n_identify w) model text with
    | IdentifyResult score alpha2 =>
        (Returned (score, alpha2), count_identify w)
    | IdentifyRejects | IdentifyNullish => (Thrown, count_identify w)
    end.

(** [await detectTextLanguageWithAI(text)] *)
Definition detectTextLanguageWithAI (text : jsstring) : M ApiLanguage :=
  fun w =>
    match llm_outcome P (n_llm w) text with
    | Some lang => (Returned lang, count_llm w)
    | None => (Thrown, count_llm w)
    end.

(** Lines 58-80. The [try] block either returns [true] or falls through
    ([None]) to the two statements after the [catch]. *)
Definition checkFastTextAvailability : M bool :=
  known <- gets fastTextAvailable;;
  match known with
  | Some available => ret available
  | None =>
      returned <-
        try_catch
          (fastTextModule <- importFastText;;
           if fastTextModule : bool then
             modify (set_fastTextAvailable (Some true));;
             ret (Some true)
           else ret None)
          (modify (set_fastTextAvailable (Some false));;
           ret (Some false));;
      match returned with
      | Some b => ret b
      | None =>
          modify (set_fastTextAvailable (Some false));;
          ret false
      end
  end.

(** The body of the asynchronous arrow function of lines 106-123, run to
    its end. *)
Definition loadLIDModel : M (option Model) :=
  try_catch
    (fastTextModule <- importFastText;;
     lidModel <- getLIDModel fastTextModule;;
     load lidModel;;
     modify (set_fastTextModel (Some lidModel));;
     modify (set_fastTextLoading false);;
     ret (Some lidModel))
    (modify (set_fastTextLoading false);;
     modify (set_fastTextLoadPromise None);;
     modify (set_fastTextAvailable (Some false));;
     ret None).

(** Lines 87-126. The assignment of line 106 stores the promise when the
    arrow function reaches its first [await]: before the [catch] block
    when the failure comes later (the block then resets the variable to
    [null]), after it when [new Function] throws at once. The body reads
    neither variable, so the stored value is written here once the body
    has run: the settled promise, unless the [catch] block had the last
    word. *)
Definition initFastText : M (option Model) :=
  available <- checkFastTextAvailability;;
  if negb available then ret None
  else
    model <- gets fastTextModel;;
    match model with
    | Some m => ret (Some m)
    | None =>
        loading <- gets fastTextLoading;;
        promise <- gets fastTextLoadPromise;;
        match loading, promise with
        | true, Some settled => ret settled
        | _, _ =>
            modify (set_fastTextLoading true);;
            throwsAtOnce <-
              gets (fun w =>
                      match import_outcome P (n_import w) with
                      | ImportThrows => true
                      | _ => false
                      end);;
            lidModel <- loadLIDModel;;
            (if throwsAtOnce
                || match lidModel with Some _ => true | None => false end
             then modify (set_fastTextLoadPromise (Some lidModel))
             else ret tt);;
            ret lidModel
        end
    end.

(** [LANGUAGE_CODE_MAP[result.alpha2?.toLowerCase() || '']] *)
Definition langCodeOf (alpha2 : Alpha2) : M (option SupportedLanguage) :=
  match alpha2 with
  | Alpha2Absent => ret (lookup_code LANGUAGE_CODE_MAP EmptyString)
  | Alpha2String tag => ret (lookup_code LANGUAGE_CODE_MAP (toLowerCase tag))
  | Alpha2Other => throw
  end.

(** Lines 134-178 *)
Definition detectWithFastText (text : jsstring)
  : M (option DetectionResult) :=
  available <- checkFastTextAvailability;;
  if negb available then ret None
  else
    try_catch
      (model <- initFastText;;
       match model with
       | None => ret None
       | Some m =>
           result <- identify m text;;
           let confidence :=
             match fst result with Some score => score | None => 0 end in
           if Qgtb confidence 0.85 then
             langCode <- langCodeOf (snd result);;
             match langCode with
             | Some lang =>
                 if existsb (SupportedLanguage_eqb lang) SUPPORTED then
                   ret (Some {| language := lang;
                                confidence := confidence;
                                method := fasttext;
                                reasoning := ReasonFastText confidence |})
                 else ret None
             | None => ret None
             end
           else ret None
       end)
      (modify (set_fastTextAvailable (Some false));;
       ret None).

(** Lines 319-338 *)
Definition detectWithLLM (text : jsstring) : M DetectionResult :=
  try_catch
    (lang <- detectTextLanguageWithAI text;;
     ret {| language := api_language lang; confidence := 0.85;
            method := llm; reasoning := ReasonLLM |})
    (ret {| language := en; confidence := 0.5; method := fallback;
            reasoning := ReasonLLMFailed |}).

(** [o && o.confidence > t ? o : null]: the result that passes the guard
    of a stage *)
Definition confident (o : option DetectionResult) (t : Q)
  : option DetectionResult :=
  if above o t then o else None.

(** Lines 359-411 *)
Definition hybridLanguageDetect (text : jsstring) : M DetectionResult :=
  if isBlank text then
    ret {| language := en; confidence := 0.5; method := fallback;
           reasoning := ReasonEmptyText |}
  else
    fastTextResult <- detectWithFastText text;;
    match confident fastTextResult 0.85 with
    | Some r => ret r
    | None =>
        let charScanResult := detectWithCharScan text in
        match confident charScanResult 0.75 with
        | Some r => ret r
        | None =>
            let localConfidence :=
              calculateLocalConfidence text charScanResult in
            if Qltb localConfidence 0.7 then
              llmResult <- detectWithLLM text;;
              ret llmResult
            else
              match charScanResult with
              | Some r => ret r
              | None =>
                  match fastTextResult with
                  | Some r => ret r
                  | None =>
                      ret {| language := en; confidence := 0.5;
                             method := fallback;
                             reasoning := ReasonAllFailed |}
                  end
              end
        end
    end.

(** The seven [return] statements of hybridLanguageDetect, by line *)
Inductive ReturnSite :=
  | AtEmptyGuard        (* line 362 *)
  | AtStageS            (* line 374 *)
  | AtStageH            (* line 381 *)
  | AtStageR            (* line 391 *)
  | AtCharScanFallback  (* line 396 *)
  | AtFastTextFallback  (* line 401 *)
  | AtDefault.          (* line 405 *)

(** hybridLanguageDetect again, each [return] tagged with its statement.
    [hybridLanguageDetect_erase] shows that dropping the tag gives back
    hybridLanguageDetect. *)
Definition hybridLanguageDetect_site (text : jsstring)
  : M (ReturnSite * DetectionResult) :=
  if isBlank text then
    ret (AtEmptyGuard,
         {| language := en; confidence := 0.5; method := fallback;
            reasoning := ReasonEmptyText |})
  else
    fastTextResult <- detectWithFastText text;;
    match confident fastTextResult 0.85 with
    | Some r => ret (AtStageS, r)
    | None =>
        let charScanResult := detectWithCharScan text in
        match confident charScanResult 0.75 with
        | Some r => ret (AtStageH, r)
        | None =>
            let localConfidence :=
              calculateLocalConfidence text charScanResult in
            if Qltb localConfidence 0.7 then
              llmResult <- detectWithLLM text;;
              ret (AtStageR, llmResult)
            else
              match charScanResult with
              | Some r => ret (AtCharScanFallback, r)
              | None =>
                  match fastTextResult with
                  | Some r => ret (AtFastTextFallback, r)
                  | None =>
                      ret (AtDefault,
                           {| language := en; confidence := 0.5;
                              method := fallback;
                              reasoning := ReasonAllFailed |})
                  end
              end
        end
    end.

(** Calls of hybridLanguageDetect made one after the other, each awaited
    before the next: the state they leave. *)
Fixpoint run_calls (texts : list jsstring) (w : World) : World :=
  match texts with
  | [] => w
  | text :: rest => run_calls rest (snd (hybridLanguageDetect text w))
  end.

End Engine.

(** The texts of the examples, as code units *)
Definition text_in : jsstring := [0x69; 0x6E]%Z.

(** The Spanish question of the examples: inverted question mark, C, o
    with acute, m, o, space, e, s, t, a with acute, s, question mark *)
Definition text_como_estas : jsstring :=
  [0xBF; 0x43; 0xF3; 0x6D; 0x6F; 0x20; 0x65; 0x73; 0x74; 0xE1; 0x73; 0x3F]%Z.

(** Hiragana A *)
Definition text_kana : jsstring := [0x3042]%Z.

(** The ideograph for middle *)
Definition text_han : jsstring := [0x4E2D]%Z.

(** Providers without the subword package: every import rejects, and the
    remote model answers English. *)
Definition providers_absent : Providers :=
  {| import_outcome := fun _ => ImportRejects;
     getLIDModel_outcome := fun _ => false;
     load_outcome := fun _ _ => false;
     identify_outcome := fun _ _ _ => IdentifyRejects;
     llm_outcome := fun _ _ => Some api_en |}.

(** Providers whose subword model loads and always answers the tag [tag]
    with the score [score]; the remote model rejects. *)
Definition providers_answering (tag : string) (score : Q) : Providers :=
  {| import_outcome := fun _ => ImportResolves true;
     getLIDModel_outcome := fun _ => true;
     load_outcome := fun _ _ => true;
     identify_outcome :=
       fun _ _ _ => IdentifyResult (Some score) (Alpha2String tag);
     llm_outcome := fun _ _ => None |}.

(** Providers whose package imports but whose model never loads. *)
Definition providers_load_fails : Providers :=
  {| import_outcome := fun _ => ImportResolves true;
     getLIDModel_outcome := fun _ => true;
     load_outcome := fun _ _ => false;
     identify_outcome := fun _ _ _ => IdentifyRejects;
     llm_outcome := fun _ _ => None |}.

(** *** States and providers used in the further facts *)

(** The adapter between two calls: nothing is being loaded; before the
    first probe nothing has been imported or loaded; an adapter marked
    available holds its model; and over the whole process the package
    has been imported at most twice and the model obtained and loaded at
    most once. *)
Definition adapter_settled (w : World) : Prop :=
  fastTextLoading w = false
  /\ (n_import w <= 2)%nat /\ (n_getLIDModel w <= 1)%nat
  /\ (n_load w <= 1)%nat
  /\ (fastTextAvailable w = None ->
      n_import w = 0%nat /\ n_getLIDModel w = 0%nat /\ n_load w = 0%nat
      /\ fastTextModel w = None)
  /\ (fastTextAvailable w = Some true ->
      (exists m, fastTextModel w = Some m) /\ (1 <= n_load w)%nat
      /\ n_import w = 2%nat).

(** The answers of [identify] on which the [try] block of
    detectWithFastText throws: a rejection, a nullish value, and a score
    above 0.85 with an [alpha2] that has no [toLowerCase]. *)
Definition identify_throws (outcome : IdentifyOutcome) : bool :=
  match outcome with
  | IdentifyRejects | IdentifyNullish => true
  | IdentifyResult score Alpha2Other =>
      Qgtb match score with Some s => s | None => 0 end 0.85
  | IdentifyResult _ _ => false
  end.

(** Providers whose subword model loads but whose [identify] rejects;
    the remote model answers German. *)
Definition providers_identify_rejects : Providers :=
  {| import_outcome := fun _ => ImportResolves true;
     getLIDModel_outcome := fun _ => true;
     load_outcome := fun _ _ => true;
     identify_outcome := fun _ _ _ => IdentifyRejects;
     llm_outcome := fun _ _ => Some api_de |}.

(** A state in which the adapter is marked available and holds the model
    of the first call of getLIDModel. *)
Definition world_loaded : World :=
  {| fastTextModel := Some 0%nat; fastTextLoading := false;
     fastTextLoadPromise := Some (Some 0%nat);
     fastTextAvailable := Some true;
     n_import := 2; n_getLIDModel := 1; n_load := 1; n_identify := 0;
     n_llm := 0 |}.

(** The German word for luck: G, l, u with diaeresis, c, k *)
Definition text_glueck : jsstring := [0x47; 0x6C; 0xFC; 0x63; 0x6B]%Z.

(** Two Cyrillic letters *)
Definition text_cyrillic : jsstring := [0x434; 0x430]%Z.

(** The German article and a Cyrillic word: d, e, r, space and three
    Cyrillic letters *)
Definition text_der_dom : jsstring :=
  [0x64; 0x65; 0x72; 0x20; 0x434; 0x43E; 0x43C]%Z.

(** ** The word tests of services/qwenApi.ts and of tts.ts

    The two files hold the same four regular expressions, of the form
    \b(word|word|...)\b with the flag i and without the flag g. *)

Module WordLists.

(** The code units of a word written in this file, which is encoded in
    UTF-8: a byte below 0x80 is its own code unit, and a two-byte
    sequence stands for a code unit below 0x800. The words of the lists
    need no longer sequence. *)
Fixpoint utf16 (s : string) : jsstring :=
  match s with
  | EmptyString => []
  | String a s' =>
      let n := Z.of_nat (nat_of_ascii a) in
      if (n <? 0x80)%Z then n :: utf16 s'
      else
        match s' with
        | String b s'' =>
            Z.lor (Z.shiftl (Z.land n 0x1F) 6)
                  (Z.land (Z.of_nat (nat_of_ascii b)) 0x3F)
            :: utf16 s''
        | EmptyString => [n]
        end
  end.

(** The class \w, which decides \b: ASCII letters, digits and the
    underscore. Accented letters are not in it. *)
Definition isWordChar (c : Z) : bool :=
  in_range 0x61 0x7A c || in_range 0x41 0x5A c || in_range 0x30 0x39 c
  || (c =? 0x5F)%Z.

Definition isWordCharAt (c : option Z) : bool :=
  match c with
  | Some x => isWordChar x
  | None => false
  end.

(** \b between two neighbours ([None] outside the string) *)
Definition boundary (prev next : option Z) : bool :=
  xorb (isWordCharAt prev) (isWordCharAt next).

(** A character [p] of a pattern, all of which are lower-case in the
    lists, against a code unit [c] of the input under the flag i: the two
    match when they have the same upper-case form. For an ASCII letter
    and for a Latin-1 letter from a with grave to thorn that form is 32
    below; sharp s, whose upper-case form is two letters, and every other
    character of the lists match themselves only. *)
Definition matchesChar (p c : Z) : bool :=
  (c =? p)%Z
  || ((in_range 0x61 0x7A p
       || (in_range 0xE0 0xFE p && negb (p =? 0xF7)%Z))
      && (c =? p - 0x20)%Z).

(** The word [w] read at the head of [s]: the last code unit read and the
    rest of [s], when every character matches. *)
Fixpoint matchWord (w s : jsstring) (last : option Z)
  : option (option Z * jsstring) :=
  match w with
  | [] => Some (last, s)
  | p :: w' =>
      match s with
      | [] => None
      | c :: s' =>
          if matchesChar p c then matchWord w' s' (Some c) else None
      end
  end.

(** One of the words stands at the head of [s], between two \b. *)
Definition wordHere (words : list jsstring) (prev : option Z) (s : jsstring)
  : bool :=
  boundary prev (hd_error s)
  && existsb
       (fun w =>
          match matchWord w s None with
          | Some (last, rest) => boundary last (hd_error rest)
          | None => false
          end)
       words.

Fixpoint testFrom (words : list jsstring) (prev : option Z) (s : jsstring)
  : bool :=
  wordHere words prev s
  || match s with
     | [] => false
     | c :: s' => testFrom words (Some c) s'
     end.

(** [/\b(words)\b/i.test(s)] *)
Definition testWords (words : list jsstring) (s : jsstring) : bool :=
  testFrom words None s.

(** The alternatives of [englishWords], in the order of the source *)
Definition ENGLISH_WORDS : list jsstring :=
  map utf16
    ["the"; "a"; "an"; "and"; "or"; "but"; "in"; "on"; "at"; "to"; "for";
     "of"; "with"; "by"; "from"; "as"; "is"; "are"; "was"; "were"; "be";
     "been"; "being"; "have"; "has"; "had"; "do"; "does"; "did"; "will";
     "would"; "should"; "could"; "can"; "may"; "might"; "must"; "shall";
     "this"; "that"; "these"; "those"; "i"; "you"; "he"; "she"; "it"; "we";
     "they"; "me"; "him"; "her"; "us"; "them"; "my"; "your"; "his"; "her";
     "its"; "our"; "their"; "what"; "which"; "who"; "whom"; "whose"; "where";
     "when"; "why"; "how"; "all"; "some"; "any"; "many"; "much"; "more";
     "most"; "few"; "little"; "less"; "least"; "good"; "bad"; "big"; "small";
     "large"; "long"; "short"; "high"; "low"; "new"; "old"; "young"; "right";
     "wrong"; "true"; "false"; "yes"; "no"; "not"; "very"; "too"; "so";
     "also"; "just"; "only"; "even"; "still"; "yet"; "already"; "here";
     "there"; "now"; "then"; "today"; "tomorrow"; "yesterday"; "always";
     "never"; "often"; "sometimes"; "usually"; "well"; "better"; "best";
     "worse"; "worst"; "much"; "more"; "most"; "very"; "quite"; "really";
     "too"; "so"; "such"; "how"; "what"; "which"; "who"; "where"; "when";
     "why"; "how"; "about"; "above"; "across"; "after"; "against"; "along";
     "among"; "around"; "before"; "behind"; "below"; "beneath"; "beside";
     "between"; "beyond"; "during"; "except"; "inside"; "outside"; "through";
     "throughout"; "under"; "underneath"; "until"; "upon"; "within";
     "without"]%string.

Definition englishWords (s : jsstring) : bool := testWords ENGLISH_WORDS s.

(** The alternatives of [frenchWords], in the order of the source *)
Definition FRENCH_WORDS : list jsstring :=
  map utf16
    ["le"; "la"; "les"; "un"; "une"; "des"; "et"; "ou"; "dans"; "sur";
     "avec"; "pour"; "par"; "de"; "du"; "de la"; "est"; "sont"; "être";
     "avoir"; "faire"; "aller"; "venir"; "voir"; "savoir"; "pouvoir";
     "vouloir"; "devoir"; "falloir"; "il"; "elle"; "nous"; "vous"; "ils";
     "elles"; "ce"; "ça"; "qui"; "que"; "quoi"; "où"; "comment"; "pourquoi";
     "quand"; "combien"; "oui"; "non"; "merci"; "bonjour"; "au revoir";
     "s'il vous plaît"; "excusez-moi"; "je"; "tu"; "mon"; "ma"; "mes"; "ton";
     "ta"; "tes"; "son"; "sa"; "ses"; "notre"; "votre"; "leur"; "leurs";
     "cette"; "ces"; "tout"; "toute"; "tous"; "toutes"; "très"; "plus";
     "moins"; "aussi"; "encore"; "déjà"; "toujours"; "jamais"; "maintenant";
     "aujourd'hui"; "demain"; "hier"; "ici"; "là"; "où"; "comment";
     "pourquoi"; "combien"; "beaucoup"; "peu"; "assez"; "trop"; "très";
     "bien"; "mal"; "bon"; "mauvais"; "grand"; "petit"; "nouveau"; "vieux";
     "jeune"; "vieille"; "beau"; "belle"; "joli"; "jolie"]%string.

Definition frenchWords (s : jsstring) : bool := testWords FRENCH_WORDS s.

(** The alternatives of [germanWords], in the order of the source *)
Definition GERMAN_WORDS : list jsstring :=
  map utf16
    ["der"; "die"; "das"; "haben"; "sein"; "werden"; "können"; "müssen";
     "sollten"; "wenn"; "aber"; "oder"; "durch"; "gegen"; "ohne"; "um";
     "seit"; "während"; "wegen"; "trotz"; "statt"; "außer"; "innerhalb";
     "außerhalb"; "dank"; "gemäß"; "entsprechend"; "zufolge"; "anlässlich";
     "hinsichtlich"; "bezüglich"; "betreffs"; "einschließlich"; "exklusive";
     "inklusive"; "kontra"; "bis"; "ich"; "du"; "er"; "sie"; "es"; "wir";
     "ihr"; "mein"; "dein"; "sein"; "ihr"; "unser"; "euer"; "dieser";
     "jener"; "welcher"; "alle"; "manche"; "viele"; "wenige"; "einige";
     "keine"; "nicht"; "auch"; "noch"; "schon"; "immer"; "nie"; "jetzt";
     "heute"; "morgen"; "gestern"; "hier"; "dort"; "wo"; "wie"; "warum";
     "wann"; "was"; "wer"; "welche"; "welcher"; "welches"; "groß"; "klein";
     "neu"; "alt"; "jung"; "schön"; "hässlich"; "gut"; "schlecht"; "viel";
     "wenig"; "mehr"; "weniger"; "sehr"; "genug"; "nicht genug"; "über";
     "unter"; "vor"; "nach"; "bei"]%string.

Definition germanWords (s : jsstring) : bool := testWords GERMAN_WORDS s.

(** The alternatives of [spanishWords], in the order of the source *)
Definition SPANISH_WORDS : list jsstring :=
  map utf16
    ["el"; "la"; "los"; "las"; "un"; "una"; "ser"; "estar"; "tener"; "hacer";
     "venir"; "saber"; "poder"; "querer"; "deber"; "yo"; "tú"; "él"; "ella";
     "nosotros"; "vosotros"; "ellos"; "ellas"; "este"; "ese"; "aquel";
     "esta"; "esa"; "aquella"; "estos"; "esos"; "aquellos"; "estas"; "esas";
     "aquellas"; "nuestro"; "vuestro"; "mío"; "tuyo"; "suyo"; "muy"; "más";
     "menos"; "también"; "tampoco"; "siempre"; "nunca"; "ahora"; "hoy";
     "mañana"; "ayer"; "aquí"; "allí"; "dónde"; "cómo"; "por qué"; "cuándo";
     "cuánto"; "qué"; "quién"; "cuál"; "mucho"; "poco"; "bastante";
     "demasiado"; "bueno"; "malo"; "grande"; "pequeño"; "nuevo"; "viejo";
     "joven"; "hermoso"; "feo"; "gracias"; "por favor"; "de nada"; "hola";
     "adiós"; "perdón"; "lo siento"; "sí"]%string.

Definition spanishWords (s : jsstring) : bool := testWords SPANISH_WORDS s.

End WordLists.

(** ** detectTextLanguage of services/qwenApi.ts and detectLanguage of
       tts.ts

    Both functions lower-case the text with [String.prototype.toLowerCase]
    before the word tests. The Unicode tables behind it are not part of
    the repository: it is the parameter [lowerCase] below, and every fact
    proved holds whatever it is. *)

Module RuleBased.

Import WordLists.

(** The class of [spanishCharCount]: n with tilde, the five acute vowels,
    u with diaeresis, the two inverted marks, and the capitals *)
Definition pat_spanishChars (c : Z) : bool :=
  one_of [0xF1; 0xE1; 0xE9; 0xED; 0xF3; 0xFA; 0xFC; 0xBF; 0xA1;
          0xD1; 0xC1; 0xC9; 0xCD; 0xD3; 0xDA; 0xDC]%Z c.

(** The class of the test of line 637 of qwenApi.ts and 439 of tts.ts:
    lower-case n with tilde and the two inverted marks *)
Definition pat_spanishMarks (c : Z) : bool := one_of [0xF1; 0xBF; 0xA1]%Z c.

(** [(s.match(re) || []).length] for a regular expression with one group
    and without the flag g: the match array holds the match and the
    group. *)
Definition matchLength (found : bool) : Z := (if found then 2 else 0)%Z.

Section Sorting.

Context {L : Type}.

(** [x] put before the first entry whose count is not larger: an entry
    keeps its place among entries of the same count. *)
Fixpoint insertDesc (x : L * Z) (l : list (L * Z)) : list (L * Z) :=
  match l with
  | [] => [x]
  | y :: l' =>
      if (snd y <=? snd x)%Z then x :: l else y :: insertDesc x l'
  end.

(** [charCounts.sort((a, b) => b.count - a.count)]: descending by count,
    stable *)
Fixpoint sortDesc (l : list (L * Z)) : list (L * Z) :=
  match l with
  | [] => []
  | x :: l' => insertDesc x (sortDesc l')
  end.

(** [.filter(item => item.count > 0)] *)
Definition positive (l : list (L * Z)) : list (L * Z) :=
  filter (fun item => (0 <? snd item)%Z) l.

End Sorting.

Section WithLowerCase.

Variable lowerCase : jsstring -> jsstring.

(** Lines 572-737 of services/qwenApi.ts *)
Definition detectTextLanguage (text : jsstring) : ApiLanguage :=
  if test_class pat_japanese text then api_ja
  else if test_class pat_chinese text then api_en
  else
    let lowerText := lowerCase text in
    let frenchCharCount := count_matches pat_french text in
    let germanCharCount := count_matches pat_german text in
    let spanishCharCount := count_matches pat_spanishChars text in
    let charCounts :=
      positive [(api_fr, frenchCharCount); (api_de, germanCharCount);
                (api_es, spanishCharCount)] in
    let en := englishWords lowerText in
    let fr := frenchWords lowerText in
    let de := germanWords lowerText in
    let es := spanishWords lowerText in
    (* lines 615-629; the array stays sorted afterwards *)
    let charCounts1 :=
      if (1 <? List.length charCounts)%nat then sortDesc charCounts
      else charCounts in
    match
      match charCounts1 with
      | first :: second :: _ =>
          if (snd second <? snd first)%Z then Some (fst first)
          else
            match fst first with
            | api_fr => if fr && negb de && negb es && negb en
                        then Some api_fr else None
            | api_de => if de && negb fr && negb es && negb en
                        then Some api_de else None
            | api_es => if es && negb fr && negb de && negb en
                        then Some api_es else None
            | _ => None
            end
      | _ => None
      end
    with
    | Some lang => lang
    | None =>
    (* lines 634-658 *)
    if (0 <? spanishCharCount)%Z && test_class pat_spanishMarks text
    then api_es
    else if (0 <? spanishCharCount)%Z && es && negb en then api_es
    else if (0 <? frenchCharCount)%Z && fr && negb en then api_fr
    else if (0 <? germanCharCount)%Z && de && negb en then api_de
    else
      let englishWordCount := matchLength en in
      let germanWordCount := matchLength de in
      let frenchWordCount := matchLength fr in
      let spanishWordCount := matchLength es in
      (* lines 680-702 *)
      match sortDesc charCounts1 with
      | first :: rest =>
          if Nat.eqb (List.length (first :: rest)) 1
             || match rest with
                | second :: _ => (snd second * 2 <? snd first)%Z
                | [] => false
                end
          then fst first
          else
            match fst first with
            | api_de =>
                if (0 <? germanWordCount)%Z
                   && (englishWordCount <=? germanWordCount)%Z
                then api_de else fst first
            | api_fr =>
                if (0 <? frenchWordCount)%Z
                   && (englishWordCount <=? frenchWordCount)%Z
                then api_fr else fst first
            | api_es =>
                if (0 <? spanishWordCount)%Z
                   && (englishWordCount <=? spanishWordCount)%Z
                then api_es else fst first
            | _ => fst first
            end
      | [] =>
          (* lines 706-735 *)
          if (3 <=? englishWordCount)%Z
             && (Z.max (Z.max spanishWordCount frenchWordCount)
                   germanWordCount * 2 <? englishWordCount)%Z
          then api_en
          else if (2 <=? germanWordCount)%Z
                  && (englishWordCount <? germanWordCount)%Z
          then api_de
          else if (2 <=? frenchWordCount)%Z
                  && (englishWordCount <? frenchWordCount)%Z
          then api_fr
          else if (2 <=? spanishWordCount)%Z
                  && (englishWordCount <? spanishWordCount)%Z
          then api_es
          else if (0 <? englishWordCount)%Z && (germanWordCount =? 0)%Z
                  && (frenchWordCount =? 0)%Z && (spanishWordCount =? 0)%Z
          then api_en
          else api_en
      end
    end.

(** What the exchange with the remote model gives
    detectTextLanguageWithAI: it fails (the request rejects, the status
    is not ok, the body is not JSON or has no readable content), or one
    of the two readings of the content finds a supported code, or neither
    does. *)
Inductive RemoteReply :=
  | ReplyFails
  | ReplyLanguage (lang : ApiLanguage)
  | ReplyUnreadable.

(** Lines 417-480 of services/qwenApi.ts, given the reply *)
Definition detectTextLanguageWithAI (reply : RemoteReply) (text : jsstring)
  : ApiLanguage :=
  match reply with
  | ReplyLanguage lang => lang
  | ReplyUnreadable => api_en
  | ReplyFails => detectTextLanguage text
  end.

(** The providers [base] with detectTextLanguageWithAI of qwenApi.ts as
    the remote stage, the [n]-th exchange giving [reply n text]. *)
Definition providers_with_qwen (base : Providers)
    (reply : nat -> jsstring -> RemoteReply) : Providers :=
  {| import_outcome := import_outcome base;
     getLIDModel_outcome := getLIDModel_outcome base;
     load_outcome := load_outcome base;
     identify_outcome := identify_outcome base;
     llm_outcome :=
       fun n text => Some (detectTextLanguageWithAI (reply n text) text) |}.

(** Lines 359-540 of tts.ts *)
Definition detectLanguage (text : jsstring) : SupportedLanguage :=
  match languageFilter text with
  | Some quickResult => quickResult
  | None =>
  if test_class pat_japanese text then ja
  else if test_class pat_chinese text then zh
  else
    let lowerText := lowerCase text in
    let frenchCharCount := count_matches pat_french text in
    let germanCharCount := count_matches pat_german text in
    let spanishCharCount := count_matches pat_spanishChars text in
    let fr := frenchWords lowerText in
    let de := germanWords lowerText in
    let en := englishWords lowerText in
    let es := spanishWords lowerText in
    let charCounts :=
      positive [(LanguageFilter.fr, frenchCharCount);
                (LanguageFilter.de, germanCharCount);
                (LanguageFilter.es, spanishCharCount)] in
    let charCounts1 :=
      if (1 <? List.length charCounts)%nat then sortDesc charCounts
      else charCounts in
    match
      match charCounts1 with
      | first :: second :: _ =>
          if (snd second <? snd first)%Z then Some (fst first)
          else
            match fst first with
            | LanguageFilter.fr =>
                if fr && negb de && negb es
                then Some LanguageFilter.fr else None
            | LanguageFilter.de =>
                if de && negb fr && negb es
                then Some LanguageFilter.de else None
            | LanguageFilter.es =>
                if es && negb fr && negb de
                then Some LanguageFilter.es else None
            | _ => None
            end
      | _ => None
      end
    with
    | Some lang => lang
    | None =>
    if (0 <? spanishCharCount)%Z && test_class pat_spanishMarks text
    then LanguageFilter.es
    else if (0 <? spanishCharCount)%Z && es && negb en
    then LanguageFilter.es
    else if (0 <? frenchCharCount)%Z && fr && negb en
    then LanguageFilter.fr
    else if (0 <? germanCharCount)%Z && de && negb en
    then LanguageFilter.de
    else
      let englishWordCount := matchLength en in
      let germanWordCount := matchLength de in
      let frenchWordCount := matchLength fr in
      let spanishWordCount := matchLength es in
      match sortDesc charCounts1 with
      | first :: rest =>
          if Nat.eqb (List.length (first :: rest)) 1
             || match rest with
                | second :: _ => (snd second * 2 <? snd first)%Z
                | [] => false
                end
          then fst first
          else
            match fst first with
            | LanguageFilter.de =>
                if (0 <? germanWordCount)%Z
                   && (englishWordCount <=? germanWordCount)%Z
                then LanguageFilter.de else fst first
            | LanguageFilter.fr =>
                if (0 <? frenchWordCount)%Z
                   && (englishWordCount <=? frenchWordCount)%Z
                then LanguageFilter.fr else fst first
            | LanguageFilter.es =>
                if (0 <? spanishWordCount)%Z
                   && (englishWordCount <=? spanishWordCount)%Z
                then LanguageFilter.es else fst first
            | _ => fst first
            end
      | [] =>
          if (3 <=? englishWordCount)%Z
             && (Z.max (Z.max spanishWordCount frenchWordCount)
                   germanWordCount * 2 <? englishWordCount)%Z
          then LanguageFilter.en
          else if (2 <=? germanWordCount)%Z
                  && (englishWordCount <? germanWordCount)%Z
          then LanguageFilter.de
          else if (2 <=? frenchWordCount)%Z
                  && (englishWordCount <? frenchWordCount)%Z
          then LanguageFilter.fr
          else if (2 <=? spanishWordCount)%Z
                  && (englishWordCount <? spanishWordCount)%Z
          then LanguageFilter.es
          else if (0 <? englishWordCount)%Z && (germanWordCount =? 0)%Z
                  && (frenchWordCount =? 0)%Z && (spanishWordCount =? 0)%Z
          then LanguageFilter.en
          else LanguageFilter.en
      end
    end
  end.

End WithLowerCase.

(** [toLowerCase] on texts of Basic Latin and Latin-1 letters: the
    capitals A to Z and A with grave to thorn (the multiplication sign
    apart) move up by 32. Used to run the functions on examples. *)
Definition lowerLatin1 (s : jsstring) : jsstring :=
  map (fun c =>
         if in_range 0x41 0x5A c
            || (in_range 0xC0 0xDE c && negb (c =? 0xD7)%Z)
         then (c + 0x20)%Z else c) s.

End RuleBased.

(** ** Facts about strings, counts and rationals *)

Lemma Qgtb_lt (a b : Q) : Qgtb a b = true <-> b < a.
Proof.
  unfold Qgtb, Qltb. rewrite negb_true_iff. split.
  - intros H. apply Qnot_le_lt. intros Hle.
    apply Qle_bool_iff in Hle. congruence.
  - intros H. apply not_true_iff_false. intros Hle.
    apply Qle_bool_iff in Hle. apply (Qlt_not_le _ _ H Hle).
Qed.

Lemma Qltb_lt (a b : Q) : Qltb a b = true <-> a < b.
Proof. apply (Qgtb_lt b a). Qed.

Lemma Qgtb_le (a b : Q) : Qgtb a b = false <-> a <= b.
Proof.
  split; intros H.
  - apply Qnot_lt_le. intros Hlt. apply Qgtb_lt in Hlt. congruence.
  - apply not_true_iff_false. intros Hgt. apply Qgtb_lt in Hgt.
    apply (Qlt_not_le _ _ Hgt H).
Qed.

Lemma count_matches_nonneg p s : (0 <= count_matches p s)%Z.
Proof. unfold count_matches. lia. Qed.

Lemma count_matches_le_length p s :
  (count_matches p s <= Z.of_nat (List.length s))%Z.
Proof.
  unfold count_matches. apply inj_le. induction s as [|c s IH]; simpl.
  - lia.
  - destruct (p c); simpl; lia.
Qed.

Lemma count_matches_pos p s :
  (0 <? count_matches p s)%Z = existsb p s.
Proof.
  unfold count_matches. induction s as [|c s IH]; simpl.
  - reflexivity.
  - destruct (p c); simpl.
    + apply Z.ltb_lt. lia.
    + exact IH.
Qed.

Lemma ratio_bounds (a b : Z) :
  (0 <= a <= b)%Z -> (0 < b)%Z -> 0 <= ratio a b /\ ratio a b <= 1.
Proof.
  intros [Ha Hab] Hb. unfold ratio.
  assert (HbQ : 0 < inject_Z b) by (rewrite (Zlt_Qlt 0 b) in Hb; exact Hb).
  split.
  - apply Qle_shift_div_l; [exact HbQ|]. rewrite Qmult_0_l.
    rewrite (Zle_Qle 0 a) in Ha. exact Ha.
  - apply Qle_shift_div_r; [exact HbQ|]. rewrite Qmult_1_l.
    rewrite (Zle_Qle a b) in Hab. exact Hab.
Qed.

(** The share of a class among the code units of a text that has one. *)
Lemma class_ratio_bounds p text :
  existsb p text = true ->
  let r := ratio (count_matches p text) (Z.of_nat (List.length text)) in
  0 <= r /\ r <= 1.
Proof.
  intros H. apply ratio_bounds.
  - split; [apply count_matches_nonneg | apply count_matches_le_length].
  - rewrite <- count_matches_pos in H. apply Z.ltb_lt in H.
    pose proof (count_matches_le_length p text). lia.
Qed.

Lemma Qmin_affine_bounds (cap base slope r : Q) :
  base <= cap -> 0 <= slope -> 0 <= r ->
  base <= Qmin cap (base + r * slope) /\ Qmin cap (base + r * slope) <= cap.
Proof.
  intros Hcap Hs Hr.
  assert (0 <= r * slope) by (apply Qmult_le_0_compat; assumption).
  set (x := r * slope) in *.
  destruct (Q.min_spec cap (base + x)) as [[L E]|[L E]];
    rewrite E; split; lra.
Qed.

Lemma existsb_trimStart (p : Z -> bool) s :
  (forall c, p c = true -> isWhitespace c = false) ->
  existsb p (trimStart s) = existsb p s.
Proof.
  intros Hp. induction s as [|c s IH]; simpl; [reflexivity|].
  destruct (isWhitespace c) eqn:E; simpl; [|reflexivity].
  destruct (p c) eqn:Ep; simpl; [|exact IH].
  apply Hp in Ep. congruence.
Qed.

Lemma existsb_rev_eq (p : Z -> bool) s : existsb p (rev s) = existsb p s.
Proof.
  induction s as [|c s IH]; simpl; [reflexivity|].
  rewrite existsb_app, IH. simpl. rewrite orb_false_r. apply orb_comm.
Qed.

Lemma existsb_trim (p : Z -> bool) s :
  (forall c, p c = true -> isWhitespace c = false) ->
  existsb p (trim s) = existsb p s.
Proof.
  intros Hp. unfold trim.
  rewrite existsb_rev_eq, (existsb_trimStart p _ Hp), existsb_rev_eq.
  apply (existsb_trimStart p _ Hp).
Qed.

(** A text with a character that is not whitespace passes the empty-input
    guard. *)
Lemma isBlank_false (p : Z -> bool) text :
  (forall c, p c = true -> isWhitespace c = false) ->
  existsb p text = true -> isBlank text = false.
Proof.
  intros Hp H. unfold isBlank.
  pose proof (existsb_trim p text Hp) as Ht. rewrite H in Ht.
  destruct text as [|c s]; [discriminate|].
  destruct (trim (c :: s)); [discriminate|reflexivity].
Qed.

Lemma trimStart_whitespace s :
  forallb isWhitespace s = true -> trimStart s = [].
Proof.
  induction s as [|c s IH]; simpl; [reflexivity|].
  intros H. apply andb_true_iff in H. destruct H as [Hc Hs].
  rewrite Hc. apply IH, Hs.
Qed.

Lemma isBlank_whitespace text :
  forallb isWhitespace text = true -> isBlank text = true.
Proof.
  intros H. unfold isBlank, trim.
  rewrite (trimStart_whitespace _ H). simpl. apply orb_true_r.
Qed.

Ltac bool_to_prop :=
  repeat (rewrite ?orb_true_iff, ?andb_true_iff, ?Z.leb_le, ?Z.eqb_eq in * ).

Lemma kana_not_whitespace c : pat_japanese c = true -> isWhitespace c = false.
Proof.
  unfold pat_japanese, isWhitespace, in_range, one_of. simpl.
  intros H. apply not_true_iff_false. intros W. bool_to_prop. lia.
Qed.

Lemma han_not_whitespace c : pat_chinese c = true -> isWhitespace c = false.
Proof.
  unfold pat_chinese, isWhitespace, in_range, one_of. simpl.
  intros H. apply not_true_iff_false. intros W. bool_to_prop. lia.
Qed.

(** ** Stage H: the character scan *)

(** The string functions and the scan on the texts of the documentation *)
Example split_ws_leading_run :
  split_ws [0x20; 0x09; 0x61; 0x20; 0x62]%Z = [[]; [0x61]; [0x62]]%Z.
Proof. reflexivity. Qed.

Example split_ws_empty_string : split_ws [] = [[]].
Proof. reflexivity. Qed.

Example trim_both_ends :
  trim [0x20; 0x61; 0x20; 0x62; 0x0A]%Z = [0x61; 0x20; 0x62]%Z.
Proof. reflexivity. Qed.

(** Hello world *)
Example detectWithCharScan_hello_world :
  detectWithCharScan
    [0x48; 0x65; 0x6C; 0x6C; 0x6F; 0x20; 0x77; 0x6F; 0x72; 0x6C; 0x64]%Z
  = Some {| language := en; confidence := 0.8; method := charscan;
            reasoning := ReasonFilter en 0.8 |}.
Proof. vm_compute. reflexivity. Qed.

(** Der Mann ist gross, written with the sharp s: one German letter among
    seventeen code units *)
Example detectWithCharScan_der_mann :
  detectWithCharScan
    [0x44; 0x65; 0x72; 0x20; 0x4D; 0x61; 0x6E; 0x6E; 0x20; 0x69; 0x73; 0x74;
     0x20; 0x67; 0x72; 0x6F; 0xDF]%Z
  = Some {| language := de; confidence := 0.75 + ratio 1 17 * 0.2;
            method := charscan;
            reasoning := ReasonFilter de (0.75 + ratio 1 17 * 0.2) |}.
Proof. vm_compute. reflexivity. Qed.

(** Two Cyrillic letters: the scan abstains and the estimate is 0.3 *)
Example detectWithCharScan_cyrillic :
  detectWithCharScan [0x434; 0x430]%Z = None
  /\ calculateLocalConfidence [0x434; 0x430]%Z None = 0.3.
Proof. split; vm_compute; reflexivity. Qed.

Lemma pos_one_leb (n : Z) : (0 <? n)%Z = true -> (1 <=? n)%Z = true.
Proof. intros H. apply Z.ltb_lt in H. apply Z.leb_le. lia. Qed.

Lemma scanKana_present text :
  existsb pat_japanese text = true ->
  exists r, scanKana (getCharStats text) = Some r
            /\ language r = ja /\ method r = charscan
            /\ 0.8 <= confidence r /\ confidence r <= 0.98.
Proof.
  intros H. unfold scanKana, getCharStats, scanCharacters. simpl.
  pose proof (count_matches_pos pat_japanese text) as Hc.
  rewrite H in Hc. rewrite Hc, (pos_one_leb _ Hc), orb_true_r.
  eexists. split; [reflexivity|]. simpl.
  destruct (class_ratio_bounds pat_japanese text H) as [H0 _].
  repeat split; apply Qmin_affine_bounds; (lra || exact H0).
Qed.

Lemma scanKana_absent text :
  existsb pat_japanese text = false -> scanKana (getCharStats text) = None.
Proof.
  intros H. unfold scanKana, getCharStats, scanCharacters. simpl.
  rewrite count_matches_pos, H. reflexivity.
Qed.

Lemma scanChinese_present text :
  existsb pat_chinese text = true ->
  existsb pat_japanese text = false ->
  exists r, scanChinese (getCharStats text) = Some r
            /\ language r = zh /\ method r = charscan
            /\ 0.8 <= confidence r /\ confidence r <= 0.98.
Proof.
  intros H Hj. unfold scanChinese, getCharStats, scanCharacters. simpl.
  pose proof (count_matches_pos pat_chinese text) as Hc.
  rewrite H in Hc. rewrite Hc, (pos_one_leb _ Hc), orb_true_r.
  pose proof (count_matches_pos pat_japanese text) as Hz.
  rewrite Hj in Hz. apply Z.ltb_ge in Hz.
  pose proof (count_matches_nonneg pat_japanese text).
  replace (count_matches pat_japanese text =? 0)%Z with true
    by (symmetry; apply Z.eqb_eq; lia).
  simpl. eexists. split; [reflexivity|]. simpl.
  destruct (class_ratio_bounds pat_chinese text H) as [Hr0 _].
  repeat split; apply Qmin_affine_bounds; (lra || exact Hr0).
Qed.

Lemma scanChinese_absent text :
  existsb pat_chinese text = false -> scanChinese (getCharStats text) = None.
Proof.
  intros H. unfold scanChinese, getCharStats, scanCharacters. simpl.
  rewrite count_matches_pos, H. reflexivity.
Qed.

Lemma filterConfidence_le lang stats : filterConfidence lang stats <= 0.95.
Proof.
  unfold filterConfidence.
  repeat match goal with
         | |- context [if ?b then _ else _] => destruct b
         end; try apply Q.le_min_l; lra.
Qed.

(** Every answer of the character scan is a [charscan] result whose
    confidence lies above 0.75 and at most at 0.98. *)
Lemma detectWithCharScan_sound text r :
  detectWithCharScan text = Some r ->
  method r = charscan /\ 0.75 < confidence r /\ confidence r <= 0.98.
Proof.
  unfold detectWithCharScan.
  destruct (existsb pat_japanese text) eqn:Hj.
  - destruct (scanKana_present text Hj) as (r1 & E & _ & Hm & Hlo & Hhi).
    rewrite E. intros R. injection R as <-. repeat split; [exact Hm|lra|lra].
  - rewrite (scanKana_absent text Hj).
    destruct (existsb pat_chinese text) eqn:Hc.
    + destruct (scanChinese_present text Hc Hj)
        as (r1 & E & _ & Hm & Hlo & Hhi).
      rewrite E. intros R. injection R as <-.
      repeat split; [exact Hm|lra|lra].
    + rewrite (scanChinese_absent text Hc). unfold scanFilter.
      destruct (languageFilter text) as [lang|]; [|discriminate].
      destruct (Qgtb (filterConfidence lang (getCharStats text)) 0.75) eqn:G;
        [|discriminate].
      intros R. injection R as <-. simpl. apply Qgtb_lt in G.
      pose proof (filterConfidence_le lang (getCharStats text)).
      repeat split; [exact G|lra].
Qed.

Lemma detectWithCharScan_kana text :
  existsb pat_japanese text = true ->
  exists r, detectWithCharScan text = Some r
            /\ language r = ja /\ method r = charscan
            /\ 0.8 <= confidence r /\ confidence r <= 0.98.
Proof.
  intros H. destruct (scanKana_present text H) as (r & E & Hr).
  exists r. split; [|exact Hr]. unfold detectWithCharScan. rewrite E.
  reflexivity.
Qed.

Lemma detectWithCharScan_han text :
  existsb pat_chinese text = true ->
  existsb pat_japanese text = false ->
  exists r, detectWithCharScan text = Some r
            /\ language r = zh /\ method r = charscan
            /\ 0.8 <= confidence r /\ confidence r <= 0.98.
Proof.
  intros H Hj. destruct (scanChinese_present text H Hj) as (r & E & Hr).
  exists r. split; [|exact Hr]. unfold detectWithCharScan.
  rewrite (scanKana_absent text Hj), E. reflexivity.
Qed.

(** The guard of Stage H lets every answer of the scan through. *)
Lemma confident_charScan text :
  confident (detectWithCharScan text) 0.75 = detectWithCharScan text.
Proof.
  unfold confident, above.
  destruct (detectWithCharScan text) as [r|] eqn:E; [|reflexivity].
  destruct (detectWithCharScan_sound text r E) as (_ & H & _).
  apply Qgtb_lt in H. rewrite H. reflexivity.
Qed.

(** ** Stage S: the statistical model *)

Lemma supported_all lang : existsb (SupportedLanguage_eqb lang) SUPPORTED = true.
Proof. destruct lang; reflexivity. Qed.

Lemma supported_In lang : In lang SUPPORTED.
Proof. destruct lang; simpl; tauto. Qed.

(** Unfolding the computations down to functions on states *)
Ltac run :=
  cbv beta iota zeta delta
    [bind try_catch gets modify ret throw
     importFastText getLIDModel load identify detectTextLanguageWithAI
     langCodeOf
     fastTextModel fastTextLoading fastTextLoadPromise fastTextAvailable
     n_import n_getLIDModel n_load n_identify n_llm
     set_fastTextModel set_fastTextLoading set_fastTextLoadPromise
     set_fastTextAvailable
     count_import count_getLIDModel count_load count_identify count_llm
     negb orb andb fst snd].

(** One case distinction on the innermost scrutinee of the goal *)
Ltac case_step :=
  match goal with
  | |- context [match ?x with _ => _ end] =>
      lazymatch x with
      | context [match _ with _ => _ end] => fail
      | _ => destruct x eqn:?
      end
  end.

Ltac cases := repeat (case_step; run; rewrite ?supported_all).

Section EngineFacts.

Variable P : Providers.

Lemma checkFastTextAvailability_run w :
  checkFastTextAvailability P w =
  match fastTextAvailable w with
  | Some available => (Returned available, w)
  | None =>
      match import_outcome P (n_import w) with
      | ImportResolves true =>
          (Returned true, set_fastTextAvailable (Some true) (count_import w))
      | _ =>
          (Returned false, set_fastTextAvailable (Some false) (count_import w))
      end
  end.
Proof.
  destruct w as [model loading promise avail ni ng nl nid nllm].
  unfold checkFastTextAvailability. run.
  destruct avail; [reflexivity|].
  destruct (import_outcome P ni) as [| |[|]]; reflexivity.
Qed.

(** What one call of detectWithFastText does, whatever the providers do:
    it returns; it leaves the counter of the remote model alone; it does
    nothing once the adapter is marked unavailable; an answer is the
    provider's own, above the floor and with a tag of the table; and the
    model is loaded at most once more, never when one is already there. *)
Lemma detectWithFastText_spec text w :
  exists o w',
    detectWithFastText P text w = (Returned o, w')
    /\ n_llm w' = n_llm w
    /\ (fastTextAvailable w = Some false -> o = None /\ w' = w)
    /\ (forall r, o = Some r ->
          method r = fasttext /\ 0.85 < confidence r
          /\ reasoning r = ReasonFastText (confidence r)
          /\ exists m tag,
               identify_outcome P (n_identify w) m text
               = IdentifyResult (Some (confidence r)) (Alpha2String tag)
               /\ lookup_code LANGUAGE_CODE_MAP (toLowerCase tag)
                  = Some (language r))
    /\ (n_load w' = n_load w \/ n_load w' = S (n_load w))
    /\ (forall m, fastTextModel w = Some m ->
          n_load w' = n_load w /\ fastTextModel w' = Some m)
    /\ (n_load w' = S (n_load w) ->
          (load_outcome P (n_load w) (n_getLIDModel w) = true
           /\ exists m, fastTextModel w' = Some m)
          \/ (load_outcome P (n_load w) (n_getLIDModel w) = false
              /\ fastTextAvailable w' = Some false)).
Proof.
  destruct w as [model loading promise avail ni ng nl nid nllm].
  unfold detectWithFastText, initFastText, loadLIDModel,
    checkFastTextAvailability.
  run. cases.
  all: do 2 eexists; (split; [reflexivity|]); run.
  all: repeat match goal with |- _ /\ _ => split end; intros.
  all: try discriminate; try reflexivity; try (left; reflexivity);
    try (right; reflexivity); try (exfalso; lia); try congruence.
  all: try match goal with
           | H : Some _ = Some ?r |- _ => injection H as <-
           end.
  all: cbn [language confidence method reasoning].
  all: repeat match goal with |- _ /\ _ => split end.
  all: try reflexivity.
  all: try (apply Qgtb_lt; assumption).
  all: try (do 2 eexists; split; eassumption).
  all: try (left; split; [reflexivity | eexists; reflexivity]).
  all: try (right; split; reflexivity).
  all: assumption.
Qed.

(** ** Stage R and the arbitration engine *)

Lemma detectWithLLM_run text w :
  detectWithLLM P text w =
  (Returned
     match llm_outcome P (n_llm w) text with
     | Some lang =>
         {| language := api_language lang; confidence := 0.85;
            method := llm; reasoning := ReasonLLM |}
     | None =>
         {| language := en; confidence := 0.5; method := fallback;
            reasoning := ReasonLLMFailed |}
     end,
   count_llm w).
Proof.
  unfold detectWithLLM, detectTextLanguageWithAI, try_catch, bind, ret.
  destruct (llm_outcome P (n_llm w) text); reflexivity.
Qed.

(** An answer of Stage S passes the guard of line 373. *)
Lemma confident_fastText text w o w1 :
  detectWithFastText P text w = (Returned o, w1) -> confident o 0.85 = o.
Proof.
  intros E. destruct o as [r|]; [|reflexivity].
  destruct (detectWithFastText_spec text w) as (o' & w' & E' & _ & _ & S & _).
  rewrite E in E'. injection E' as <- <-.
  destruct (S r eq_refl) as (_ & Hc & _).
  unfold confident, above. apply Qgtb_lt in Hc. rewrite Hc. reflexivity.
Qed.

(** hybridLanguageDetect on a text that passes the empty-input guard, as
    a function of what Stage S did: the fallback returns of lines 396 and
    401 are never taken. *)
Lemma hybridLanguageDetect_site_run text w o w1 :
  isBlank text = false ->
  detectWithFastText P text w = (Returned o, w1) ->
  hybridLanguageDetect_site P text w =
  match o with
  | Some r => (Returned (AtStageS, r), w1)
  | None =>
      match detectWithCharScan text with
      | Some r => (Returned (AtStageH, r), w1)
      | None =>
          if Qltb (calculateLocalConfidence text None) 0.7 then
            match detectWithLLM P text w1 with
            | (Returned r, w2) => (Returned (AtStageR, r), w2)
            | (Thrown, w2) => (Thrown, w2)
            end
          else
            (Returned (AtDefault,
                       {| language := en; confidence := 0.5;
                          method := fallback;
                          reasoning := ReasonAllFailed |}), w1)
      end
  end.
Proof.
  intros Hb E. unfold hybridLanguageDetect_site. rewrite Hb.
  unfold bind at 1. rewrite E, (confident_fastText text w o w1 E).
  destruct o as [r|]; [reflexivity|].
  rewrite confident_charScan.
  destruct (detectWithCharScan text) as [r|]; [reflexivity|].
  destruct (Qltb (calculateLocalConfidence text None) 0.7); reflexivity.
Qed.

(** Dropping the tags of hybridLanguageDetect_site gives
    hybridLanguageDetect. *)
Lemma hybridLanguageDetect_erase text w :
  hybridLanguageDetect P text w =
  match hybridLanguageDetect_site P text w with
  | (Returned (_, r), w') => (Returned r, w')
  | (Thrown, w') => (Thrown, w')
  end.
Proof.
  unfold hybridLanguageDetect, hybridLanguageDetect_site.
  destruct (isBlank text); [reflexivity|].
  unfold bind at 1 3.
  destruct (detectWithFastText P text w) as [[o|] w1]; [|reflexivity].
  destruct (confident o 0.85); [reflexivity|].
  destruct (confident (detectWithCharScan text) 0.75); [reflexivity|].
  destruct (Qltb _ 0.7).
  - unfold bind. rewrite detectWithLLM_run. reflexivity.
  - destruct (detectWithCharScan text); [reflexivity|].
    destruct o; reflexivity.
Qed.

Lemma hybridLanguageDetect_run text w o w1 :
  isBlank text = false ->
  detectWithFastText P text w = (Returned o, w1) ->
  hybridLanguageDetect P text w =
  match o with
  | Some r => (Returned r, w1)
  | None =>
      match detectWithCharScan text with
      | Some r => (Returned r, w1)
      | None =>
          if Qltb (calculateLocalConfidence text None) 0.7 then
            detectWithLLM P text w1
          else
            (Returned {| language := en; confidence := 0.5;
                         method := fallback;
                         reasoning := ReasonAllFailed |}, w1)
      end
  end.
Proof.
  intros Hb E.
  rewrite hybridLanguageDetect_erase,
    (hybridLanguageDetect_site_run text w o w1 Hb E).
  destruct o; [reflexivity|].
  destruct (detectWithCharScan text); [reflexivity|].
  destruct (Qltb _ 0.7); [|reflexivity].
  rewrite detectWithLLM_run. reflexivity.
Qed.

(** ** The script rules: kana, ideographs, Spanish punctuation *)

(** C1, amended. A text with at least one kana character passes the
    empty-input guard and is Japanese for the character scan, whatever
    ideographs it also holds: hybridLanguageDetectSync answers [ja], and
    hybridLanguageDetect answers [ja] by the scan whenever Stage S gives no
    answer (as it does once the adapter is marked unavailable). When
    Stage S gives an answer, hybridLanguageDetect returns that answer. The
    remote provider is not consulted in either case. *)
Theorem C1_kana_japanese_after_stage_S (text : jsstring) :
  existsb pat_japanese text = true ->
  language (hybridLanguageDetectSync text) = ja
  /\ forall w, exists o w1,
       detectWithFastText P text w = (Returned o, w1)
       /\ (fastTextAvailable w = Some false -> o = None)
       /\ n_llm w1 = n_llm w
       /\ match o with
          | Some r => hybridLanguageDetect P text w = (Returned r, w1)
          | None =>
              exists r, hybridLanguageDetect P text w = (Returned r, w1)
                        /\ language r = ja /\ method r = charscan
          end.
Proof.
  intros K.
  destruct (detectWithCharScan_kana text K) as (r & Er & Hl & Hm & _).
  split.
  - unfold hybridLanguageDetectSync. rewrite Er. exact Hl.
  - intros w.
    destruct (detectWithFastText_spec text w)
      as (o & w1 & E & Hn & Hoff & _).
    exists o, w1. repeat split; try assumption.
    + intros Ha. apply Hoff, Ha.
    + rewrite (hybridLanguageDetect_run text w o w1
                 (isBlank_false _ text kana_not_whitespace K) E).
      destruct o as [r'|]; [reflexivity|].
      rewrite Er. exists r. repeat split; assumption.
Qed.

(** C4, amended. A text with at least one CJK ideograph and no kana is
    Chinese for the character scan: hybridLanguageDetectSync answers [zh],
    and hybridLanguageDetect answers [zh] by the scan whenever Stage S
    gives no answer; when Stage S gives an answer, that answer is
    returned. *)
Theorem C4_ideographs_chinese_after_stage_S (text : jsstring) :
  existsb pat_chinese text = true ->
  existsb pat_japanese text = false ->
  language (hybridLanguageDetectSync text) = zh
  /\ forall w, exists o w1,
       detectWithFastText P text w = (Returned o, w1)
       /\ (fastTextAvailable w = Some false -> o = None)
       /\ n_llm w1 = n_llm w
       /\ match o with
          | Some r => hybridLanguageDetect P text w = (Returned r, w1)
          | None =>
              exists r, hybridLanguageDetect P text w = (Returned r, w1)
                        /\ language r = zh /\ method r = charscan
          end.
Proof.
  intros C K.
  destruct (detectWithCharScan_han text C K) as (r & Er & Hl & Hm & _).
  split.
  - unfold hybridLanguageDetectSync. rewrite Er. exact Hl.
  - intros w.
    destruct (detectWithFastText_spec text w)
      as (o & w1 & E & Hn & Hoff & _).
    exists o, w1. repeat split; try assumption.
    + intros Ha. apply Hoff, Ha.
    + rewrite (hybridLanguageDetect_run text w o w1
                 (isBlank_false _ text han_not_whitespace C) E).
      destruct o as [r'|]; [reflexivity|].
      rewrite Er. exists r. repeat split; assumption.
Qed.

Lemma detectWithCharScan_como_estas :
  detectWithCharScan text_como_estas =
  Some {| language := es; confidence := 0.75 + ratio 1 12 * 0.2;
          method := charscan;
          reasoning := ReasonFilter es (0.75 + ratio 1 12 * 0.2) |}.
Proof. vm_compute. reflexivity. Qed.

(** C5, amended. For the Spanish question of the examples the character
    scan answers [es] with confidence 0.75 + (1/12) * 0.2, above 0.75:
    that is the result of hybridLanguageDetectSync, and of
    hybridLanguageDetect whenever Stage S gives no answer. When Stage S
    gives an answer it is returned, with its own language and a
    confidence above 0.85. The confidence is at least 0.75 in every
    case. *)
Theorem C5_como_estas_spanish_after_stage_S (w : World) :
  (language (hybridLanguageDetectSync text_como_estas) = es
   /\ 0.75 <= confidence (hybridLanguageDetectSync text_como_estas))
  /\ exists o w1 r,
       detectWithFastText P text_como_estas w = (Returned o, w1)
       /\ hybridLanguageDetect P text_como_estas w = (Returned r, w1)
       /\ 0.75 <= confidence r
       /\ match o with
          | Some r' => r = r' /\ method r = fasttext
          | None => language r = es /\ method r = charscan
          end.
Proof.
  split.
  - unfold hybridLanguageDetectSync.
    rewrite detectWithCharScan_como_estas. simpl.
    split; [reflexivity|]. vm_compute. discriminate.
  - destruct (detectWithFastText_spec text_como_estas w)
      as (o & w1 & E & _ & _ & S & _).
    pose proof (hybridLanguageDetect_run text_como_estas w o w1 eq_refl E)
      as R.
    destruct o as [r'|].
    + exists (Some r'), w1, r'. destruct (S r' eq_refl) as (Hm & Hc & _).
      repeat split; try assumption. lra.
    + rewrite detectWithCharScan_como_estas in R.
      exists None, w1. eexists.
      split; [exact E|]. split; [exact R|].
      split; [vm_compute; discriminate|]. split; reflexivity.
Qed.

End EngineFacts.

(** C1, counterexample: a subword model that answers English with score
    0.99 makes hybridLanguageDetect answer [en] on a kana character. *)
Lemma C1_counterexample :
  existsb pat_japanese text_kana = true
  /\ exists r w',
       hybridLanguageDetect (providers_answering "en" 0.99) text_kana
         initial_world = (Returned r, w')
       /\ language r <> ja.
Proof.
  split; [reflexivity|]. do 2 eexists. split.
  - vm_compute. reflexivity.
  - discriminate.
Qed.

Lemma C1_witness :
  existsb pat_japanese text_kana = true
  /\ (language (hybridLanguageDetectSync text_kana) = ja
      /\ forall w, exists o w1,
           detectWithFastText providers_absent text_kana w = (Returned o, w1)
           /\ (fastTextAvailable w = Some false -> o = None)
           /\ n_llm w1 = n_llm w
           /\ match o with
              | Some r =>
                  hybridLanguageDetect providers_absent text_kana w
                  = (Returned r, w1)
              | None =>
                  exists r,
                    hybridLanguageDetect providers_absent text_kana w
                    = (Returned r, w1)
                    /\ language r = ja /\ method r = charscan
              end).
Proof.
  split; [reflexivity|].
  exact (C1_kana_japanese_after_stage_S providers_absent text_kana eq_refl).
Defined.

(** C4, counterexample: a subword model that answers English with score
    0.99 makes hybridLanguageDetect answer [en] on an ideograph. *)
Lemma C4_counterexample :
  (existsb pat_chinese text_han = true
   /\ existsb pat_japanese text_han = false)
  /\ exists r w',
       hybridLanguageDetect (providers_answering "en" 0.99) text_han
         initial_world = (Returned r, w')
       /\ language r <> zh.
Proof.
  split; [split; reflexivity|]. do 2 eexists. split.
  - vm_compute. reflexivity.
  - discriminate.
Qed.

Lemma C4_witness :
  existsb pat_chinese text_han = true
  /\ existsb pat_japanese text_han = false
  /\ (language (hybridLanguageDetectSync text_han) = zh
      /\ forall w, exists o w1,
           detectWithFastText providers_absent text_han w = (Returned o, w1)
           /\ (fastTextAvailable w = Some false -> o = None)
           /\ n_llm w1 = n_llm w
           /\ match o with
              | Some r =>
                  hybridLanguageDetect providers_absent text_han w
                  = (Returned r, w1)
              | None =>
                  exists r,
                    hybridLanguageDetect providers_absent text_han w
                    = (Returned r, w1)
                    /\ language r = zh /\ method r = charscan
              end).
Proof.
  split; [reflexivity|]. split; [reflexivity|].
  exact (C4_ideographs_chinese_after_stage_S providers_absent text_han
           eq_refl eq_refl).
Defined.

(** C5, counterexample: a subword model that answers French with score
    0.9 makes hybridLanguageDetect answer [fr] on the Spanish question. *)
Lemma C5_counterexample :
  exists r w',
    hybridLanguageDetect (providers_answering "fr" 0.9) text_como_estas
      initial_world = (Returned r, w')
    /\ language r <> es.
Proof.
  do 2 eexists. split.
  - vm_compute. reflexivity.
  - discriminate.
Qed.

(** ** The arbitration engine: failure modes and result ranges *)

Section Arbitration.

Variable P : Providers.

(** A text of the basic class of rule 7 has no character of the six
    counted classes. *)
Lemma basic_not_counted c :
  pat_basic c = true ->
  pat_chinese c = false /\ pat_japanese c = false /\ pat_german c = false
  /\ pat_french c = false /\ pat_spanish c = false
  /\ pat_allAccented c = false.
Proof.
  unfold pat_basic, pat_chinese, pat_japanese, pat_german, pat_french,
    pat_spanish, pat_allAccented, isWhitespace, in_range, one_of. simpl.
  intros H.
  assert (B : (c <= 0x7A \/ c = 0xA0 \/ c = 0x1680
               \/ (0x2000 <= c <= 0x205F) \/ c = 0x3000 \/ c = 0xFEFF)%Z)
    by (bool_to_prop; lia).
  clear H.
  repeat split; apply not_true_iff_false; intros W; bool_to_prop; lia.
Qed.

Lemma count_matches_none (p q : Z -> bool) s :
  (forall c, q c = true -> p c = false) ->
  forallb q s = true -> count_matches p s = 0%Z.
Proof.
  intros Hpq. unfold count_matches. induction s as [|c s IH]; simpl.
  - reflexivity.
  - intros H. apply andb_true_iff in H. destruct H as [Hc Hs].
    rewrite (Hpq c Hc). apply IH, Hs.
Qed.

Lemma basic_text_stats text :
  all_basic text = true ->
  getCharStats text =
  {| chinese := 0; japanese := 0; german := 0; french := 0; spanish := 0;
     accented := 0; total := Z.of_nat (List.length text) |}.
Proof.
  intros H. unfold all_basic in H. apply andb_true_iff in H.
  destruct H as [_ H]. unfold getCharStats, scanCharacters.
  rewrite (count_matches_none pat_chinese pat_basic text), 
    (count_matches_none pat_japanese pat_basic text),
    (count_matches_none pat_german pat_basic text),
    (count_matches_none pat_french pat_basic text),
    (count_matches_none pat_spanish pat_basic text),
    (count_matches_none pat_allAccented pat_basic text);
    try exact H; try reflexivity; intros c Hc; apply basic_not_counted in Hc;
    tauto.
Qed.

(** On a text of the basic class that passes the empty-input guard, the
    character scan answers English with confidence 0.8. *)
Lemma detectWithCharScan_basic text :
  all_basic text = true -> isBlank text = false ->
  detectWithCharScan text =
  Some {| language := en; confidence := 0.8; method := charscan;
          reasoning := ReasonFilter en 0.8 |}.
Proof.
  intros Hb Hn. unfold detectWithCharScan, scanFilter.
  rewrite (basic_text_stats text Hb). cbn [scanKana scanChinese japanese
    chinese Z.ltb Z.compare andb].
  assert (Hf : languageFilter text = Some en).
  { unfold languageFilter. unfold isBlank in Hn.
    apply orb_false_iff in Hn. destruct Hn as [_ Ht]. rewrite Ht.
    destruct (List.length (trim text) <? 2)%nat; [reflexivity|].
    fold (getCharStats text). rewrite (basic_text_stats text Hb).
    unfold quickLanguageDetection.
    cbn [chinese japanese german french spanish accented total
         Z.ltb Z.eqb Z.compare andb].
    rewrite Hb. reflexivity. }
  rewrite Hf. reflexivity.
Qed.

(** C2, as the code behaves. For a text of one or two words made of basic
    ASCII characters only (such as the bare word of the examples), the
    estimate of calculateLocalConfidence is 0.3, below 0.7; but
    hybridLanguageDetect never computes it: whatever the providers do, the
    call returns at Stage S or at Stage H (the scan answers [en] with
    confidence 0.8, above the guard of 0.75), the remote model is not
    called and the result is not an [llm] result. *)
Theorem C2_basic_text_never_reaches_remote_stage
    (text : jsstring) (w : World) :
  all_basic text = true ->
  isBlank text = false ->
  (List.length
     (filter (fun word => (0 <? List.length word)%nat)
        (split_ws (trim text))) <= 2)%nat ->
  calculateLocalConfidence text (detectWithCharScan text) == 0.3
  /\ calculateLocalConfidence text (detectWithCharScan text) < 0.7
  /\ exists site r w',
       hybridLanguageDetect_site P text w = (Returned (site, r), w')
       /\ hybridLanguageDetect P text w = (Returned r, w')
       /\ (site = AtStageS \/ site = AtStageH)
       /\ n_llm w' = n_llm w
       /\ method r <> llm.
Proof.
  intros Hb Hn Hwords.
  pose proof (detectWithCharScan_basic text Hb Hn) as Hscan.
  assert (Hest : calculateLocalConfidence text (detectWithCharScan text)
                 = 0.3).
  { rewrite Hscan. unfold calculateLocalConfidence.
    rewrite (basic_text_stats text Hb).
    cbn [above confidence japanese chinese german french spanish
         Z.ltb Z.compare orb].
    change (Qgtb 0.8 0.8) with false. cbv iota.
    set (n := List.length _) in *.
    destruct (Nat.leb_spec 5 n); [lia|].
    destruct (Nat.leb_spec 3 n); [lia|].
    destruct (Nat.leb_spec n 2); [reflexivity|lia]. }
  rewrite Hest. split; [reflexivity|]. split; [reflexivity|].
  destruct (detectWithFastText_spec P text w)
    as (o & w1 & E & Hllm & _ & S & _).
  pose proof (hybridLanguageDetect_site_run P text w o w1 Hn E) as R.
  pose proof (hybridLanguageDetect_erase P text w) as R'.
  rewrite R in R'. destruct o as [r|].
  - exists AtStageS, r, w1. destruct (S r eq_refl) as (Hm & _).
    repeat split; try assumption; [left; reflexivity|]. rewrite Hm.
    discriminate.
  - rewrite Hscan in R, R'.
    do 3 eexists. split; [exact R|]. split; [exact R'|].
    split; [right; reflexivity|]. split; [exact Hllm|]. discriminate.
Qed.

(** Whatever the text and whatever the providers do (failing import,
    failing load, rejecting or malformed identify, rejecting remote
    function), no stage throws and hybridLanguageDetect returns a result.
    A [fallback] result is English with confidence 0.5; and if the remote
    function was called and rejected, the result is that default. *)
Lemma hybridLanguageDetect_always_returns (text : jsstring) (w : World) :
  (exists o w1, detectWithFastText P text w = (Returned o, w1))
  /\ (exists r w2, detectWithLLM P text w = (Returned r, w2))
  /\ exists r w',
       hybridLanguageDetect P text w = (Returned r, w')
       /\ (method r = fallback -> language r = en /\ confidence r = 0.5)
       /\ (n_llm w' <> n_llm w ->
           llm_outcome P (n_llm w) text = None ->
           r = {| language := en; confidence := 0.5; method := fallback;
                  reasoning := ReasonLLMFailed |}).
Proof.
  destruct (detectWithFastText_spec P text w)
    as (o & w1 & E & Hn & _ & S & _).
  split; [exists o, w1; exact E|].
  split; [rewrite detectWithLLM_run; do 2 eexists; reflexivity|].
  destruct (isBlank text) eqn:Hb.
  - unfold hybridLanguageDetect. rewrite Hb. do 2 eexists.
    split; [reflexivity|]. split; [split; reflexivity|].
    intros Hne. contradiction Hne. reflexivity.
  - rewrite (hybridLanguageDetect_run P text w o w1 Hb E).
    destruct o as [r|].
    + exists r, w1. destruct (S r eq_refl) as (Hm & _).
      split; [reflexivity|]. split; [congruence|].
      intros Hne. contradiction.
    + destruct (detectWithCharScan text) as [r|] eqn:Ec.
      * exists r, w1. destruct (detectWithCharScan_sound text r Ec) as (Hm & _).
        split; [reflexivity|]. split; [congruence|].
        intros Hne. contradiction.
      * destruct (Qltb _ 0.7).
        -- rewrite detectWithLLM_run, Hn. do 2 eexists.
           split; [reflexivity|].
           destruct (llm_outcome P (n_llm w) text); simpl;
             (split; [intros; try discriminate; split; reflexivity|]);
             intros _ Hnone; [discriminate|reflexivity].
        -- do 2 eexists. split; [reflexivity|].
           split; [split; reflexivity|]. intros Hne. contradiction.
Qed.

(** Closes a goal made of conjunctions and disjunctions of facts that
    hold by reflexivity or by assumption *)
Ltac settle :=
  solve [ reflexivity | eassumption | apply Qgtb_lt; assumption
        | split; settle | left; settle | right; settle ].

(** The answer of detectWithFastText, read off the providers: a result is
    returned exactly when the availability probe succeeds (now or
    earlier), a model is obtained (the one held, the one of a load in
    flight, or one loaded by this call), and identify on that model gives
    a score above 0.85 with a tag of LANGUAGE_CODE_MAP. *)
Lemma detectWithFastText_answer text w :
  exists o w',
    detectWithFastText P text w = (Returned o, w')
    /\ forall r,
         o = Some r <->
         exists m tag,
           (fastTextAvailable w = Some true
            \/ (fastTextAvailable w = None
                /\ import_outcome P (n_import w) = ImportResolves true))
           /\ (fastTextModel w = Some m
               \/ (fastTextModel w = None /\ fastTextLoading w = true
                   /\ fastTextLoadPromise w = Some (Some m))
               \/ (fastTextModel w = None
                   /\ (fastTextLoading w = false
                       \/ fastTextLoadPromise w = None)
                   /\ import_outcome P
                        match fastTextAvailable w with
                        | Some _ => n_import w
                        | None => S (n_import w)
                        end = ImportResolves true
                   /\ m = n_getLIDModel w
                   /\ getLIDModel_outcome P (n_getLIDModel w) = true
                   /\ load_outcome P (n_load w) m = true))
           /\ identify_outcome P (n_identify w) m text
              = IdentifyResult (Some (confidence r)) (Alpha2String tag)
           /\ 0.85 < confidence r
           /\ lookup_code LANGUAGE_CODE_MAP (toLowerCase tag)
              = Some (language r)
           /\ method r = fasttext
           /\ reasoning r = ReasonFastText (confidence r).
Proof.
  destruct w as [model loading promise avail ni ng nl nid nllm].
  unfold detectWithFastText, initFastText, loadLIDModel,
    checkFastTextAvailability.
  run. cases.
  all: do 2 eexists; (split; [reflexivity|]); run.
  all: subst; intros r; split.
  all: try (intros [= <-]; cbn [language confidence method reasoning]).
  all: try discriminate.
  all: try (do 2 eexists; settle).
  all: intros (m0 & tag0 & Hp & Hm & Hi & Hc & Hl & Hmeth & Hr).
  all: destruct Hp as [Hp|[Hp1 Hp2]];
    destruct Hm as [Hm|[(Hm1 & Hm2 & Hm3)|(Hm1 & Hm2 & Hm3 & Hm4 & Hm5 & Hm6)]];
    try discriminate; try congruence.
  all: try (destruct Hm2 as [Hm2|Hm2]; try discriminate).
  all: try (injection Hm as <-); try (injection Hm3 as <-); subst.
  all: try match goal with
           | H1 : identify_outcome P ?n ?m ?t = _,
             H2 : identify_outcome P ?n ?m ?t = _ |- _ =>
               rewrite H1 in H2; try discriminate; injection H2 as ? ?; subst
           end.
  all: try congruence.
  all: try (destruct r; cbn [language confidence method reasoning] in *;
            subst; congruence).
  all: try (exfalso;
            match goal with
            | H : Qgtb _ 0.85 = false |- _ =>
                apply Qgtb_le in H; apply (Qlt_not_le _ _ Hc H)
            end).
Qed.

(** C7. detectWithFastText returns [null] or a [fasttext] result, and a
    result is returned exactly when (1) the availability probe succeeds,
    in this call or an earlier one, (2) a model is obtained: the one
    held, the one of a load in flight, or the one this call imports,
    gets and loads with success, and (3) identify on that very model
    gives a score above 0.85 and a tag that, lower-cased, is a key of
    LANGUAGE_CODE_MAP; the result carries that score and the mapped
    language, one of the six supported. So the stage returns [null] when
    the adapter is marked unavailable, when the probe fails in this call,
    when the import, getLIDModel or load of this call fails, and when the
    answer of the model has no score above 0.85 or no tag of the
    table. *)
Theorem C7_detectWithFastText_floor (text : jsstring) (w : World) :
  exists o w',
    detectWithFastText P text w = (Returned o, w')
    /\ (forall r,
          o = Some r <->
          exists m tag,
            (fastTextAvailable w = Some true
             \/ (fastTextAvailable w = None
                 /\ import_outcome P (n_import w) = ImportResolves true))
            /\ (fastTextModel w = Some m
                \/ (fastTextModel w = None /\ fastTextLoading w = true
                    /\ fastTextLoadPromise w = Some (Some m))
                \/ (fastTextModel w = None
                    /\ (fastTextLoading w = false
                        \/ fastTextLoadPromise w = None)
                    /\ import_outcome P
                         match fastTextAvailable w with
                         | Some _ => n_import w
                         | None => S (n_import w)
                         end = ImportResolves true
                    /\ m = n_getLIDModel w
                    /\ getLIDModel_outcome P (n_getLIDModel w) = true
                    /\ load_outcome P (n_load w) m = true))
            /\ identify_outcome P (n_identify w) m text
               = IdentifyResult (Some (confidence r)) (Alpha2String tag)
            /\ 0.85 < confidence r
            /\ lookup_code LANGUAGE_CODE_MAP (toLowerCase tag)
               = Some (language r)
            /\ method r = fasttext
            /\ reasoning r = ReasonFastText (confidence r))
    /\ (forall r, o = Some r -> In (language r) SUPPORTED)
    /\ (fastTextAvailable w = Some false -> o = None)
    /\ (fastTextAvailable w = None ->
        import_outcome P (n_import w) <> ImportResolves true -> o = None)
    /\ (fastTextModel w = None ->
        fastTextLoading w = false \/ fastTextLoadPromise w = None ->
        import_outcome P
          match fastTextAvailable w with
          | Some _ => n_import w
          | None => S (n_import w)
          end <> ImportResolves true
        \/ getLIDModel_outcome P (n_getLIDModel w) = false
        \/ load_outcome P (n_load w) (n_getLIDModel w) = false ->
        o = None)
    /\ (forall m,
          fastTextModel w = Some m
          \/ (fastTextModel w = None /\ fastTextLoading w = true
              /\ fastTextLoadPromise w = Some (Some m))
          \/ (fastTextModel w = None
              /\ (fastTextLoading w = false \/ fastTextLoadPromise w = None)
              /\ m = n_getLIDModel w) ->
          match identify_outcome P (n_identify w) m text with
          | IdentifyResult (Some score) (Alpha2String tag) =>
              score <= 0.85
              \/ lookup_code LANGUAGE_CODE_MAP (toLowerCase tag) = None
          | _ => True
          end ->
          o = None).
Proof.
  destruct (detectWithFastText_answer text w) as (o & w' & E & Hiff).
  exists o, w'. split; [exact E|]. split; [exact Hiff|].
  assert (Hwhy : forall r, o = Some r -> _) by (intros r; apply Hiff).
  repeat match goal with |- _ /\ _ => split end.
  - intros r _. apply supported_In.
  - intros Ha. destruct o as [r|]; [|reflexivity]. exfalso.
    destruct (Hwhy r eq_refl) as (m & tag & [Hp|[Hp _]] & _); congruence.
  - intros Ha Hi. destruct o as [r|]; [|reflexivity]. exfalso.
    destruct (Hwhy r eq_refl) as (m & tag & [Hp|[_ Hp]] & _); congruence.
  - intros Hn Hl Hf. destruct o as [r|]; [|reflexivity]. exfalso.
    destruct (Hwhy r eq_refl)
      as (m & tag & _ & [Hm|[(_ & H1 & H2)|(_ & _ & H3 & -> & H5 & H6)]] & _).
    + congruence.
    + destruct Hl; congruence.
    + destruct Hf as [Hf|[Hf|Hf]]; congruence.
  - intros m Hm Hlow. destruct o as [r|]; [|reflexivity]. exfalso.
    destruct (Hwhy r eq_refl) as (m0 & tag & _ & Hm0 & Hi & Hc & Hl & _).
    assert (Em : m0 = m).
    { destruct Hm as [Hm|[(A1 & A2 & A3)|(A1 & A2 & ->)]];
        destruct Hm0
          as [Hm0|[(B1 & B2 & B3)|(B1 & B2 & _ & -> & _)]];
        try congruence.
      - destruct B2; congruence.
      - destruct A2; congruence. }
    subst m0. rewrite Hi in Hlow. destruct Hlow as [Hle|Hno].
    + apply (Qlt_not_le _ _ Hc Hle).
    + congruence.
Qed.

(** C8. On the empty string and on a string of whitespace only,
    hybridLanguageDetect returns English with confidence 0.5 and method
    [fallback], and leaves the state as it was: no provider is called and
    no variable of the module is written. *)
Theorem C8_blank_input_default (text : jsstring) (w : World) :
  forallb isWhitespace text = true ->
  hybridLanguageDetect P text w =
  (Returned {| language := en; confidence := 0.5; method := fallback;
               reasoning := ReasonEmptyText |}, w).
Proof.
  intros H. unfold hybridLanguageDetect.
  rewrite (isBlank_whitespace text H). reflexivity.
Qed.

End Arbitration.

(** ** A failed remote call *)

Section RemoteFailure.

Variable P : Providers.
Variable lowerCase : jsstring -> jsstring.
Variable reply : nat -> jsstring -> RuleBased.RemoteReply.

(** C3. hybridLanguageDetect never throws, whatever the providers do,
    and if the remote function rejected, the [catch] block of
    detectWithLLM would give the default English result with confidence
    0.5. But detectTextLanguageWithAI of qwenApi.ts never rejects: with
    it as the remote stage, a [fallback] result is never preceded by a
    remote call, and a call whose exchange with the remote model failed
    ends in a result of method [llm] and confidence 0.85 whose language
    is the answer of the rule-based detectTextLanguage. *)
Theorem C3_failed_remote_call_reported_as_llm
    (text : jsstring) (w : World) :
  (exists r w',
     hybridLanguageDetect P text w = (Returned r, w')
     /\ (method r = fallback -> language r = en /\ confidence r = 0.5)
     /\ (n_llm w' <> n_llm w ->
         llm_outcome P (n_llm w) text = None ->
         r = {| language := en; confidence := 0.5; method := fallback;
                reasoning := ReasonLLMFailed |}))
  /\ exists r w',
       hybridLanguageDetect
         (RuleBased.providers_with_qwen lowerCase P reply) text w
       = (Returned r, w')
       /\ (method r = fallback -> n_llm w' = n_llm w)
       /\ (n_llm w' <> n_llm w ->
           method r = llm /\ confidence r = 0.85
           /\ (reply (n_llm w) text = RuleBased.ReplyFails ->
               language r =
               api_language (RuleBased.detectTextLanguage lowerCase text))).
Proof.
  split.
  - destruct (hybridLanguageDetect_always_returns P text w)
      as (_ & _ & H). exact H.
  - set (Q := RuleBased.providers_with_qwen lowerCase P reply).
    destruct (detectWithFastText_spec Q text w)
      as (o & w1 & E & Hn & _ & S & _).
    destruct (isBlank text) eqn:Hb.
    + unfold hybridLanguageDetect. rewrite Hb. do 2 eexists.
      split; [reflexivity|]. split; [reflexivity|].
      intros H. contradiction H. reflexivity.
    + rewrite (hybridLanguageDetect_run Q text w o w1 Hb E).
      destruct o as [r|].
      * exists r, w1. split; [reflexivity|].
        split; [intros _; exact Hn|]. intros H. contradiction.
      * destruct (detectWithCharScan text) as [r|].
        -- exists r, w1. split; [reflexivity|].
           split; [intros _; exact Hn|]. intros H. contradiction.
        -- destruct (Qltb _ 0.7).
           ++ rewrite detectWithLLM_run. do 2 eexists.
              split; [reflexivity|]. unfold Q.
              cbn [RuleBased.providers_with_qwen llm_outcome method
                   confidence language count_llm n_llm].
              split; [discriminate|]. intros _.
              repeat split. rewrite Hn. intros ->. reflexivity.
           ++ do 2 eexists. split; [reflexivity|].
              split; [intros _; exact Hn|]. intros H. contradiction.
Qed.

End RemoteFailure.

Lemma C2_witness :
  (all_basic text_in = true /\ isBlank text_in = false
   /\ (List.length
         (filter (fun word => (0 <? List.length word)%nat)
            (split_ws (trim text_in))) <= 2)%nat)
  /\ (calculateLocalConfidence text_in (detectWithCharScan text_in) == 0.3
      /\ calculateLocalConfidence text_in (detectWithCharScan text_in) < 0.7
      /\ exists site r w',
           hybridLanguageDetect_site providers_absent text_in initial_world
           = (Returned (site, r), w')
           /\ hybridLanguageDetect providers_absent text_in initial_world
              = (Returned r, w')
           /\ (site = AtStageS \/ site = AtStageH)
           /\ n_llm w' = n_llm initial_world
           /\ method r <> llm).
Proof.
  assert (Hwords : (List.length
                      (filter (fun word => (0 <? List.length word)%nat)
                         (split_ws (trim text_in))) <= 2)%nat)
    by (vm_compute; lia).
  split; [split; [reflexivity|split; [reflexivity|exact Hwords]]|].
  exact (C2_basic_text_never_reaches_remote_stage providers_absent text_in
           initial_world eq_refl eq_refl Hwords).
Defined.

(** C3, at the failing input: the package is absent (its import is an
    exception that the adapter catches) and the exchange with the remote
    model fails; the result is German with method [llm] and confidence
    0.85. *)
Lemma C3_failing_input :
  fst (importFastText providers_absent initial_world) = Thrown
  /\ exists r w',
       hybridLanguageDetect
         (RuleBased.providers_with_qwen RuleBased.lowerLatin1
            providers_absent (fun _ _ => RuleBased.ReplyFails))
         text_der_dom initial_world
       = (Returned r, w')
       /\ n_llm w' = 1%nat
       /\ method r = llm /\ confidence r = 0.85 /\ language r = de.
Proof.
  split; [reflexivity|].
  destruct (C3_failed_remote_call_reported_as_llm providers_absent
              RuleBased.lowerLatin1 (fun _ _ => RuleBased.ReplyFails)
              text_der_dom initial_world)
    as (_ & r & w' & E & _ & H).
  exists r, w'. split; [exact E|].
  assert (Hn : n_llm w' = 1%nat).
  { vm_compute in E. injection E as _ <-. reflexivity. }
  split; [exact Hn|].
  destruct H as (Hm & Hc & Hl); [rewrite Hn; discriminate|].
  split; [exact Hm|]. split; [exact Hc|]. rewrite (Hl eq_refl). reflexivity.
Defined.

(** C7, at two inputs: a model whose load fails gives [null]; a model
    answering ZH-CN with score 0.9 gives Chinese. *)
Lemma C7_witness :
  (exists w',
     detectWithFastText providers_load_fails text_in initial_world
     = (Returned None, w'))
  /\ exists r w',
       detectWithFastText (providers_answering "ZH-CN" 0.9) text_in
         initial_world = (Returned (Some r), w')
       /\ method r = fasttext /\ 0.85 < confidence r /\ language r = zh.
Proof.
  split.
  - destruct (C7_detectWithFastText_floor providers_load_fails text_in
                initial_world)
      as (o & w' & E & _ & _ & _ & _ & Hload & _).
    exists w'. rewrite E.
    rewrite (Hload eq_refl (or_introl eq_refl) (or_intror (or_intror eq_refl))).
    reflexivity.
  - destruct (C7_detectWithFastText_floor (providers_answering "ZH-CN" 0.9)
                text_in initial_world)
      as (o & w' & E & Hiff & _).
    destruct o as [r|]; [|vm_compute in E; discriminate].
    exists r, w'. split; [exact E|].
    destruct (proj1 (Hiff r) eq_refl) as (m & tag & _ & _ & _ & Hc & _ & Hm & _).
    split; [exact Hm|]. split; [exact Hc|].
    vm_compute in E. injection E as <- _. reflexivity.
Defined.

Lemma C8_witness :
  forallb isWhitespace [0x20; 0x09; 0x3000]%Z = true
  /\ hybridLanguageDetect (providers_answering "en" 0.99)
       [0x20; 0x09; 0x3000]%Z initial_world
     = (Returned {| language := en; confidence := 0.5; method := fallback;
                    reasoning := ReasonEmptyText |}, initial_world).
Proof.
  split; [reflexivity|].
  exact (C8_blank_input_default (providers_answering "en" 0.99)
           [0x20; 0x09; 0x3000]%Z initial_world eq_refl).
Defined.

(** ** Result ranges, the guard of Stage H, and the adapter's memory of a
       failed load *)

Section Ranges.

Variable P : Providers.

Lemma hybridLanguageDetectSync_range text :
  In (language (hybridLanguageDetectSync text)) SUPPORTED
  /\ 0 <= confidence (hybridLanguageDetectSync text)
  /\ confidence (hybridLanguageDetectSync text) <= 1.
Proof.
  split; [apply supported_In|]. unfold hybridLanguageDetectSync.
  destruct (detectWithCharScan text) as [r|] eqn:E.
  - destruct (detectWithCharScan_sound text r E) as (_ & Hlo & Hhi).
    split; lra.
  - simpl. split; lra.
Qed.

(** C9, amended. The language of a result is always one of the six
    supported codes. The confidence of a result of
    hybridLanguageDetectSync lies in [0,1]; so does the confidence of a
    result of hybridLanguageDetect that is not a [fasttext] result. A
    [fasttext] result carries the score the subword model reported for
    this text, unchanged: it is above 0.85, and nothing bounds it from
    above. *)
Theorem C9_language_supported_confidence_range (text : jsstring) (w : World) :
  (In (language (hybridLanguageDetectSync text)) SUPPORTED
   /\ 0 <= confidence (hybridLanguageDetectSync text)
   /\ confidence (hybridLanguageDetectSync text) <= 1)
  /\ exists r w',
       hybridLanguageDetect P text w = (Returned r, w')
       /\ In (language r) SUPPORTED
       /\ 0 <= confidence r
       /\ (method r <> fasttext -> confidence r <= 1)
       /\ (method r = fasttext ->
           0.85 < confidence r
           /\ exists m alpha2,
                identify_outcome P (n_identify w) m text
                = IdentifyResult (Some (confidence r)) alpha2).
Proof.
  split; [apply hybridLanguageDetectSync_range|].
  destruct (detectWithFastText_spec P text w)
    as (o & w1 & E & _ & _ & S & _).
  destruct (isBlank text) eqn:Hb.
  - unfold hybridLanguageDetect. rewrite Hb. do 2 eexists.
    split; [reflexivity|]. split; [apply supported_In|]. simpl.
    split; [lra|]. split; [intros; lra|discriminate].
  - rewrite (hybridLanguageDetect_run P text w o w1 Hb E).
    destruct o as [r|].
    + exists r, w1. destruct (S r eq_refl) as (Hm & Hc & _ & m & tag & Hi & _).
      split; [reflexivity|]. split; [apply supported_In|].
      split; [lra|]. split; [intros Hne; contradiction|].
      intros _. split; [exact Hc|]. exists m, (Alpha2String tag). exact Hi.
    + destruct (detectWithCharScan text) as [r|] eqn:Ec.
      * exists r, w1.
        destruct (detectWithCharScan_sound text r Ec) as (Hm & Hlo & Hhi).
        split; [reflexivity|]. split; [apply supported_In|].
        split; [lra|]. split; [intros; lra|]. congruence.
      * destruct (Qltb _ 0.7).
        -- rewrite detectWithLLM_run. do 2 eexists.
           split; [reflexivity|]. split; [apply supported_In|].
           destruct (llm_outcome P (n_llm w1) text); simpl;
             (split; [lra|]); (split; [intros; lra|discriminate]).
        -- do 2 eexists. split; [reflexivity|].
           split; [apply supported_In|]. simpl.
           split; [lra|]. split; [intros; lra|discriminate].
Qed.

(** C10. Every answer of detectWithCharScan has a confidence above 0.75
    (the kana and ideograph rules give at least 0.8), so the guard of
    Stage H returns every answer of the scan, and
    hybridLanguageDetectSync returns it too. hybridLanguageDetect
    therefore never returns from the statement of line 396; when it
    returns from a later statement than Stage H, the scan had answered
    [null]. *)
Theorem C10_stage_H_guard_never_rejects (text : jsstring) :
  (forall r, detectWithCharScan text = Some r ->
     0.75 < confidence r
     /\ confident (Some r) 0.75 = Some r
     /\ hybridLanguageDetectSync text = r)
  /\ (forall r, scanKana (getCharStats text) = Some r -> 0.8 <= confidence r)
  /\ (forall r, scanChinese (getCharStats text) = Some r ->
        0.8 <= confidence r)
  /\ forall w, exists site r w',
       hybridLanguageDetect_site P text w = (Returned (site, r), w')
       /\ hybridLanguageDetect P text w = (Returned r, w')
       /\ site <> AtCharScanFallback
       /\ (site = AtStageR \/ site = AtFastTextFallback \/ site = AtDefault ->
           detectWithCharScan text = None).
Proof.
  split; [|split; [|split]].
  - intros r E. destruct (detectWithCharScan_sound text r E) as (_ & H & _).
    split; [exact H|]. split.
    + rewrite <- E. apply confident_charScan.
    + unfold hybridLanguageDetectSync. rewrite E. reflexivity.
  - intros r E. destruct (existsb pat_japanese text) eqn:K.
    + destruct (scanKana_present text K) as (r' & E' & _ & _ & H & _).
      congruence.
    + rewrite (scanKana_absent text K) in E. discriminate.
  - intros r E. destruct (existsb pat_chinese text) eqn:C.
    + destruct (existsb pat_japanese text) eqn:K.
      * unfold scanChinese, getCharStats, scanCharacters in E. simpl in E.
        rewrite (count_matches_pos pat_chinese), C in E.
        pose proof (count_matches_pos pat_japanese text) as Hj.
        rewrite K in Hj. apply Z.ltb_lt in Hj.
        replace (count_matches pat_japanese text =? 0)%Z with false in E
          by (symmetry; apply Z.eqb_neq; lia).
        discriminate.
      * destruct (scanChinese_present text C K) as (r' & E' & _ & _ & H & _).
        congruence.
    + rewrite (scanChinese_absent text C) in E. discriminate.
  - intros w. pose proof (hybridLanguageDetect_erase P text w) as R'.
    destruct (isBlank text) eqn:Hb.
    + unfold hybridLanguageDetect_site in *. rewrite Hb in *.
      do 3 eexists. split; [reflexivity|]. split; [exact R'|].
      split; [discriminate|]. intros [H|[H|H]]; discriminate.
    + destruct (detectWithFastText_spec P text w) as (o & w1 & E & _).
      pose proof (hybridLanguageDetect_site_run P text w o w1 Hb E) as R.
      rewrite R in R'. destruct o as [r|].
      * do 3 eexists. split; [exact R|]. split; [exact R'|].
        split; [discriminate|]. intros [H|[H|H]]; discriminate.
      * destruct (detectWithCharScan text) as [r|].
        -- do 3 eexists. split; [exact R|]. split; [exact R'|].
           split; [discriminate|]. intros [H|[H|H]]; discriminate.
        -- destruct (Qltb _ 0.7).
           ++ rewrite detectWithLLM_run in R, R'.
              do 3 eexists. split; [exact R|]. split; [exact R'|].
              split; [discriminate|]. reflexivity.
           ++ do 3 eexists. split; [exact R|]. split; [exact R'|].
              split; [discriminate|]. reflexivity.
Qed.

End Ranges.

(** C9, counterexample: a subword model that reports the score 2 makes
    hybridLanguageDetect return the confidence 2. *)
Lemma C9_counterexample :
  exists r w',
    hybridLanguageDetect (providers_answering "en" 2) text_in initial_world
    = (Returned r, w')
    /\ ~ (confidence r <= 1).
Proof.
  do 2 eexists. split.
  - vm_compute. reflexivity.
  - vm_compute. intros H. apply H. reflexivity.
Qed.

Lemma C9_witness :
  exists r w',
    hybridLanguageDetect providers_absent text_como_estas initial_world
    = (Returned r, w')
    /\ method r <> fasttext /\ 0 <= confidence r /\ confidence r <= 1.
Proof.
  destruct (C9_language_supported_confidence_range providers_absent
              text_como_estas initial_world)
    as (_ & r & w' & E & _ & Hlo & Hhi & _).
  exists r, w'. split; [exact E|].
  assert (Hm : method r <> fasttext).
  { vm_compute in E. injection E as <- _. discriminate. }
  split; [exact Hm|]. split; [exact Hlo|]. apply Hhi, Hm.
Defined.

Lemma C10_witness :
  exists r,
    detectWithCharScan text_kana = Some r
    /\ 0.75 < confidence r
    /\ confident (Some r) 0.75 = Some r
    /\ hybridLanguageDetectSync text_kana = r.
Proof.
  eexists. split; [vm_compute; reflexivity|].
  apply (proj1 (C10_stage_H_guard_never_rejects providers_absent text_kana)).
  vm_compute. reflexivity.
Defined.

Section Adapter.

Variable P : Providers.

(** The state after a call of hybridLanguageDetect is the state Stage S
    left, with at most one call of the remote model counted on top; on a
    blank text it is the state before the call. *)
Lemma hybridLanguageDetect_world text w :
  exists o w1,
    detectWithFastText P text w = (Returned o, w1)
    /\ (snd (hybridLanguageDetect P text w) = w
        \/ snd (hybridLanguageDetect P text w) = w1
        \/ snd (hybridLanguageDetect P text w) = count_llm w1).
Proof.
  destruct (detectWithFastText_spec P text w) as (o & w1 & E & _).
  exists o, w1. split; [exact E|].
  destruct (isBlank text) eqn:Hb.
  - left. unfold hybridLanguageDetect. rewrite Hb. reflexivity.
  - right. rewrite (hybridLanguageDetect_run P text w o w1 Hb E).
    destruct o; [left; reflexivity|].
    destruct (detectWithCharScan text); [left; reflexivity|].
    destruct (Qltb _ 0.7); [|left; reflexivity].
    right. rewrite detectWithLLM_run. reflexivity.
Qed.

(** Once the adapter is marked unavailable, a call of
    hybridLanguageDetect leaves it so and loads nothing. *)
Lemma hybridLanguageDetect_unavailable text w :
  fastTextAvailable w = Some false ->
  fastTextAvailable (snd (hybridLanguageDetect P text w)) = Some false
  /\ n_load (snd (hybridLanguageDetect P text w)) = n_load w.
Proof.
  intros Ha.
  destruct (hybridLanguageDetect_world text w) as (o & w1 & E & Hw).
  destruct (detectWithFastText_spec P text w)
    as (o' & w1' & E' & _ & Hoff & _).
  rewrite E in E'. injection E' as <- <-.
  destruct (Hoff Ha) as [_ ->].
  destruct Hw as [->|[->| ->]]; split; simpl; auto.
Qed.

Lemma run_calls_unavailable texts w :
  fastTextAvailable w = Some false ->
  fastTextAvailable (run_calls P texts w) = Some false
  /\ n_load (run_calls P texts w) = n_load w.
Proof.
  revert w. induction texts as [|text rest IH]; intros w Ha; simpl.
  - split; [exact Ha|reflexivity].
  - destruct (hybridLanguageDetect_unavailable text w Ha) as [Ha' Hn].
    destruct (IH _ Ha') as [Ha'' Hn'']. split; [exact Ha''|lia].
Qed.

(** In every state reached from the initial one by calls made one after
    the other, the model has been loaded at most once, and after a load
    either the model is kept or the adapter is marked unavailable. *)
Lemma hybridLanguageDetect_load_once text w :
  (n_load w <= 1)%nat
  /\ (n_load w = 1%nat ->
      (exists m, fastTextModel w = Some m)
      \/ fastTextAvailable w = Some false) ->
  let w' := snd (hybridLanguageDetect P text w) in
  (n_load w' <= 1)%nat
  /\ (n_load w' = 1%nat ->
      (exists m, fastTextModel w' = Some m)
      \/ fastTextAvailable w' = Some false).
Proof.
  intros [Hle Hone] w'.
  destruct (hybridLanguageDetect_world text w) as (o & w1 & E & Hw).
  destruct (detectWithFastText_spec P text w)
    as (o' & w1' & E' & _ & Hoff & _ & Hstep & Hkeep & Hload).
  rewrite E in E'. injection E' as <- <-.
  assert (H1 : (n_load w1 <= 1)%nat
               /\ (n_load w1 = 1%nat ->
                   (exists m, fastTextModel w1 = Some m)
                   \/ fastTextAvailable w1 = Some false)).
  { destruct (Nat.eq_dec (n_load w) 1) as [H|H].
    - destruct (Hone H) as [[m Hm]|Ha].
      + destruct (Hkeep m Hm) as [Hn Hm']. split; [lia|].
        intros _. left. exists m. exact Hm'.
      + destruct (Hoff Ha) as [_ ->]. split; [lia|]. intros _. right. exact Ha.
    - destruct Hstep as [Hs|Hs]; [split; [lia|intros; exfalso; lia]|].
      split; [lia|]. intros _.
      destruct (Hload Hs) as [[_ Hm]|[_ Ha]]; [left|right]; assumption. }
  subst w'. destruct Hw as [->|[->| ->]]; simpl; auto.
Qed.

Lemma run_calls_load_once texts w :
  (n_load w <= 1)%nat
  /\ (n_load w = 1%nat ->
      (exists m, fastTextModel w = Some m)
      \/ fastTextAvailable w = Some false) ->
  (n_load (run_calls P texts w) <= 1)%nat
  /\ (n_load (run_calls P texts w) = 1%nat ->
      (exists m, fastTextModel (run_calls P texts w) = Some m)
      \/ fastTextAvailable (run_calls P texts w) = Some false).
Proof.
  revert w. induction texts as [|text rest IH]; intros w Hw; simpl.
  - exact Hw.
  - apply IH. apply (hybridLanguageDetect_load_once text w Hw).
Qed.

(** C6. Calls are made one after the other from the initial state. If one
    of them attempts the load of the subword model and the load fails,
    that call leaves the adapter marked unavailable; after any further
    calls it is still marked unavailable, the load has been attempted
    exactly once in all, and detectWithFastText returns [null] at once on
    every text: no provider is called and the state is left as it is. *)
Theorem C6_failed_load_is_never_retried
    (before later : list jsstring) (text : jsstring) :
  let w0 := run_calls P before initial_world in
  let w1 := snd (hybridLanguageDetect P text w0) in
  let w2 := run_calls P later w1 in
  n_load w1 = S (n_load w0) ->
  load_outcome P (n_load w0) (n_getLIDModel w0) = false ->
  fastTextAvailable w1 = Some false
  /\ n_load w1 = 1%nat
  /\ fastTextAvailable w2 = Some false
  /\ n_load w2 = 1%nat
  /\ forall t, detectWithFastText P t w2 = (Returned None, w2).
Proof.
  intros w0 w1 w2 Hattempt Hfail.
  assert (Inv0 : (n_load w0 <= 1)%nat
                 /\ (n_load w0 = 1%nat ->
                     (exists m, fastTextModel w0 = Some m)
                     \/ fastTextAvailable w0 = Some false)).
  { apply run_calls_load_once. simpl. split; [lia|discriminate]. }
  pose proof (hybridLanguageDetect_load_once text w0 Inv0) as [Hle1 _].
  fold w1 in Hle1.
  assert (Hone : n_load w1 = 1%nat) by lia.
  assert (Ha1 : fastTextAvailable w1 = Some false).
  { destruct (hybridLanguageDetect_world text w0) as (o & wS & E & Hw).
    destruct (detectWithFastText_spec P text w0)
      as (o' & wS' & E' & _ & _ & _ & _ & _ & Hload).
    rewrite E in E'. injection E' as <- <-. fold w1 in Hw.
    assert (HS : n_load wS = S (n_load w0)).
    { destruct Hw as [Hw|[Hw|Hw]]; rewrite Hw in Hattempt; simpl in Hattempt;
        [exfalso; lia|exact Hattempt|exact Hattempt]. }
    destruct (Hload HS) as [[Ht _]|[_ Ha]]; [congruence|].
    destruct Hw as [Hw|[Hw|Hw]]; rewrite Hw; simpl;
      [rewrite Hw in Hattempt; exfalso; lia|exact Ha|exact Ha]. }
  destruct (run_calls_unavailable later w1 Ha1) as [Ha2 Hn2]. fold w2 in Ha2, Hn2.
  repeat split; try assumption; [lia|].
  intros t. destruct (detectWithFastText_spec P t w2)
    as (o & w' & E & _ & Hoff & _).
  destruct (Hoff Ha2) as [-> ->]. exact E.
Qed.

End Adapter.

Lemma C6_witness :
  let w0 := run_calls providers_load_fails [[0x20]%Z] initial_world in
  let w1 := snd (hybridLanguageDetect providers_load_fails text_han w0) in
  let w2 := run_calls providers_load_fails [text_in; text_kana] w1 in
  (n_load w1 = S (n_load w0)
   /\ load_outcome providers_load_fails (n_load w0) (n_getLIDModel w0) = false)
  /\ (fastTextAvailable w1 = Some false
      /\ n_load w1 = 1%nat
      /\ fastTextAvailable w2 = Some false
      /\ n_load w2 = 1%nat
      /\ forall t,
           detectWithFastText providers_load_fails t w2 = (Returned None, w2)).
Proof.
  split; [split; reflexivity|].
  exact (C6_failed_load_is_never_retried providers_load_fails
           [[0x20]%Z] [text_in; text_kana] text_han eq_refl eq_refl).
Defined.

(** ** Further facts: the character counts and the filter of
       languageFilter.ts *)

Lemma count_matches_zero p s :
  (count_matches p s =? 0)%Z = negb (existsb p s).
Proof.
  pose proof (count_matches_pos p s) as H.
  pose proof (count_matches_nonneg p s) as N.
  destruct (existsb p s); simpl.
  - apply Z.ltb_lt in H. apply Z.eqb_neq. lia.
  - apply Z.ltb_ge in H. apply Z.eqb_eq. lia.
Qed.

Lemma count_matches_cons p c s :
  count_matches p (c :: s) = (Z.b2z (p c) + count_matches p s)%Z.
Proof.
  unfold count_matches. simpl. destruct (p c); simpl List.length; simpl Z.b2z;
    lia.
Qed.

(** Four classes of which a code unit is in at most one count at most the
    length together. *)
Lemma count_matches_exclusive (p1 p2 p3 p4 : Z -> bool) s :
  (forall c, Z.b2z (p1 c) + Z.b2z (p2 c) + Z.b2z (p3 c) + Z.b2z (p4 c) <= 1)%Z ->
  (count_matches p1 s + count_matches p2 s + count_matches p3 s
   + count_matches p4 s <= Z.of_nat (List.length s))%Z.
Proof.
  intros Hx. induction s as [|c s IH].
  - unfold count_matches. simpl. lia.
  - rewrite !count_matches_cons. specialize (Hx c).
    change (List.length (c :: s)) with (S (List.length s)). lia.
Qed.

Lemma exclusive_sum (b1 b2 b3 b4 : bool) :
  (b1 = true -> b2 = false /\ b3 = false /\ b4 = false) ->
  (b2 = true -> b3 = false /\ b4 = false) ->
  (b3 = true -> b4 = false) ->
  (Z.b2z b1 + Z.b2z b2 + Z.b2z b3 + Z.b2z b4 <= 1)%Z.
Proof.
  destruct b1, b2, b3, b4; simpl; intros H1 H2 H3; try lia;
    try (destruct (H1 eq_refl) as (? & ? & ?); discriminate);
    try (destruct (H2 eq_refl) as (? & ?); discriminate);
    try (specialize (H3 eq_refl); discriminate).
Qed.

Lemma pat_chinese_range c :
  pat_chinese c = true -> (0x4E00 <= c <= 0x9FA5)%Z.
Proof. unfold pat_chinese, in_range. intros H. bool_to_prop. lia. Qed.

Lemma pat_japanese_range c :
  pat_japanese c = true -> (0x3040 <= c <= 0x30FF)%Z.
Proof. unfold pat_japanese, in_range. intros H. bool_to_prop. lia. Qed.

Lemma pat_german_range c :
  pat_german c = true ->
  (c = 0xE4 \/ c = 0xF6 \/ c = 0xFC \/ c = 0xDF \/ c = 0xC4 \/ c = 0xD6
   \/ c = 0xDC)%Z.
Proof. unfold pat_german, one_of. simpl. intros H. bool_to_prop. lia. Qed.

Lemma pat_french_range c :
  pat_french c = true ->
  ((0xC0 <= c <= 0xFF /\ c <> 0xD1 /\ c <> 0xF1)
   \/ c = 0x152 \/ c = 0x153 \/ c = 0x178)%Z.
Proof. unfold pat_french, one_of. simpl. intros H. bool_to_prop. lia. Qed.

Lemma pat_spanish_range c :
  pat_spanish c = true -> (c = 0xF1 \/ c = 0xBF \/ c = 0xA1 \/ c = 0xD1)%Z.
Proof. unfold pat_spanish, one_of. simpl. intros H. bool_to_prop. lia. Qed.

Ltac outside_class :=
  apply not_true_iff_false; intros ?;
  repeat match goal with
         | H : pat_chinese _ = true |- _ => apply pat_chinese_range in H
         | H : pat_japanese _ = true |- _ => apply pat_japanese_range in H
         | H : pat_german _ = true |- _ => apply pat_german_range in H
         | H : pat_french _ = true |- _ => apply pat_french_range in H
         | H : pat_spanish _ = true |- _ => apply pat_spanish_range in H
         end; lia.

Lemma classes_exclusive_german c :
  (Z.b2z (pat_chinese c) + Z.b2z (pat_japanese c) + Z.b2z (pat_german c)
   + Z.b2z (pat_spanish c) <= 1)%Z.
Proof.
  apply exclusive_sum; intros H; repeat split; outside_class.
Qed.

Lemma classes_exclusive_french c :
  (Z.b2z (pat_chinese c) + Z.b2z (pat_japanese c) + Z.b2z (pat_french c)
   + Z.b2z (pat_spanish c) <= 1)%Z.
Proof.
  apply exclusive_sum; intros H; repeat split; outside_class.
Qed.

(** X1. The counts of scanCharacters: [total] is the length of the text,
    every count lies between 0 and [total], and the counts of classes
    that share no character add up to at most [total]: ideographs, kana,
    German letters and Spanish marks, and the same with French letters in
    place of German ones. (German and French letters share u with
    diaeresis, so those two counts together may exceed [total].) *)
Theorem scanCharacters_counts_bounded (text : jsstring) :
  let stats := scanCharacters text in
  total stats = Z.of_nat (List.length text)
  /\ (0 <= chinese stats <= total stats)%Z
  /\ (0 <= japanese stats <= total stats)%Z
  /\ (0 <= german stats <= total stats)%Z
  /\ (0 <= french stats <= total stats)%Z
  /\ (0 <= spanish stats <= total stats)%Z
  /\ (0 <= accented stats <= total stats)%Z
  /\ (chinese stats + japanese stats + german stats + spanish stats
      <= total stats)%Z
  /\ (chinese stats + japanese stats + french stats + spanish stats
      <= total stats)%Z.
Proof.
  unfold scanCharacters. cbn [total chinese japanese german french spanish
    accented].
  split; [reflexivity|].
  repeat (split;
          [split; [apply count_matches_nonneg|apply count_matches_le_length]|]).
  split.
  - apply count_matches_exclusive, classes_exclusive_german.
  - apply count_matches_exclusive, classes_exclusive_french.
Qed.

Example scanCharacters_u_diaeresis_counted_twice :
  german (scanCharacters [0xFC]%Z) = 1%Z
  /\ french (scanCharacters [0xFC]%Z) = 1%Z
  /\ total (scanCharacters [0xFC]%Z) = 1%Z.
Proof. repeat split. Qed.

Lemma pat_spanish_split c : pat_spanish c = pat_enye c || pat_inverted c.
Proof.
  unfold pat_spanish, pat_enye, pat_inverted, one_of. simpl.
  destruct (c =? 0xF1)%Z, (c =? 0xBF)%Z, (c =? 0xA1)%Z, (c =? 0xD1)%Z;
    reflexivity.
Qed.

Lemma existsb_spanish_split text :
  existsb pat_spanish text
  = test_class pat_enye text || test_class pat_inverted text.
Proof.
  unfold test_class. induction text as [|c s IH]; simpl; [reflexivity|].
  rewrite IH, pat_spanish_split.
  destruct (pat_enye c), (pat_inverted c), (existsb pat_enye s); reflexivity.
Qed.

(** quickLanguageDetection on the counts of a text, with every test on a
    count read as the presence or absence of a character of the class. *)
Lemma quickLanguageDetection_scan text :
  quickLanguageDetection (scanCharacters text) text =
  if existsb pat_chinese text then Some zh
  else if existsb pat_japanese text then Some ja
  else if existsb pat_spanish text then Some es
  else if existsb pat_german text && negb (existsb pat_french text)
          && ((2 <=? count_matches pat_german text)%Z
              || ((0 <? Z.of_nat (List.length text))%Z
                  && Qgtb (ratio (count_matches pat_german text)
                             (Z.of_nat (List.length text))) 0.05))
       then Some de
  else if existsb pat_french text && negb (existsb pat_german text)
          && ((2 <=? count_matches pat_french text)%Z
              || ((0 <? Z.of_nat (List.length text))%Z
                  && Qgtb (ratio (count_matches pat_french text)
                             (Z.of_nat (List.length text))) 0.05))
       then Some fr
  else if existsb pat_allAccented text
          && (2 <=? count_matches pat_spanishAccented text)%Z
          && Qgtb (ratio (count_matches pat_spanishAccented text)
                     (count_matches pat_allAccented text)) 0.7
       then Some es
  else if negb (existsb pat_german text) && negb (existsb pat_french text)
          && negb (existsb pat_allAccented text) && all_basic text
       then Some en
  else None.
Proof.
  unfold quickLanguageDetection, scanCharacters.
  cbn [chinese japanese german french spanish accented total].
  rewrite !count_matches_pos, !count_matches_zero, existsb_spanish_split.
  destruct (existsb pat_chinese text); [reflexivity|].
  destruct (existsb pat_japanese text); [reflexivity|].
  destruct (test_class pat_enye text); [reflexivity|].
  destruct (test_class pat_inverted text); [reflexivity|].
  cbn [orb andb negb].
  rewrite !andb_true_r.
  destruct (existsb pat_german text), (existsb pat_french text);
    cbn [orb andb negb]; rewrite ?andb_assoc; reflexivity.
Qed.

(** The answers of the filter, rule by rule *)
Lemma languageFilter_answers (text : jsstring) :
  (isBlank text = true -> languageFilter text = None)
  /\ (List.length (trim text) = 1%nat -> languageFilter text = Some en)
  /\ forall l,
       (2 <= List.length (trim text))%nat ->
       languageFilter text = Some l ->
       match l with
       | zh => existsb pat_chinese text = true
       | ja => existsb pat_chinese text = false
               /\ existsb pat_japanese text = true
       | de => existsb pat_chinese text = false
               /\ existsb pat_japanese text = false
               /\ existsb pat_german text = true
               /\ existsb pat_french text = false
               /\ existsb pat_spanish text = false
       | fr => existsb pat_chinese text = false
               /\ existsb pat_japanese text = false
               /\ existsb pat_french text = true
               /\ existsb pat_german text = false
               /\ existsb pat_spanish text = false
       | es => existsb pat_chinese text = false
               /\ existsb pat_japanese text = false
               /\ (existsb pat_spanish text = true
                   \/ (2 <= count_matches pat_spanishAccented text)%Z)
       | en => existsb pat_chinese text = false
               /\ existsb pat_japanese text = false
               /\ existsb pat_german text = false
               /\ existsb pat_french text = false
               /\ existsb pat_spanish text = false
               /\ existsb pat_allAccented text = false
               /\ all_basic text = true
       end.
Proof.
  split; [|split].
  - unfold isBlank, languageFilter. intros H.
    destruct (Nat.eqb (List.length (trim text)) 0) eqn:E; [reflexivity|].
    rewrite orb_false_r in H. apply Nat.eqb_eq in H.
    destruct text; [|discriminate]. discriminate.
  - intros H. unfold languageFilter. rewrite H. reflexivity.
  - intros l Hlen. unfold languageFilter.
    destruct (Nat.eqb_spec (List.length (trim text)) 0) as [E|_]; [lia|].
    destruct (Nat.ltb_spec (List.length (trim text)) 2) as [E|_]; [lia|].
    rewrite quickLanguageDetection_scan.
    destruct (existsb pat_chinese text); [intros [= <-]; reflexivity|].
    destruct (existsb pat_japanese text);
      [intros [= <-]; split; reflexivity|].
    destruct (existsb pat_spanish text);
      [intros [= <-]; repeat split; left; reflexivity|].
    destruct (existsb pat_german text), (existsb pat_french text);
      cbn [andb negb];
      repeat match goal with
             | |- context [if ?b then _ else _] => destruct b eqn:?
             end;
      intros [= <-]; repeat split; try reflexivity; try assumption;
      try (right; bool_to_prop; tauto);
      match goal with
      | H : negb ?a && ?b = true |- _ =>
          apply andb_true_iff in H; destruct H as [Ha Hb];
          apply negb_true_iff in Ha; assumption
      end.
Qed.

(** X2. What an answer of languageFilter rests on. On a text whose trimmed
    form is one code unit the answer is English whatever the character;
    otherwise [zh] means an ideograph is present, [ja] kana without
    ideographs, [de] German letters without French letters or Spanish
    marks, [fr] French letters without German letters or Spanish marks,
    [es] Spanish marks or at least two accented vowels, and [en] a text of
    basic ASCII characters only. The filter gives no answer on a blank
    text. *)
Theorem languageFilter_sound (text : jsstring) :
  (isBlank text = true -> languageFilter text = None)
  /\ (List.length (trim text) = 1%nat -> languageFilter text = Some en)
  /\ forall l,
       (2 <= List.length (trim text))%nat ->
       languageFilter text = Some l ->
       match l with
       | zh => existsb pat_chinese text = true
       | ja => existsb pat_chinese text = false
               /\ existsb pat_japanese text = true
       | de => existsb pat_chinese text = false
               /\ existsb pat_japanese text = false
               /\ existsb pat_german text = true
               /\ existsb pat_french text = false
               /\ existsb pat_spanish text = false
       | fr => existsb pat_chinese text = false
               /\ existsb pat_japanese text = false
               /\ existsb pat_french text = true
               /\ existsb pat_german text = false
               /\ existsb pat_spanish text = false
       | es => existsb pat_chinese text = false
               /\ existsb pat_japanese text = false
               /\ (existsb pat_spanish text = true
                   \/ (2 <= count_matches pat_spanishAccented text)%Z)
       | en => existsb pat_chinese text = false
               /\ existsb pat_japanese text = false
               /\ existsb pat_german text = false
               /\ existsb pat_french text = false
               /\ existsb pat_spanish text = false
               /\ existsb pat_allAccented text = false
               /\ all_basic text = true
       end.
Proof. exact (languageFilter_answers text). Qed.

Lemma languageFilter_sound_witness :
  (2 <= List.length (trim text_como_estas))%nat
  /\ languageFilter text_como_estas = Some es
  /\ existsb pat_spanish text_como_estas = true.
Proof.
  assert (L : (2 <= List.length (trim text_como_estas))%nat)
    by (vm_compute; lia).
  split; [exact L|]. split; [reflexivity|].
  destruct (proj2 (proj2 (languageFilter_sound text_como_estas)) es L eq_refl)
    as (_ & _ & [H|H]); [exact H|reflexivity].
Defined.

Lemma existsb_mono (p q : Z -> bool) s :
  (forall c, p c = true -> q c = true) ->
  existsb p s = true -> existsb q s = true.
Proof.
  intros Hpq. induction s as [|c s IH]; simpl; [discriminate|].
  intros H. apply orb_true_iff in H. apply orb_true_iff.
  destruct H as [H|H]; [left; apply Hpq, H|right; apply IH, H].
Qed.

Lemma trim_length_cases text :
  isBlank text = false -> (1 <= List.length (trim text))%nat.
Proof.
  unfold isBlank. intros H. apply orb_false_iff in H. destruct H as [_ H].
  apply Nat.eqb_neq in H. lia.
Qed.

Lemma languageFilter_kana_cases text :
  existsb pat_japanese text = true ->
  languageFilter text =
    (if (List.length (trim text) <? 2)%nat then Some en
     else if existsb pat_chinese text then Some zh else Some ja).
Proof.
  intros K.
  pose proof (trim_length_cases text
                (isBlank_false _ text kana_not_whitespace K)) as L.
  unfold languageFilter.
  destruct (Nat.eqb_spec (List.length (trim text)) 0) as [E|_]; [lia|].
  destruct (List.length (trim text) <? 2)%nat; [reflexivity|].
  rewrite quickLanguageDetection_scan, K.
  destruct (existsb pat_chinese text); reflexivity.
Qed.

Lemma hybridLanguageDetectSync_kana text :
  existsb pat_japanese text = true ->
  language (hybridLanguageDetectSync text) = ja.
Proof.
  intros K. destruct (detectWithCharScan_kana text K) as (r & Er & Hl & _).
  unfold hybridLanguageDetectSync. rewrite Er. exact Hl.
Qed.

(** X3. On a text with a kana character the filter of languageFilter.ts
    answers English when the trimmed text is a single code unit, Chinese
    when an ideograph is present, and Japanese otherwise; the character
    scan of hybridLanguageDetector.ts answers Japanese on all of them. *)
Theorem languageFilter_on_kana (text : jsstring) :
  existsb pat_japanese text = true ->
  languageFilter text =
    (if (List.length (trim text) <? 2)%nat then Some en
     else if existsb pat_chinese text then Some zh else Some ja)
  /\ language (hybridLanguageDetectSync text) = ja.
Proof.
  intros K. split.
  - exact (languageFilter_kana_cases text K).
  - exact (hybridLanguageDetectSync_kana text K).
Qed.

(** The text of three ideographs and two hiragana used below *)
Lemma languageFilter_on_kana_witness :
  existsb pat_japanese [0x65E5; 0x672C; 0x8A9E; 0x3067; 0x3059]%Z = true
  /\ languageFilter [0x65E5; 0x672C; 0x8A9E; 0x3067; 0x3059]%Z = Some zh
  /\ language
       (hybridLanguageDetectSync [0x65E5; 0x672C; 0x8A9E; 0x3067; 0x3059]%Z)
     = ja.
Proof.
  split; [reflexivity|].
  exact (languageFilter_on_kana [0x65E5; 0x672C; 0x8A9E; 0x3067; 0x3059]%Z
           eq_refl).
Defined.

Lemma u_diaeresis_german c : one_of [0xFC; 0xDC]%Z c = true -> pat_german c = true.
Proof.
  unfold one_of. simpl. intros H.
  assert (E : (c = 0xFC \/ c = 0xDC)%Z) by (bool_to_prop; lia).
  destruct E as [-> | ->]; reflexivity.
Qed.

Lemma u_diaeresis_french c : one_of [0xFC; 0xDC]%Z c = true -> pat_french c = true.
Proof.
  unfold one_of. simpl. intros H.
  assert (E : (c = 0xFC \/ c = 0xDC)%Z) by (bool_to_prop; lia).
  destruct E as [-> | ->]; reflexivity.
Qed.

(** X4. The letter u with diaeresis (either case) is in the German class
    and in the French class, and each of the two rules of the filter asks
    that the other class be absent: on a text that holds this letter the
    filter never answers German and never answers French. *)
Theorem languageFilter_u_diaeresis_never_german (text : jsstring) :
  existsb (one_of [0xFC; 0xDC]%Z) text = true ->
  languageFilter text <> Some de /\ languageFilter text <> Some fr.
Proof.
  intros U.
  pose proof (existsb_mono _ _ text u_diaeresis_german U) as G.
  pose proof (existsb_mono _ _ text u_diaeresis_french U) as F.
  destruct (languageFilter_answers text) as (_ & H1 & H2).
  destruct (Nat.le_gt_cases 2 (List.length (trim text))) as [L|L].
  - split; intros E; specialize (H2 _ L E); cbn in H2;
      destruct H2 as (_ & _ & A & B & _); congruence.
  - destruct (Nat.eq_dec (List.length (trim text)) 1) as [E1|E1].
    + rewrite (H1 E1). split; discriminate.
    + unfold languageFilter.
      replace (Nat.eqb (List.length (trim text)) 0) with true
        by (symmetry; apply Nat.eqb_eq; lia).
      split; discriminate.
Qed.

(** The German word for luck *)
Lemma languageFilter_u_diaeresis_witness :
  existsb (one_of [0xFC; 0xDC]%Z) [0x47; 0x6C; 0xFC; 0x63; 0x6B]%Z = true
  /\ languageFilter [0x47; 0x6C; 0xFC; 0x63; 0x6B]%Z <> Some de
  /\ languageFilter [0x47; 0x6C; 0xFC; 0x63; 0x6B]%Z <> Some fr.
Proof.
  split; [reflexivity|].
  exact (languageFilter_u_diaeresis_never_german
           [0x47; 0x6C; 0xFC; 0x63; 0x6B]%Z eq_refl).
Defined.

Lemma ratio_pos (a b : Z) : (0 < a)%Z -> (0 < b)%Z -> 0 < ratio a b.
Proof.
  intros Ha Hb. unfold ratio.
  apply Qlt_shift_div_l.
  - rewrite (Zlt_Qlt 0 b) in Hb. exact Hb.
  - rewrite Qmult_0_l. rewrite (Zlt_Qlt 0 a) in Ha. exact Ha.
Qed.

Lemma class_ratio_pos p text :
  existsb p text = true ->
  0 < ratio (count_matches p text) (Z.of_nat (List.length text)).
Proof.
  intros H. pose proof (count_matches_pos p text) as Hc. rewrite H in Hc.
  apply Z.ltb_lt in Hc. pose proof (count_matches_le_length p text).
  apply ratio_pos; lia.
Qed.

(** The cap of [Math.min] is never the smaller argument: the share of a
    class is at most 1. *)
Lemma Qmin_affine_exact (cap base slope r : Q) :
  0 <= slope -> r <= 1 -> base + slope <= cap ->
  Qmin cap (base + r * slope) == base + r * slope.
Proof.
  intros Hs Hr Hcap. apply Q.min_r.
  assert (r * slope <= 1 * slope) by (apply Qmult_le_compat_r; assumption).
  lra.
Qed.

(** X5. On a text with one of the Spanish marks (n with tilde, inverted
    question or exclamation mark), without ideographs or kana, and of at
    least two code units once trimmed, the character scan answers Spanish
    with a confidence above 0.75 and at most 0.95, so that the answer
    passes the guard of rule 3: it is the result of
    hybridLanguageDetectSync. *)
Theorem detectWithCharScan_spanish_marks (text : jsstring) :
  existsb pat_spanish text = true ->
  existsb pat_chinese text = false ->
  existsb pat_japanese text = false ->
  (2 <= List.length (trim text))%nat ->
  exists r,
    detectWithCharScan text = Some r
    /\ hybridLanguageDetectSync text = r
    /\ language r = es /\ method r = charscan
    /\ 0.75 < confidence r /\ confidence r <= 0.95.
Proof.
  intros S C K L.
  assert (F : languageFilter text = Some es).
  { unfold languageFilter.
    destruct (Nat.eqb_spec (List.length (trim text)) 0) as [E|_]; [lia|].
    destruct (Nat.ltb_spec (List.length (trim text)) 2) as [E|_]; [lia|].
    rewrite quickLanguageDetection_scan, C, K, S. reflexivity. }
  destruct (class_ratio_bounds pat_spanish text S) as [_ R1].
  pose proof (class_ratio_pos pat_spanish text S) as R0.
  set (q := ratio (count_matches pat_spanish text)
              (Z.of_nat (List.length text))) in *.
  assert (Hc : filterConfidence es (getCharStats text)
               = Qmin 0.95 (0.75 + q * 0.2)).
  { unfold filterConfidence, getCharStats, scanCharacters.
    cbn [german french spanish accented total SupportedLanguage_eqb andb].
    rewrite count_matches_pos, S. reflexivity. }
  assert (Hq : Qmin 0.95 (0.75 + q * 0.2) == 0.75 + q * 0.2)
    by (apply Qmin_affine_exact; lra).
  assert (Hgt : 0.75 < Qmin 0.95 (0.75 + q * 0.2)) by (rewrite Hq; lra).
  assert (E : detectWithCharScan text =
              Some {| language := es;
                      confidence := Qmin 0.95 (0.75 + q * 0.2);
                      method := charscan;
                      reasoning :=
                        ReasonFilter es (Qmin 0.95 (0.75 + q * 0.2)) |}).
  { unfold detectWithCharScan, scanFilter.
    rewrite (scanKana_absent text K), (scanChinese_absent text C), F, Hc.
    apply Qgtb_lt in Hgt. rewrite Hgt. reflexivity. }
  eexists. split; [exact E|].
  split; [unfold hybridLanguageDetectSync; rewrite E; reflexivity|].
  cbn [language method confidence]. repeat split; try assumption.
  apply Q.le_min_l.
Qed.

Lemma detectWithCharScan_spanish_marks_witness :
  (existsb pat_spanish text_como_estas = true
   /\ existsb pat_chinese text_como_estas = false
   /\ existsb pat_japanese text_como_estas = false
   /\ (2 <= List.length (trim text_como_estas))%nat)
  /\ exists r,
       detectWithCharScan text_como_estas = Some r
       /\ hybridLanguageDetectSync text_como_estas = r
       /\ language r = es /\ method r = charscan
       /\ 0.75 < confidence r /\ confidence r <= 0.95.
Proof.
  assert (L : (2 <= List.length (trim text_como_estas))%nat)
    by (vm_compute; lia).
  split; [repeat split; exact L|].
  exact (detectWithCharScan_spanish_marks text_como_estas
           eq_refl eq_refl eq_refl L).
Defined.

(** ** Further facts: the character scan and the confidence estimate *)

Lemma filterConfidence_above lang text :
  0.75 < filterConfidence lang (getCharStats text) ->
  match lang with
  | de => existsb pat_german text = true
  | fr => existsb pat_french text = true
  | es => existsb pat_spanish text = true
  | en => filterConfidence lang (getCharStats text) = 0.8
          /\ existsb pat_german text = false
          /\ existsb pat_french text = false
          /\ existsb pat_spanish text = false
          /\ existsb pat_allAccented text = false
  | zh | ja => False
  end.
Proof.
  unfold filterConfidence, getCharStats, scanCharacters.
  cbn [german french spanish accented total].
  rewrite !count_matches_pos, !count_matches_zero.
  destruct lang; cbn [SupportedLanguage_eqb andb];
    try (intros H; exfalso; revert H; apply Qle_not_lt; lra).
  - destruct (existsb pat_german text), (existsb pat_french text),
      (existsb pat_spanish text), (existsb pat_allAccented text);
      cbn [negb andb]; intros H;
      try (exfalso; revert H; apply Qle_not_lt; lra).
    repeat split.
  - destruct (existsb pat_german text); [reflexivity|].
    intros H. exfalso. revert H. apply Qle_not_lt. lra.
  - destruct (existsb pat_french text); [reflexivity|].
    intros H. exfalso. revert H. apply Qle_not_lt. lra.
  - destruct (existsb pat_spanish text); [reflexivity|].
    intros H. exfalso. revert H. apply Qle_not_lt. lra.
Qed.

Lemma languageFilter_answer_length text l :
  languageFilter text = Some l ->
  (List.length (trim text) = 1%nat /\ l = en)
  \/ (2 <= List.length (trim text))%nat.
Proof.
  unfold languageFilter.
  destruct (Nat.eqb_spec (List.length (trim text)) 0) as [E|E];
    [discriminate|].
  destruct (Nat.ltb_spec (List.length (trim text)) 2) as [L|L].
  - intros [= <-]. left. split; [lia|reflexivity].
  - intros _. right. exact L.
Qed.

(** The answers of the character scan, language by language *)
Lemma detectWithCharScan_cases (text : jsstring) (r : DetectionResult) :
  detectWithCharScan text = Some r ->
  match language r with
  | ja => existsb pat_japanese text = true
  | zh => existsb pat_chinese text = true
          /\ existsb pat_japanese text = false
  | de => existsb pat_german text = true
          /\ existsb pat_french text = false
          /\ existsb pat_spanish text = false
  | fr => existsb pat_french text = true
          /\ existsb pat_german text = false
          /\ existsb pat_spanish text = false
  | es => existsb pat_spanish text = true
  | en => confidence r = 0.8
          /\ existsb pat_german text = false
          /\ existsb pat_french text = false
          /\ existsb pat_spanish text = false
          /\ existsb pat_allAccented text = false
          /\ (List.length (trim text) = 1%nat \/ all_basic text = true)
  end.
Proof.
  unfold detectWithCharScan.
  destruct (existsb pat_japanese text) eqn:K.
  - destruct (scanKana_present text K) as (r1 & E & Hl & _).
    rewrite E. intros [= <-]. rewrite Hl. reflexivity.
  - rewrite (scanKana_absent text K).
    destruct (existsb pat_chinese text) eqn:C.
    + destruct (scanChinese_present text C K) as (r1 & E & Hl & _).
      rewrite E. intros [= <-]. rewrite Hl. split; reflexivity.
    + rewrite (scanChinese_absent text C). unfold scanFilter.
      destruct (languageFilter text) as [lang|] eqn:F; [|discriminate].
      destruct (Qgtb (filterConfidence lang (getCharStats text)) 0.75) eqn:G;
        [|discriminate].
      intros [= <-]. cbn [language confidence]. apply Qgtb_lt in G.
      pose proof (filterConfidence_above lang text G) as H.
      destruct (languageFilter_answers text) as (_ & _ & Sound).
      destruct (languageFilter_answer_length text lang F) as [[L ->]|L].
      * destruct H as (H1 & H2 & H3 & H4 & H5).
        repeat split; try assumption. left. exact L.
      * specialize (Sound lang L F).
        destruct lang; try contradiction; try exact H.
        -- destruct H as (H1 & H2 & H3 & H4 & H5).
           repeat split; try assumption. right. apply Sound.
        -- split; [exact H|]. split; apply Sound.
        -- split; [exact H|]. split; apply Sound.
Qed.

(** X6. What an answer of the character scan rests on. [ja] means kana is
    present, [zh] an ideograph without kana; [de] a German letter and no
    French letter or Spanish mark, [fr] a French letter and no German
    letter or Spanish mark, [es] a Spanish mark (the answer the filter
    gives from accented vowels alone is dropped, its confidence being
    0.75); [en] comes with confidence 0.8 exactly and means that the text
    has no German, French, Spanish or accented character and is either a
    single code unit once trimmed or made of basic ASCII characters. *)
Theorem detectWithCharScan_evidence (text : jsstring) (r : DetectionResult) :
  detectWithCharScan text = Some r ->
  match language r with
  | ja => existsb pat_japanese text = true
  | zh => existsb pat_chinese text = true
          /\ existsb pat_japanese text = false
  | de => existsb pat_german text = true
          /\ existsb pat_french text = false
          /\ existsb pat_spanish text = false
  | fr => existsb pat_french text = true
          /\ existsb pat_german text = false
          /\ existsb pat_spanish text = false
  | es => existsb pat_spanish text = true
  | en => confidence r = 0.8
          /\ existsb pat_german text = false
          /\ existsb pat_french text = false
          /\ existsb pat_spanish text = false
          /\ existsb pat_allAccented text = false
          /\ (List.length (trim text) = 1%nat \/ all_basic text = true)
  end.
Proof. exact (detectWithCharScan_cases text r). Qed.

Lemma detectWithCharScan_evidence_witness :
  detectWithCharScan text_como_estas <> None
  /\ existsb pat_spanish text_como_estas = true.
Proof.
  destruct (detectWithCharScan text_como_estas) as [r|] eqn:E.
  - split; [discriminate|].
    pose proof (detectWithCharScan_evidence text_como_estas r E) as H.
    rewrite detectWithCharScan_como_estas in E. injection E as <-.
    exact H.
  - rewrite detectWithCharScan_como_estas in E. discriminate.
Defined.

(** Two accented vowels and nothing else that counts: the filter says
    Spanish, the scan drops the answer. *)
Example detectWithCharScan_accents_only_dropped :
  languageFilter [0x61; 0x64; 0x69; 0xF3; 0x73; 0x20; 0x61; 0x71; 0x75; 0xED]%Z
  = Some es
  /\ detectWithCharScan
       [0x61; 0x64; 0x69; 0xF3; 0x73; 0x20; 0x61; 0x71; 0x75; 0xED]%Z = None.
Proof. split; vm_compute; reflexivity. Qed.

(** X7. The estimate of calculateLocalConfidence is one of the six values
    0.85, 0.8, 0.6, 0.65, 0.55 and 0.3: the last statement of the
    function, which returns 0.5, is never reached. *)
Theorem calculateLocalConfidence_values
    (text : jsstring) (charScanResult : option DetectionResult) :
  In (calculateLocalConfidence text charScanResult)
     [0.85; 0.8; 0.6; 0.65; 0.55; 0.3]
  /\ calculateLocalConfidence text charScanResult <> 0.5.
Proof.
  assert (H : In (calculateLocalConfidence text charScanResult)
                [0.85; 0.8; 0.6; 0.65; 0.55; 0.3]).
  { unfold calculateLocalConfidence.
    set (n := List.length _).
    destruct (above charScanResult 0.8); [simpl; tauto|].
    destruct (_ || _); [simpl; tauto|].
    destruct (_ || _).
    - destruct (_ || _); simpl; tauto.
    - destruct (Nat.leb_spec 5 n); [simpl; tauto|].
      destruct (Nat.leb_spec 3 n); [simpl; tauto|].
      destruct (Nat.leb_spec n 2); [simpl; tauto|lia]. }
  split; [exact H|]. intros E. rewrite E in H. simpl in H.
  repeat (destruct H as [H|H]; [discriminate|]). exact H.
Qed.

Lemma count_matches_all p s :
  count_matches p s = Z.of_nat (List.length s) <-> forallb p s = true.
Proof.
  induction s as [|c s IH].
  - unfold count_matches. simpl. tauto.
  - rewrite count_matches_cons. simpl forallb.
    change (List.length (c :: s)) with (S (List.length s)).
    pose proof (count_matches_le_length p s). rewrite andb_true_iff, <- IH.
    destruct (p c); simpl Z.b2z; split; intros H'; lia.
Qed.

Lemma ratio_lt_1 (a b : Z) : (0 < b)%Z -> (a < b)%Z -> ratio a b < 1.
Proof.
  intros Hb Hab. unfold ratio. apply Qlt_shift_div_r.
  - rewrite (Zlt_Qlt 0 b) in Hb. exact Hb.
  - rewrite Qmult_1_l. rewrite (Zlt_Qlt a b) in Hab. exact Hab.
Qed.

Lemma ratio_self (b : Z) : (0 < b)%Z -> ratio b b == 1.
Proof.
  intros Hb. unfold ratio. apply Qmult_inv_r.
  intros E. rewrite (Zlt_Qlt 0 b) in Hb. rewrite E in Hb.
  apply (Qlt_irrefl _ Hb).
Qed.

(** The share of a class that is present is 1 exactly when every code
    unit is in the class. *)
Lemma class_ratio_full p text :
  existsb p text = true ->
  (ratio (count_matches p text) (Z.of_nat (List.length text)) == 1
   <-> forallb p text = true).
Proof.
  intros H. pose proof (count_matches_pos p text) as Hc. rewrite H in Hc.
  apply Z.ltb_lt in Hc. pose proof (count_matches_le_length p text) as Hle.
  rewrite <- count_matches_all. split.
  - intros E.
    destruct (Z.eq_dec (count_matches p text) (Z.of_nat (List.length text)))
      as [Heq|Hne]; [exact Heq|].
    exfalso.
    assert (L : ratio (count_matches p text) (Z.of_nat (List.length text)) < 1)
      by (apply ratio_lt_1; lia).
    rewrite E in L. apply (Qlt_irrefl _ L).
  - intros ->. apply ratio_self. lia.
Qed.

(** X8. The confidence of the two script rules. On a text with kana the
    scan answers Japanese, and on a text with ideographs and no kana
    Chinese, with a confidence above 0.8 and at most 0.98; the confidence
    is 0.98, the cap of [Math.min], exactly when every code unit of the
    text is in the class. *)
Theorem detectWithCharScan_script_confidence (text : jsstring) :
  (existsb pat_japanese text = true ->
   exists r,
     detectWithCharScan text = Some r
     /\ language r = ja
     /\ 0.8 < confidence r /\ confidence r <= 0.98
     /\ (confidence r == 0.98 <-> forallb pat_japanese text = true))
  /\ (existsb pat_chinese text = true ->
      existsb pat_japanese text = false ->
      exists r,
        detectWithCharScan text = Some r
        /\ language r = zh
        /\ 0.8 < confidence r /\ confidence r <= 0.98
        /\ (confidence r == 0.98 <-> forallb pat_chinese text = true)).
Proof.
  split.
  - intros K.
    destruct (class_ratio_bounds pat_japanese text K) as [R0 R1].
    pose proof (class_ratio_pos pat_japanese text K) as Rpos.
    pose proof (class_ratio_full pat_japanese text K) as Full.
    set (q := ratio (count_matches pat_japanese text)
                (Z.of_nat (List.length text))) in *.
    assert (E : detectWithCharScan text =
                Some {| language := ja;
                        confidence := Qmin 0.98 (0.8 + q * 0.18);
                        method := charscan;
                        reasoning :=
                          ReasonKana (count_matches pat_japanese text) |}).
    { unfold detectWithCharScan, scanKana, getCharStats, scanCharacters.
      cbn [japanese total].
      pose proof (count_matches_pos pat_japanese text) as Hc.
      rewrite K in Hc. rewrite Hc, (pos_one_leb _ Hc), orb_true_r.
      reflexivity. }
    assert (Hq : Qmin 0.98 (0.8 + q * 0.18) == 0.8 + q * 0.18)
      by (apply Qmin_affine_exact; lra).
    eexists. split; [exact E|]. cbn [language confidence].
    split; [reflexivity|]. rewrite Hq, <- Full.
    repeat split; try lra; intros H; lra.
  - intros C K.
    destruct (class_ratio_bounds pat_chinese text C) as [R0 R1].
    pose proof (class_ratio_pos pat_chinese text C) as Rpos.
    pose proof (class_ratio_full pat_chinese text C) as Full.
    set (q := ratio (count_matches pat_chinese text)
                (Z.of_nat (List.length text))) in *.
    assert (E : detectWithCharScan text =
                Some {| language := zh;
                        confidence := Qmin 0.98 (0.8 + q * 0.18);
                        method := charscan;
                        reasoning :=
                          ReasonChinese (count_matches pat_chinese text) |}).
    { unfold detectWithCharScan. rewrite (scanKana_absent text K).
      unfold scanChinese, getCharStats, scanCharacters.
      cbn [chinese japanese total].
      pose proof (count_matches_pos pat_chinese text) as Hc.
      rewrite C in Hc. rewrite Hc, (pos_one_leb _ Hc), orb_true_r.
      rewrite count_matches_zero, K. reflexivity. }
    assert (Hq : Qmin 0.98 (0.8 + q * 0.18) == 0.8 + q * 0.18)
      by (apply Qmin_affine_exact; lra).
    eexists. split; [exact E|]. cbn [language confidence].
    split; [reflexivity|]. rewrite Hq, <- Full.
    repeat split; try lra; intros H; lra.
Qed.

Lemma detectWithCharScan_script_confidence_witness :
  existsb pat_japanese [0x65E5; 0x672C; 0x8A9E; 0x3067; 0x3059]%Z = true
  /\ exists r,
       detectWithCharScan [0x65E5; 0x672C; 0x8A9E; 0x3067; 0x3059]%Z = Some r
       /\ language r = ja
       /\ 0.8 < confidence r /\ confidence r <= 0.98
       /\ (confidence r == 0.98 <->
           forallb pat_japanese [0x65E5; 0x672C; 0x8A9E; 0x3067; 0x3059]%Z
           = true).
Proof.
  split; [reflexivity|].
  exact (proj1 (detectWithCharScan_script_confidence
                  [0x65E5; 0x672C; 0x8A9E; 0x3067; 0x3059]%Z) eq_refl).
Defined.

(** ** Further facts: the adapter of the statistical model *)

Section AdapterFacts.

Variable P : Providers.

(** The provider calls of one call of detectWithFastText. *)
Lemma detectWithFastText_calls text w :
  exists o w1,
    detectWithFastText P text w = (Returned o, w1)
    /\ (n_import w <= n_import w1 <= n_import w + 2)%nat
    /\ (n_getLIDModel w <= n_getLIDModel w1 <= n_getLIDModel w + 1)%nat
    /\ (n_load w <= n_load w1 <= n_load w + 1)%nat
    /\ (n_identify w <= n_identify w1 <= n_identify w + 1)%nat
    /\ n_llm w1 = n_llm w
    /\ (adapter_settled w -> adapter_settled w1).
Proof.
  destruct w as [model loading promise avail ni ng nl nid nllm].
  unfold detectWithFastText, initFastText, loadLIDModel,
    checkFastTextAvailability, adapter_settled.
  run. cases.
  all: do 2 eexists; (split; [reflexivity|]); run.
  all: repeat match goal with |- _ /\ _ => split end; try lia.
  all: try reflexivity.
  all: intros (Hl & Hi & Hg & Hn & H0 & H1).
  all: repeat match goal with |- _ /\ _ => split end; try lia;
    try reflexivity; try discriminate; try congruence.
  all: try assumption.
  all: intros;
    try (destruct (H0 eq_refl) as (-> & -> & -> & ?));
    try (destruct (H1 eq_refl) as ((? & ?) & ? & ->));
    repeat match goal with |- _ /\ _ => split end;
    try lia; try (eexists; reflexivity); try congruence.
Qed.

(** The same for hybridLanguageDetect, which adds at most one call of the
    remote model. *)
Lemma hybridLanguageDetect_calls text w :
  let w' := snd (hybridLanguageDetect P text w) in
  (n_import w <= n_import w' <= n_import w + 2)%nat
  /\ (n_getLIDModel w <= n_getLIDModel w' <= n_getLIDModel w + 1)%nat
  /\ (n_load w <= n_load w' <= n_load w + 1)%nat
  /\ (n_identify w <= n_identify w' <= n_identify w + 1)%nat
  /\ (n_llm w <= n_llm w' <= n_llm w + 1)%nat
  /\ (adapter_settled w -> adapter_settled w').
Proof.
  intros w'. subst w'.
  destruct (hybridLanguageDetect_world P text w) as (o & w1 & E & Hw).
  destruct (detectWithFastText_calls text w)
    as (o' & w1' & E' & Hi & Hg & Hl & Hid & Hllm & Hinv).
  rewrite E in E'. injection E' as <- <-.
  destruct Hw as [-> |[-> | ->]].
  - repeat match goal with |- _ /\ _ => split end; try lia. tauto.
  - repeat match goal with |- _ /\ _ => split end; try lia. exact Hinv.
  - cbn [count_llm n_import n_getLIDModel n_load n_identify n_llm].
    repeat match goal with |- _ /\ _ => split end; try lia.
    intros H. apply Hinv in H.
    unfold adapter_settled in *.
    cbn [count_llm n_import n_getLIDModel n_load n_identify n_llm
         fastTextLoading fastTextAvailable fastTextModel]. exact H.
Qed.

Lemma run_calls_budget texts w :
  adapter_settled w ->
  adapter_settled (run_calls P texts w)
  /\ (n_identify (run_calls P texts w)
      <= n_identify w + List.length texts)%nat
  /\ (n_llm (run_calls P texts w) <= n_llm w + List.length texts)%nat.
Proof.
  revert w. induction texts as [|text rest IH]; intros w Hw; simpl.
  - split; [exact Hw|]. split; lia.
  - destruct (hybridLanguageDetect_calls text w)
      as (_ & _ & _ & Hid & Hllm & Hinv).
    destruct (IH _ (Hinv Hw)) as (H1 & H2 & H3).
    split; [exact H1|]. split; lia.
Qed.

(** X9. The provider calls of a whole process. After any number of calls
    of hybridLanguageDetect made one after the other from the initial
    state, whatever the providers did, the package has been imported at
    most twice, getLIDModel and load have been called at most once each,
    and identify and the remote model at most once per call. *)
Theorem run_calls_provider_budget (texts : list jsstring) :
  let w := run_calls P texts initial_world in
  (n_import w <= 2)%nat /\ (n_getLIDModel w <= 1)%nat
  /\ (n_load w <= 1)%nat
  /\ (n_identify w <= List.length texts)%nat
  /\ (n_llm w <= List.length texts)%nat.
Proof.
  intros w. subst w.
  assert (H0 : adapter_settled initial_world).
  { unfold adapter_settled. simpl. repeat split; try lia; discriminate. }
  destruct (run_calls_budget texts initial_world H0)
    as ((_ & Hi & Hg & Hl & _) & Hid & Hllm).
  simpl in Hid, Hllm. repeat split; assumption.
Qed.

(** detectWithFastText in a state that holds a model *)
Lemma detectWithFastText_loaded
    (text : jsstring) (w : World) (m : Model) :
  fastTextAvailable w = Some true ->
  fastTextModel w = Some m ->
  exists o w1,
    detectWithFastText P text w = (Returned o, w1)
    /\ n_import w1 = n_import w
    /\ n_getLIDModel w1 = n_getLIDModel w
    /\ n_load w1 = n_load w
    /\ n_identify w1 = S (n_identify w)
    /\ fastTextModel w1 = Some m
    /\ fastTextAvailable w1 =
       Some (negb (identify_throws
                     (identify_outcome P (n_identify w) m text)))
    /\ (identify_throws (identify_outcome P (n_identify w) m text) = true ->
        o = None).
Proof.
  destruct w as [model loading promise avail ni ng nl nid nllm].
  cbn [fastTextAvailable fastTextModel]. intros -> ->.
  unfold detectWithFastText, initFastText, loadLIDModel,
    checkFastTextAvailability, identify_throws.
  run. cases.
  all: do 2 eexists; (split; [reflexivity|]); run.
  all: repeat match goal with |- _ /\ _ => split end; try reflexivity.
  all: try discriminate.
  all: try (rewrite Heqb; reflexivity).
  all: try (rewrite Heqb0; reflexivity).
Qed.

(** X10. A loaded model is reused. In a state where the adapter is marked
    available and holds a model, detectWithFastText imports nothing,
    loads nothing, keeps the model and calls identify exactly once, on
    that model. It marks the adapter unavailable exactly when the [try]
    block throws on the answer of identify, and then returns [null]. *)
Theorem detectWithFastText_reuses_model
    (text : jsstring) (w : World) (m : Model) :
  fastTextAvailable w = Some true ->
  fastTextModel w = Some m ->
  exists o w1,
    detectWithFastText P text w = (Returned o, w1)
    /\ n_import w1 = n_import w
    /\ n_getLIDModel w1 = n_getLIDModel w
    /\ n_load w1 = n_load w
    /\ n_identify w1 = S (n_identify w)
    /\ fastTextModel w1 = Some m
    /\ fastTextAvailable w1 =
       Some (negb (identify_throws
                     (identify_outcome P (n_identify w) m text)))
    /\ (identify_throws (identify_outcome P (n_identify w) m text) = true ->
        o = None).
Proof. exact (detectWithFastText_loaded text w m). Qed.

(** Once the adapter is marked unavailable, calls of hybridLanguageDetect
    change nothing but the count of remote calls. *)
Lemma run_calls_unavailable_frame texts w :
  fastTextAvailable w = Some false ->
  let w' := run_calls P texts w in
  fastTextAvailable w' = Some false
  /\ fastTextModel w' = fastTextModel w
  /\ n_import w' = n_import w /\ n_getLIDModel w' = n_getLIDModel w
  /\ n_load w' = n_load w /\ n_identify w' = n_identify w.
Proof.
  revert w. induction texts as [|text rest IH]; intros w Ha; simpl.
  - repeat split. exact Ha.
  - destruct (hybridLanguageDetect_world P text w) as (o & w1 & E & Hw).
    destruct (detectWithFastText_spec P text w)
      as (o' & w1' & E' & _ & Hoff & _).
    rewrite E in E'. injection E' as <- <-.
    destruct (Hoff Ha) as [_ ->].
    set (ws := snd (hybridLanguageDetect P text w)) in *.
    assert (F : fastTextAvailable ws = Some false
                /\ fastTextModel ws = fastTextModel w
                /\ n_import ws = n_import w
                /\ n_getLIDModel ws = n_getLIDModel w
                /\ n_load ws = n_load w /\ n_identify ws = n_identify w)
      by (destruct Hw as [-> |[-> | ->]]; repeat split; exact Ha).
    destruct F as (F1 & F2 & F3 & F4 & F5 & F6).
    destruct (IH _ F1) as (H1 & H2 & H3 & H4 & H5 & H6).
    repeat split; congruence.
Qed.

(** X11. One failed inference disables a loaded model for good. In a
    state where the adapter is marked available and holds a model, if the
    [try] block of detectWithFastText throws on the answer of identify
    for a text, then after this call of hybridLanguageDetect and any
    later calls the adapter is marked unavailable although the model is
    still held, identify has not been called again, and
    detectWithFastText returns [null] at once on every text. *)
Theorem hybridLanguageDetect_failed_inference_disables
    (text : jsstring) (later : list jsstring) (w : World) (m : Model) :
  isBlank text = false ->
  fastTextAvailable w = Some true ->
  fastTextModel w = Some m ->
  identify_throws (identify_outcome P (n_identify w) m text) = true ->
  let w1 := snd (hybridLanguageDetect P text w) in
  let w2 := run_calls P later w1 in
  fastTextAvailable w2 = Some false
  /\ fastTextModel w2 = Some m
  /\ n_identify w2 = S (n_identify w)
  /\ forall t, detectWithFastText P t w2 = (Returned None, w2).
Proof.
  intros Hb Ha Hm Hthrow w1 w2.
  destruct (detectWithFastText_loaded text w m Ha Hm)
    as (o & wS & E & _ & _ & _ & Hid & Hm' & Ha' & Ho).
  rewrite Hthrow in Ha'. cbn [negb] in Ha'.
  assert (H1 : fastTextAvailable w1 = Some false
               /\ fastTextModel w1 = Some m
               /\ n_identify w1 = S (n_identify w)).
  { subst w1. rewrite (hybridLanguageDetect_run P text w o wS Hb E).
    rewrite (Ho Hthrow).
    destruct (detectWithCharScan text);
      [cbn [snd]; repeat split; assumption|].
    destruct (Qltb _ 0.7); [rewrite detectWithLLM_run|];
      cbn [snd count_llm fastTextAvailable fastTextModel n_identify];
      repeat split; assumption. }
  destruct H1 as (A1 & M1 & I1).
  destruct (run_calls_unavailable_frame later w1 A1)
    as (A2 & M2 & _ & _ & _ & I2).
  fold w2 in A2, M2, I2.
  repeat split; try congruence.
  intros t. destruct (detectWithFastText_spec P t w2)
    as (o2 & w' & E2 & _ & Hoff & _).
  destruct (Hoff A2) as [-> ->]. exact E2.
Qed.

End AdapterFacts.

(** ** Further facts: the arbitration engine *)

Lemma detectWithCharScan_blank text :
  isBlank text = true -> detectWithCharScan text = None.
Proof.
  intros B.
  assert (T : trim text = []).
  { unfold isBlank in B. apply orb_true_iff in B. destruct B as [B|B].
    - apply Nat.eqb_eq in B. destruct text; [reflexivity|discriminate].
    - apply Nat.eqb_eq in B. destruct (trim text); [reflexivity|discriminate]. }
  pose proof (existsb_trim pat_japanese text kana_not_whitespace) as K.
  pose proof (existsb_trim pat_chinese text han_not_whitespace) as C.
  rewrite T in K, C. simpl in K, C. unfold detectWithCharScan, scanFilter.
  rewrite (scanKana_absent text (eq_sym K)),
    (scanChinese_absent text (eq_sym C)).
  rewrite (proj1 (languageFilter_answers text) B). reflexivity.
Qed.

Section ArbitrationFacts.

Variable P : Providers.

(** X12. When the remote model is called. One call of
    hybridLanguageDetect calls detectTextLanguageWithAI at most once, and
    it does so exactly when the text is not blank, Stage S gave no
    answer, the character scan gave no answer and the estimate of
    calculateLocalConfidence is below 0.7. *)
Theorem hybridLanguageDetect_remote_call (text : jsstring) (w : World) :
  exists o w1 r w',
    detectWithFastText P text w = (Returned o, w1)
    /\ hybridLanguageDetect P text w = (Returned r, w')
    /\ (n_llm w' = n_llm w \/ n_llm w' = S (n_llm w))
    /\ (n_llm w' = S (n_llm w) <->
        isBlank text = false /\ o = None
        /\ detectWithCharScan text = None
        /\ calculateLocalConfidence text None < 0.7).
Proof.
  destruct (detectWithFastText_spec P text w) as (o & w1 & E & Hn & _).
  exists o, w1.
  destruct (isBlank text) eqn:Hb.
  - unfold hybridLanguageDetect. rewrite Hb. do 2 eexists.
    split; [exact E|]. split; [reflexivity|]. split; [left; reflexivity|].
    split; [intros H; exfalso; lia|intros (H & _); discriminate].
  - rewrite (hybridLanguageDetect_run P text w o w1 Hb E).
    destruct o as [r|].
    + exists r, w1. split; [exact E|]. split; [reflexivity|].
      split; [left; exact Hn|].
      split; [intros H; exfalso; lia|intros (_ & H & _); discriminate].
    + destruct (detectWithCharScan text) as [r|].
      * exists r, w1. split; [exact E|]. split; [reflexivity|].
        split; [left; exact Hn|].
        split; [intros H; exfalso; lia|intros (_ & _ & H & _); discriminate].
      * destruct (Qltb (calculateLocalConfidence text None) 0.7) eqn:G.
        -- rewrite detectWithLLM_run. do 2 eexists.
           split; [exact E|]. split; [reflexivity|].
           cbn [count_llm n_llm]. rewrite Hn.
           split; [right; reflexivity|].
           split; [intros _|reflexivity]. apply Qltb_lt in G.
           repeat split. exact G.
        -- do 2 eexists. split; [exact E|]. split; [reflexivity|].
           split; [left; exact Hn|].
           split; [intros H; exfalso; lia|].
           intros (_ & _ & _ & H). apply Qltb_lt in H. congruence.
Qed.

(** X13. Where a result comes from. A result of method [llm] has
    confidence 0.85, a language other than [zh], and was preceded by a
    call of the remote model; a result of language [zh] is a [fasttext] or
    a [charscan] result; a [charscan] result is the result of
    hybridLanguageDetectSync. *)
Theorem hybridLanguageDetect_provenance (text : jsstring) (w : World) :
  exists r w',
    hybridLanguageDetect P text w = (Returned r, w')
    /\ (method r = llm ->
        confidence r = 0.85 /\ language r <> zh
        /\ n_llm w' = S (n_llm w))
    /\ (language r = zh -> method r = fasttext \/ method r = charscan)
    /\ (method r = charscan -> r = hybridLanguageDetectSync text).
Proof.
  destruct (detectWithFastText_spec P text w)
    as (o & w1 & E & Hn & _ & S & _).
  destruct (isBlank text) eqn:Hb.
  - unfold hybridLanguageDetect. rewrite Hb. do 2 eexists.
    split; [reflexivity|]. cbn [method language].
    repeat split; discriminate.
  - rewrite (hybridLanguageDetect_run P text w o w1 Hb E).
    destruct o as [r|].
    + exists r, w1. destruct (S r eq_refl) as (Hm & _).
      split; [reflexivity|]. rewrite Hm.
      split; [discriminate|]. split; [left; reflexivity|discriminate].
    + unfold hybridLanguageDetectSync.
      destruct (detectWithCharScan text) as [r|] eqn:Ec.
      * exists r, w1.
        destruct (detectWithCharScan_sound text r Ec) as (Hm & _).
        split; [reflexivity|]. rewrite Hm.
        split; [discriminate|]. split; [right; reflexivity|reflexivity].
      * destruct (Qltb _ 0.7).
        -- rewrite detectWithLLM_run. do 2 eexists.
           split; [reflexivity|]. cbn [count_llm n_llm]. rewrite Hn.
           destruct (llm_outcome P (n_llm w) text) as [lang|];
             cbn [method language confidence].
           ++ split; [intros _; repeat split; destruct lang; discriminate|].
              split; [destruct lang; discriminate|discriminate].
           ++ repeat split; discriminate.
        -- do 2 eexists. split; [reflexivity|]. cbn [method language].
           repeat split; discriminate.
Qed.

(** X14. With the adapter marked unavailable, hybridLanguageDetect and
    hybridLanguageDetectSync agree unless the remote model is consulted:
    when no remote call is made, the result has the language, confidence
    and method of the synchronous result and the state is left as it
    was. *)
Theorem hybridLanguageDetect_unavailable_agrees_with_sync
    (text : jsstring) (w : World) :
  fastTextAvailable w = Some false ->
  exists r w',
    hybridLanguageDetect P text w = (Returned r, w')
    /\ (n_llm w' = n_llm w ->
        w' = w
        /\ language r = language (hybridLanguageDetectSync text)
        /\ confidence r = confidence (hybridLanguageDetectSync text)
        /\ method r = method (hybridLanguageDetectSync text))
    /\ (forall s, detectWithCharScan text = Some s -> r = s /\ w' = w).
Proof.
  intros Ha.
  destruct (detectWithFastText_spec P text w)
    as (o & w1 & E & _ & Hoff & _).
  destruct (Hoff Ha) as [-> ->].
  unfold hybridLanguageDetectSync.
  destruct (isBlank text) eqn:Hb.
  - unfold hybridLanguageDetect. rewrite Hb.
    rewrite (detectWithCharScan_blank text Hb). do 2 eexists.
    split; [reflexivity|]. split; [intros _; repeat split|discriminate].
  - rewrite (hybridLanguageDetect_run P text w None w Hb E).
    destruct (detectWithCharScan text) as [s|].
    + exists s, w. split; [reflexivity|].
      split; [intros _; repeat split|].
      intros s' [= <-]. split; reflexivity.
    + destruct (Qltb _ 0.7).
      * rewrite detectWithLLM_run. do 2 eexists. split; [reflexivity|].
        split; [|discriminate]. cbn [count_llm n_llm]. intros H.
        exfalso. lia.
      * do 2 eexists. split; [reflexivity|].
        split; [intros _; repeat split|discriminate].
Qed.

End ArbitrationFacts.

Lemma u_diaeresis_not_whitespace c :
  one_of [0xFC; 0xDC]%Z c = true -> isWhitespace c = false.
Proof.
  unfold one_of. simpl. intros H.
  assert (E : (c = 0xFC \/ c = 0xDC)%Z) by (bool_to_prop; lia).
  destruct E as [-> | ->]; reflexivity.
Qed.

Section ScriptFacts.

Variable P : Providers.

(** X15. A text that holds u with diaeresis (either case) and no
    ideograph, kana or Spanish mark is never recognised locally: the
    character scan gives no answer; the estimate of
    calculateLocalConfidence is 0.8, the letter being counted once as
    German and once as French; so hybridLanguageDetectSync returns the
    default English result, and hybridLanguageDetect, when Stage S gives
    no answer, returns the default English result with confidence 0.5
    without calling the remote model. *)
Theorem hybridLanguageDetect_u_diaeresis_default
    (text : jsstring) (w : World) :
  existsb (one_of [0xFC; 0xDC]%Z) text = true ->
  existsb pat_chinese text = false ->
  existsb pat_japanese text = false ->
  existsb pat_spanish text = false ->
  detectWithCharScan text = None
  /\ calculateLocalConfidence text None = 0.8
  /\ hybridLanguageDetectSync text =
     {| language := en; confidence := 0.5; method := fallback;
        reasoning := ReasonScanFailed |}
  /\ exists o w1,
       detectWithFastText P text w = (Returned o, w1)
       /\ n_llm w1 = n_llm w
       /\ hybridLanguageDetect P text w =
          (Returned
             match o with
             | Some r => r
             | None => {| language := en; confidence := 0.5;
                          method := fallback;
                          reasoning := ReasonAllFailed |}
             end, w1).
Proof.
  intros U C K S.
  pose proof (existsb_mono _ _ text u_diaeresis_german U) as G.
  pose proof (existsb_mono _ _ text u_diaeresis_french U) as F.
  assert (Scan : detectWithCharScan text = None).
  { destruct (detectWithCharScan text) as [r|] eqn:E; [|reflexivity].
    exfalso. pose proof (detectWithCharScan_cases text r E) as H.
    destruct (language r).
    - destruct H as (_ & H & _). congruence.
    - destruct H as (_ & H & _). congruence.
    - destruct H as (_ & H & _). congruence.
    - congruence.
    - congruence.
    - destruct H as (H & _). congruence. }
  assert (Est : calculateLocalConfidence text None = 0.8).
  { unfold calculateLocalConfidence, getCharStats, scanCharacters.
    cbn [above chinese japanese german french spanish total].
    rewrite !count_matches_pos, K, C, G. cbn [orb].
    pose proof (count_matches_pos pat_german text) as Hg.
    pose proof (count_matches_pos pat_french text) as Hf.
    pose proof (count_matches_nonneg pat_spanish text) as Hs.
    rewrite G in Hg. rewrite F in Hf.
    apply Z.ltb_lt in Hg. apply Z.ltb_lt in Hf.
    replace (2 <=? count_matches pat_german text
                   + count_matches pat_french text
                   + count_matches pat_spanish text)%Z with true
      by (symmetry; apply Z.leb_le; lia).
    rewrite orb_true_r. reflexivity. }
  split; [exact Scan|]. split; [exact Est|].
  split; [unfold hybridLanguageDetectSync; rewrite Scan; reflexivity|].
  destruct (detectWithFastText_spec P text w) as (o & w1 & E & Hn & _).
  exists o, w1. split; [exact E|]. split; [exact Hn|].
  rewrite (hybridLanguageDetect_run P text w o w1
             (isBlank_false _ text u_diaeresis_not_whitespace U) E).
  destruct o; [reflexivity|]. rewrite Scan, Est. reflexivity.
Qed.

(** X16. Every other script goes to the remote model. On a text without
    ideographs, kana, German or French letters or Spanish marks, that is
    not made of basic ASCII characters only and has at least two code
    units once trimmed, the character scan gives no answer and the
    estimate of calculateLocalConfidence is below 0.7: when Stage S gives
    no answer, hybridLanguageDetect returns what detectWithLLM returns,
    after one call of the remote model. *)
Theorem hybridLanguageDetect_other_scripts_remote
    (text : jsstring) (w : World) :
  existsb pat_chinese text = false ->
  existsb pat_japanese text = false ->
  existsb pat_german text = false ->
  existsb pat_french text = false ->
  existsb pat_spanish text = false ->
  all_basic text = false ->
  (2 <= List.length (trim text))%nat ->
  detectWithCharScan text = None
  /\ calculateLocalConfidence text None < 0.7
  /\ exists o w1,
       detectWithFastText P text w = (Returned o, w1)
       /\ hybridLanguageDetect P text w =
          match o with
          | Some r => (Returned r, w1)
          | None => detectWithLLM P text w1
          end.
Proof.
  intros C K G F S B L.
  assert (Scan : detectWithCharScan text = None).
  { destruct (detectWithCharScan text) as [r|] eqn:E; [|reflexivity].
    exfalso. pose proof (detectWithCharScan_cases text r E) as H.
    destruct (language r).
    - destruct H as (_ & _ & _ & _ & _ & [H|H]); [lia|congruence].
    - destruct H as (H & _). congruence.
    - destruct H as (H & _). congruence.
    - congruence.
    - congruence.
    - destruct H as (H & _). congruence. }
  assert (Est : calculateLocalConfidence text None < 0.7).
  { unfold calculateLocalConfidence, getCharStats, scanCharacters.
    cbn [above chinese japanese german french spanish total].
    rewrite !count_matches_pos, K, C, G, F, S. cbn [orb].
    repeat match goal with
           | |- context [if ?b then _ else _] => destruct b
           end; reflexivity. }
  split; [exact Scan|]. split; [exact Est|].
  destruct (detectWithFastText_spec P text w) as (o & w1 & E & _).
  exists o, w1. split; [exact E|].
  assert (Hb : isBlank text = false).
  { unfold isBlank. apply orb_false_iff. split; apply Nat.eqb_neq.
    - intros E0. destruct text; [simpl in L; lia|discriminate].
    - lia. }
  rewrite (hybridLanguageDetect_run P text w o w1 Hb E).
  destruct o; [reflexivity|]. rewrite Scan.
  apply Qltb_lt in Est. rewrite Est. reflexivity.
Qed.

End ScriptFacts.

Lemma hybridLanguageDetect_u_diaeresis_witness :
  (existsb (one_of [0xFC; 0xDC]%Z) text_glueck = true
   /\ existsb pat_chinese text_glueck = false
   /\ existsb pat_japanese text_glueck = false
   /\ existsb pat_spanish text_glueck = false)
  /\ hybridLanguageDetect providers_absent text_glueck initial_world
     = (Returned {| language := en; confidence := 0.5; method := fallback;
                    reasoning := ReasonAllFailed |},
        snd (detectWithFastText providers_absent text_glueck initial_world)).
Proof.
  split; [repeat split|].
  destruct (hybridLanguageDetect_u_diaeresis_default providers_absent
              text_glueck initial_world eq_refl eq_refl eq_refl eq_refl)
    as (_ & _ & _ & o & w1 & E & _ & H).
  rewrite H, E. vm_compute in E. injection E as <- _. reflexivity.
Defined.

Lemma hybridLanguageDetect_other_scripts_witness :
  (existsb pat_chinese text_cyrillic = false
   /\ existsb pat_japanese text_cyrillic = false
   /\ existsb pat_german text_cyrillic = false
   /\ existsb pat_french text_cyrillic = false
   /\ existsb pat_spanish text_cyrillic = false
   /\ all_basic text_cyrillic = false
   /\ (2 <= List.length (trim text_cyrillic))%nat)
  /\ detectWithCharScan text_cyrillic = None
  /\ calculateLocalConfidence text_cyrillic None < 0.7.
Proof.
  assert (L : (2 <= List.length (trim text_cyrillic))%nat)
    by (vm_compute; lia).
  split; [repeat split; exact L|].
  destruct (hybridLanguageDetect_other_scripts_remote providers_absent
              text_cyrillic initial_world
              eq_refl eq_refl eq_refl eq_refl eq_refl eq_refl L)
    as (H1 & H2 & _).
  split; assumption.
Defined.

Lemma detectWithFastText_reuses_model_witness :
  (fastTextAvailable world_loaded = Some true
   /\ fastTextModel world_loaded = Some 0%nat)
  /\ exists o w1,
       detectWithFastText (providers_answering "de" 0.9) text_glueck
         world_loaded = (Returned o, w1)
       /\ n_import w1 = n_import world_loaded
       /\ n_load w1 = n_load world_loaded
       /\ n_identify w1 = S (n_identify world_loaded)
       /\ fastTextAvailable w1 = Some true.
Proof.
  split; [split; reflexivity|].
  destruct (detectWithFastText_reuses_model (providers_answering "de" 0.9)
              text_glueck world_loaded 0%nat eq_refl eq_refl)
    as (o & w1 & E & Hi & _ & Hl & Hid & _ & Ha & _).
  exists o, w1. repeat split; assumption.
Defined.

Lemma hybridLanguageDetect_failed_inference_witness :
  (isBlank text_glueck = false
   /\ fastTextAvailable world_loaded = Some true
   /\ fastTextModel world_loaded = Some 0%nat
   /\ identify_throws
        (identify_outcome providers_identify_rejects
           (n_identify world_loaded) 0%nat text_glueck) = true)
  /\ (let w1 := snd (hybridLanguageDetect providers_identify_rejects
                       text_glueck world_loaded) in
      let w2 := run_calls providers_identify_rejects
                  [text_in; text_cyrillic] w1 in
      fastTextAvailable w2 = Some false
      /\ fastTextModel w2 = Some 0%nat
      /\ n_identify w2 = S (n_identify world_loaded)
      /\ forall t,
           detectWithFastText providers_identify_rejects t w2
           = (Returned None, w2)).
Proof.
  split; [repeat split|].
  exact (hybridLanguageDetect_failed_inference_disables
           providers_identify_rejects text_glueck [text_in; text_cyrillic]
           world_loaded 0%nat eq_refl eq_refl eq_refl eq_refl).
Defined.

Lemma hybridLanguageDetect_unavailable_witness :
  fastTextAvailable
    (snd (hybridLanguageDetect providers_absent text_in initial_world))
  = Some false
  /\ exists r w',
       hybridLanguageDetect providers_absent text_kana
         (snd (hybridLanguageDetect providers_absent text_in initial_world))
       = (Returned r, w')
       /\ r = hybridLanguageDetectSync text_kana.
Proof.
  split; [reflexivity|].
  destruct (hybridLanguageDetect_unavailable_agrees_with_sync
              providers_absent text_kana
              (snd (hybridLanguageDetect providers_absent text_in
                      initial_world)) eq_refl)
    as (r & w' & E & _ & H).
  exists r, w'. split; [exact E|].
  destruct (detectWithCharScan text_kana) as [s|] eqn:Es.
  - destruct (H s eq_refl) as [-> _]. unfold hybridLanguageDetectSync.
    rewrite Es. reflexivity.
  - vm_compute in Es. discriminate.
Defined.

(** ** Further facts: the rule-based detectors of services/qwenApi.ts and
       tts.ts *)

Import WordLists RuleBased.

(** The word tests on small inputs: case is ignored, a word must stand
    between two word boundaries, and an accented letter is no word
    character, so that a listed word ending in one is found only when an
    ASCII letter follows. *)
Example testWords_examples :
  germanWords (utf16 "DER Mann") = true
  /\ englishWords (utf16 "xinx") = false
  /\ germanWords (utf16 "ist groß") = false
  /\ spanishWords (utf16 "sí") = false
  /\ spanishWords (utf16 "síx") = true.
Proof. repeat split. Qed.

(** The sentences of the prompt of qwenApi.ts, lower-cased as Latin-1 *)
Example detectTextLanguage_examples :
  detectTextLanguage lowerLatin1 (utf16 "The man is in the house") = api_en
  /\ detectTextLanguage lowerLatin1 (utf16 "Der Mann ist groß") = api_de
  /\ detectTextLanguage lowerLatin1 (utf16 "Der Mann ist in dem Haus") = api_en
  /\ detectTextLanguage lowerLatin1 (utf16 "El hombre es grande") = api_de.
Proof. repeat split. Qed.

Section RuleBasedFacts.

Variable lowerCase : jsstring -> jsstring.

Lemma count_zero_of_absent p text :
  existsb p text = false -> count_matches p text = 0%Z.
Proof.
  intros H. pose proof (count_matches_zero p text) as Hz.
  rewrite H in Hz. apply Z.eqb_eq in Hz. exact Hz.
Qed.

Lemma count_pos_of_present p text :
  existsb p text = true -> (0 <? count_matches p text)%Z = true.
Proof. intros H. rewrite count_matches_pos. exact H. Qed.

(** X17. The three detectors on Chinese and Japanese text. On a text with
    kana, detectTextLanguage of qwenApi.ts and the character scan answer
    Japanese, while detectLanguage of tts.ts, which asks the filter
    first, answers English for a single code unit, Chinese when an
    ideograph is present and Japanese otherwise. On a text with
    ideographs and no kana, detectTextLanguage answers English, the scan
    Chinese, and detectLanguage English for a single code unit and
    Chinese otherwise. *)
Theorem detectors_on_cjk (text : jsstring) :
  (existsb pat_japanese text = true ->
   detectTextLanguage lowerCase text = api_ja
   /\ language (hybridLanguageDetectSync text) = ja
   /\ detectLanguage lowerCase text =
      (if (List.length (trim text) <? 2)%nat then en
       else if existsb pat_chinese text then zh else ja))
  /\ (existsb pat_chinese text = true ->
      existsb pat_japanese text = false ->
      detectTextLanguage lowerCase text = api_en
      /\ language (hybridLanguageDetectSync text) = zh
      /\ detectLanguage lowerCase text =
         (if (List.length (trim text) <? 2)%nat then en else zh)).
Proof.
  split.
  - intros K. pose proof (languageFilter_kana_cases text K) as F.
    pose proof (hybridLanguageDetectSync_kana text K) as S.
    split; [unfold detectTextLanguage, test_class; rewrite K; reflexivity|].
    split; [exact S|].
    unfold detectLanguage. rewrite F.
    destruct (List.length (trim text) <? 2)%nat; [reflexivity|].
    destruct (existsb pat_chinese text); reflexivity.
  - intros C K.
    split; [unfold detectTextLanguage, test_class; rewrite K, C; reflexivity|].
    destruct (detectWithCharScan_han text C K) as (r & Er & Hl & _).
    split; [unfold hybridLanguageDetectSync; rewrite Er; exact Hl|].
    pose proof (trim_length_cases text
                  (isBlank_false _ text han_not_whitespace C)) as L.
    unfold detectLanguage, languageFilter.
    destruct (Nat.eqb_spec (List.length (trim text)) 0) as [E|_]; [lia|].
    destruct (List.length (trim text) <? 2)%nat; [reflexivity|].
    rewrite quickLanguageDetection_scan, C. reflexivity.
Qed.

(** X18. detectTextLanguage without special characters. On a text with no
    kana or ideograph and no character of the German, French or Spanish
    class, the answer depends on the four word tests only, in this
    order: English when an English word is found, whatever else is found;
    otherwise German, French or Spanish when a word of the list is found;
    English when none is. One word suffices, the match array of a test
    having length 2 however many words there are. *)
Theorem detectTextLanguage_plain (text : jsstring) :
  existsb pat_japanese text = false ->
  existsb pat_chinese text = false ->
  existsb pat_french text = false ->
  existsb pat_german text = false ->
  existsb pat_spanishChars text = false ->
  detectTextLanguage lowerCase text =
    if englishWords (lowerCase text) then api_en
    else if germanWords (lowerCase text) then api_de
    else if frenchWords (lowerCase text) then api_fr
    else if spanishWords (lowerCase text) then api_es
    else api_en.
Proof.
  intros K C F G S. unfold detectTextLanguage, test_class.
  rewrite K, C, (count_zero_of_absent _ _ F), (count_zero_of_absent _ _ G),
    (count_zero_of_absent _ _ S).
  cbn [positive filter snd Z.ltb Z.compare List.length Nat.ltb Nat.leb
       andb sortDesc].
  destruct (englishWords (lowerCase text)), (germanWords (lowerCase text)),
    (frenchWords (lowerCase text)), (spanishWords (lowerCase text));
    reflexivity.
Qed.

(** X19. detectTextLanguage with characters of one class only. On a text
    with no kana or ideograph, when exactly one of the three counts of
    special characters is positive, the answer is the language of that
    count, whatever the word tests find. *)
Theorem detectTextLanguage_single_class (text : jsstring) :
  existsb pat_japanese text = false ->
  existsb pat_chinese text = false ->
  (existsb pat_german text = true ->
   existsb pat_french text = false ->
   existsb pat_spanishChars text = false ->
   detectTextLanguage lowerCase text = api_de)
  /\ (existsb pat_french text = true ->
      existsb pat_german text = false ->
      existsb pat_spanishChars text = false ->
      detectTextLanguage lowerCase text = api_fr)
  /\ (existsb pat_spanishChars text = true ->
      existsb pat_german text = false ->
      existsb pat_french text = false ->
      detectTextLanguage lowerCase text = api_es).
Proof.
  intros K C. unfold detectTextLanguage, test_class. rewrite K, C.
  repeat split.
  - intros G F S.
    rewrite (count_zero_of_absent _ _ F), (count_zero_of_absent _ _ S).
    pose proof (count_pos_of_present _ _ G) as Hg.
    cbn [positive filter snd Z.ltb Z.compare]. rewrite Hg.
    cbn [List.length Nat.ltb Nat.leb andb sortDesc insertDesc Nat.eqb orb
         fst].
    repeat match goal with
           | |- context [if ?b then _ else _] => destruct b
           end; reflexivity.
  - intros F G S.
    rewrite (count_zero_of_absent _ _ G), (count_zero_of_absent _ _ S).
    pose proof (count_pos_of_present _ _ F) as Hf.
    cbn [positive filter snd Z.ltb Z.compare]. rewrite Hf.
    cbn [List.length Nat.ltb Nat.leb andb sortDesc insertDesc Nat.eqb orb
         fst].
    repeat match goal with
           | |- context [if ?b then _ else _] => destruct b
           end; reflexivity.
  - intros S G F.
    rewrite (count_zero_of_absent _ _ G), (count_zero_of_absent _ _ F).
    pose proof (count_pos_of_present _ _ S) as Hs.
    cbn [positive filter snd Z.ltb Z.compare]. rewrite Hs.
    cbn [List.length Nat.ltb Nat.leb andb sortDesc insertDesc Nat.eqb orb
         fst].
    repeat match goal with
           | |- context [if ?b then _ else _] => destruct b
           end; reflexivity.
Qed.

End RuleBasedFacts.

Lemma count_matches_agree (p q : Z -> bool) s :
  (forall c, In c s -> p c = q c) -> count_matches p s = count_matches q s.
Proof.
  induction s as [|c s IH]; intros H; [reflexivity|].
  rewrite !count_matches_cons, (H c (or_introl eq_refl)), IH; [reflexivity|].
  intros c' Hc'. apply H. right. exact Hc'.
Qed.

Lemma existsb_agree (p q : Z -> bool) s :
  (forall c, In c s -> p c = q c) -> existsb p s = existsb q s.
Proof.
  induction s as [|c s IH]; intros H; [reflexivity|]. simpl.
  rewrite (H c (or_introl eq_refl)), IH; [reflexivity|].
  intros c' Hc'. apply H. right. exact Hc'.
Qed.

Section DiaeresisFacts.

Variable lowerCase : jsstring -> jsstring.

(** X20. detectTextLanguage on a text whose only special character is u
    with diaeresis. The letter is in the German, the French and the
    Spanish class, so the three counts are equal and French, first in
    the array, stays first after sorting: the answer is French whenever
    an English word is found, and otherwise Spanish, French or German
    when a word of that list is found, in this order, and French when no
    word is found. *)
Theorem detectTextLanguage_only_u_diaeresis (text : jsstring) :
  existsb pat_japanese text = false ->
  existsb pat_chinese text = false ->
  existsb (one_of [0xFC; 0xDC]%Z) text = true ->
  forallb (fun c =>
             negb (pat_french c || pat_german c || pat_spanishChars c)
             || one_of [0xFC; 0xDC]%Z c) text = true ->
  detectTextLanguage lowerCase text =
    if englishWords (lowerCase text) then api_fr
    else if spanishWords (lowerCase text) then api_es
    else if frenchWords (lowerCase text) then api_fr
    else if germanWords (lowerCase text) then api_de
    else api_fr.
Proof.
  intros K C U Only.
  assert (Cls : forall c, In c text ->
                  pat_french c = one_of [0xFC; 0xDC]%Z c
                  /\ pat_german c = one_of [0xFC; 0xDC]%Z c
                  /\ pat_spanishChars c = one_of [0xFC; 0xDC]%Z c
                  /\ pat_spanishMarks c = false).
  { intros c Hc. rewrite forallb_forall in Only. specialize (Only c Hc).
    destruct (one_of [0xFC; 0xDC]%Z c) eqn:Eu.
    - assert (E : (c = 0xFC \/ c = 0xDC)%Z).
      { unfold one_of in Eu. simpl in Eu. bool_to_prop. lia. }
      destruct E as [-> | ->]; repeat split; reflexivity.
    - rewrite orb_false_r in Only. apply negb_true_iff in Only.
      apply orb_false_iff in Only. destruct Only as [Only S].
      apply orb_false_iff in Only. destruct Only as [F G].
      repeat split; try assumption.
      apply not_true_iff_false. intros M.
      assert (S' : pat_spanishChars c = true).
      { unfold pat_spanishMarks, pat_spanishChars, one_of in *. simpl in *.
        assert (E : (c = 0xF1 \/ c = 0xBF \/ c = 0xA1)%Z)
          by (bool_to_prop; lia).
        destruct E as [-> |[-> | ->]]; reflexivity. }
      congruence. }
  unfold detectTextLanguage, test_class. rewrite K, C.
  rewrite (count_matches_agree pat_french (one_of [0xFC; 0xDC]%Z) text),
    (count_matches_agree pat_german (one_of [0xFC; 0xDC]%Z) text),
    (count_matches_agree pat_spanishChars (one_of [0xFC; 0xDC]%Z) text);
    try (intros c Hc; apply (Cls c Hc)).
  rewrite (existsb_agree pat_spanishMarks (fun _ => false) text)
    by (intros c Hc; apply (Cls c Hc)).
  replace (existsb (fun _ : Z => false) text) with false
    by (clear; induction text; simpl; auto).
  pose proof (count_pos_of_present _ _ U) as Hn.
  set (n := count_matches (one_of [0xFC; 0xDC]%Z) text) in *.
  assert (Hpos : (0 < n)%Z) by (apply Z.ltb_lt; exact Hn).
  cbn [positive filter snd]. rewrite Hn.
  repeat (progress (cbn [List.length Nat.ltb Nat.leb sortDesc insertDesc
                          snd fst];
                    rewrite ?Z.leb_refl)).
  rewrite Z.ltb_irrefl.
  replace (n * 2 <? n)%Z with false by (symmetry; apply Z.ltb_ge; lia).
  cbn [List.length Nat.eqb orb andb].
  destruct (englishWords (lowerCase text)), (germanWords (lowerCase text)),
    (frenchWords (lowerCase text)), (spanishWords (lowerCase text));
    reflexivity.
Qed.

(** X21. A failed exchange is reported as an answer of the remote model.
    With detectTextLanguageWithAI of qwenApi.ts as the remote stage, the
    stage never rejects: whenever hybridLanguageDetect calls it, the
    result has method [llm] and confidence 0.85, and when the exchange
    failed its language is the answer of the rule-based
    detectTextLanguage. *)
Theorem hybridLanguageDetect_with_qwen
    (base : Providers) (reply : nat -> jsstring -> RemoteReply)
    (text : jsstring) (w : World) :
  exists r w',
    hybridLanguageDetect (providers_with_qwen lowerCase base reply) text w
    = (Returned r, w')
    /\ (n_llm w' = S (n_llm w) ->
        method r = llm /\ confidence r = 0.85
        /\ language r =
           api_language
             (detectTextLanguageWithAI lowerCase (reply (n_llm w) text) text)
        /\ (reply (n_llm w) text = ReplyFails ->
            language r =
            api_language (detectTextLanguage lowerCase text)))
    /\ (n_llm w' = n_llm w \/ n_llm w' = S (n_llm w)).
Proof.
  set (P := providers_with_qwen lowerCase base reply).
  destruct (detectWithFastText_spec P text w) as (o & w1 & E & Hn & _).
  destruct (isBlank text) eqn:Hb.
  - unfold hybridLanguageDetect. rewrite Hb. do 2 eexists.
    split; [reflexivity|]. split; [intros H; exfalso; lia|left; reflexivity].
  - rewrite (hybridLanguageDetect_run P text w o w1 Hb E).
    destruct o as [r|].
    + exists r, w1. split; [reflexivity|].
      split; [intros H; exfalso; lia|left; exact Hn].
    + destruct (detectWithCharScan text) as [r|].
      * exists r, w1. split; [reflexivity|].
        split; [intros H; exfalso; lia|left; exact Hn].
      * destruct (Qltb _ 0.7).
        -- rewrite detectWithLLM_run. do 2 eexists.
           split; [reflexivity|]. cbn [count_llm n_llm]. rewrite Hn.
           split; [|right; reflexivity].
           intros _. unfold P.
           cbn [providers_with_qwen llm_outcome method confidence language].
           repeat split. intros ->. reflexivity.
        -- do 2 eexists. split; [reflexivity|].
           split; [intros H; exfalso; lia|left; exact Hn].
Qed.

End DiaeresisFacts.

Lemma detectTextLanguage_only_u_diaeresis_witness :
  (existsb pat_japanese text_glueck = false
   /\ existsb pat_chinese text_glueck = false
   /\ existsb (one_of [0xFC; 0xDC]%Z) text_glueck = true
   /\ forallb (fun c =>
                 negb (pat_french c || pat_german c || pat_spanishChars c)
                 || one_of [0xFC; 0xDC]%Z c) text_glueck = true)
  /\ detectTextLanguage lowerLatin1 text_glueck = api_fr.
Proof.
  split; [repeat split|].
  rewrite (detectTextLanguage_only_u_diaeresis lowerLatin1 text_glueck
             eq_refl eq_refl eq_refl eq_refl).
  reflexivity.
Defined.

Lemma detectTextLanguage_plain_witness :
  (existsb pat_japanese (utf16 "El hombre es grande") = false
   /\ existsb pat_chinese (utf16 "El hombre es grande") = false
   /\ existsb pat_french (utf16 "El hombre es grande") = false
   /\ existsb pat_german (utf16 "El hombre es grande") = false
   /\ existsb pat_spanishChars (utf16 "El hombre es grande") = false)
  /\ detectTextLanguage lowerLatin1 (utf16 "El hombre es grande") = api_de.
Proof.
  split; [repeat split|].
  rewrite (detectTextLanguage_plain lowerLatin1
             (utf16 "El hombre es grande")
             eq_refl eq_refl eq_refl eq_refl eq_refl).
  reflexivity.
Defined.

Lemma detectTextLanguage_single_class_witness :
  (existsb pat_japanese (utf16 "Der Mann ist groß") = false
   /\ existsb pat_chinese (utf16 "Der Mann ist groß") = false
   /\ existsb pat_german (utf16 "Der Mann ist groß") = true
   /\ existsb pat_french (utf16 "Der Mann ist groß") = false
   /\ existsb pat_spanishChars (utf16 "Der Mann ist groß") = false)
  /\ detectTextLanguage lowerLatin1 (utf16 "Der Mann ist groß") = api_de.
Proof.
  split; [repeat split|].
  exact (proj1 (detectTextLanguage_single_class lowerLatin1
                  (utf16 "Der Mann ist groß") eq_refl eq_refl)
           eq_refl eq_refl eq_refl).
Defined.

Lemma detectors_on_cjk_witness :
  existsb pat_japanese [0x65E5; 0x672C; 0x8A9E; 0x3067; 0x3059]%Z = true
  /\ detectTextLanguage lowerLatin1
       [0x65E5; 0x672C; 0x8A9E; 0x3067; 0x3059]%Z = api_ja
  /\ detectLanguage lowerLatin1
       [0x65E5; 0x672C; 0x8A9E; 0x3067; 0x3059]%Z = zh.
Proof.
  split; [reflexivity|].
  destruct (proj1 (detectors_on_cjk lowerLatin1
                     [0x65E5; 0x672C; 0x8A9E; 0x3067; 0x3059]%Z) eq_refl)
    as (H1 & _ & H3).
  split; [exact H1|exact H3].
Defined.

Lemma hybridLanguageDetect_with_qwen_witness :
  exists r w',
    hybridLanguageDetect
      (providers_with_qwen lowerLatin1 providers_absent
         (fun _ _ => ReplyFails)) text_cyrillic initial_world
    = (Returned r, w')
    /\ n_llm w' = S (n_llm initial_world)
    /\ method r = llm /\ confidence r = 0.85 /\ language r = en.
Proof.
  destruct (hybridLanguageDetect_with_qwen lowerLatin1 providers_absent
              (fun _ _ => ReplyFails) text_cyrillic initial_world)
    as (r & w' & E & H & _).
  exists r, w'. split; [exact E|].
  assert (Hn : n_llm w' = S (n_llm initial_world)).
  { vm_compute in E. injection E as _ <-. reflexivity. }
  split; [exact Hn|]. destruct (H Hn) as (Hm & Hc & _ & Hl).
  split; [exact Hm|]. split; [exact Hc|]. rewrite (Hl eq_refl). reflexivity.
Defined.

Lemma existsb_none (p q : Z -> bool) s :
  (forall c, q c = true -> p c = false) ->
  forallb q s = true -> existsb p s = false.
Proof.
  intros Hpq. induction s as [|c s IH]; simpl; [reflexivity|].
  intros H. apply andb_true_iff in H. destruct H as [Hc Hs].
  rewrite (Hpq c Hc). apply IH, Hs.
Qed.

Lemma languageFilter_basic text :
  all_basic text = true -> isBlank text = false ->
  languageFilter text = Some en.
Proof.
  intros Hb Hn. pose proof (trim_length_cases text Hn) as L.
  unfold languageFilter.
  destruct (Nat.eqb_spec (List.length (trim text)) 0) as [E|_]; [lia|].
  destruct (List.length (trim text) <? 2)%nat; [reflexivity|].
  rewrite quickLanguageDetection_scan, Hb.
  unfold all_basic in Hb. apply andb_true_iff in Hb. destruct Hb as [_ Hb].
  rewrite (existsb_none pat_chinese pat_basic text),
    (existsb_none pat_japanese pat_basic text),
    (existsb_none pat_spanish pat_basic text),
    (existsb_none pat_german pat_basic text),
    (existsb_none pat_french pat_basic text),
    (existsb_none pat_allAccented pat_basic text);
    try exact Hb; try reflexivity; intros c Hc; apply basic_not_counted in Hc;
    tauto.
Qed.

Lemma languageFilter_han_cases text :
  existsb pat_chinese text = true ->
  languageFilter text =
    (if (List.length (trim text) <? 2)%nat then Some en else Some zh).
Proof.
  intros C.
  pose proof (trim_length_cases text
                (isBlank_false _ text han_not_whitespace C)) as L.
  unfold languageFilter.
  destruct (Nat.eqb_spec (List.length (trim text)) 0) as [E|_]; [lia|].
  destruct (List.length (trim text) <? 2)%nat; [reflexivity|].
  rewrite quickLanguageDetection_scan, C. reflexivity.
Qed.

Section TtsFacts.

Variable lowerCase : jsstring -> jsstring.

(** X22. detectLanguage of tts.ts on plain text. A text of letters,
    digits, white space and basic punctuation that is not blank is
    answered by the filter: the result is English whatever words the text
    holds, and the word lists of the function are never consulted. *)
Theorem detectLanguage_basic_text (text : jsstring) :
  all_basic text = true -> isBlank text = false ->
  detectLanguage lowerCase text = en
  /\ language (hybridLanguageDetectSync text) = en.
Proof.
  intros Hb Hn. split.
  - unfold detectLanguage. rewrite (languageFilter_basic text Hb Hn).
    reflexivity.
  - unfold hybridLanguageDetectSync.
    rewrite (detectWithCharScan_basic text Hb Hn). reflexivity.
Qed.

(** X23. The kana and ideograph tests of detectLanguage of tts.ts are
    unreachable with a positive outcome: they run only when the filter
    gave no answer, and the filter gives an answer on every text with a
    kana character or an ideograph. *)
Theorem detectLanguage_script_tests_never_fire (text : jsstring) :
  languageFilter text = None ->
  test_class pat_japanese text = false
  /\ test_class pat_chinese text = false.
Proof.
  intros N. unfold test_class. split.
  - destruct (existsb pat_japanese text) eqn:K; [|reflexivity].
    rewrite (languageFilter_kana_cases text K) in N.
    destruct (List.length (trim text) <? 2)%nat;
      [|destruct (existsb pat_chinese text)]; discriminate.
  - destruct (existsb pat_chinese text) eqn:C; [|reflexivity].
    rewrite (languageFilter_han_cases text C) in N.
    destruct (List.length (trim text) <? 2)%nat; discriminate.
Qed.

End TtsFacts.

Lemma detectLanguage_basic_text_witness :
  (all_basic (utf16 "El hombre es grande") = true
   /\ isBlank (utf16 "El hombre es grande") = false)
  /\ detectLanguage lowerLatin1 (utf16 "El hombre es grande") = en
  /\ detectTextLanguage lowerLatin1 (utf16 "El hombre es grande") = api_de.
Proof.
  split; [split; reflexivity|].
  split; [|reflexivity].
  exact (proj1 (detectLanguage_basic_text lowerLatin1
                  (utf16 "El hombre es grande") eq_refl eq_refl)).
Defined.

Lemma detectLanguage_script_tests_witness :
  languageFilter text_cyrillic = None
  /\ test_class pat_japanese text_cyrillic = false
  /\ test_class pat_chinese text_cyrillic = false.
Proof.
  split; [reflexivity|].
  exact (detectLanguage_script_tests_never_fire text_cyrillic eq_refl).
Defined.

End Hybrid.
